(** * Verification of the deAPI MCP server core

    A shallow embedding of the OAuth 2.0 issuer ([src/oauth_endpoints.py])
    and of the adaptive polling loop ([src/polling_manager.py]), with the
    properties of the specification stated and proved over it; then of
    their callers, the bearer-token provider ([src/fastmcp_auth.py],
    [src/auth.py]) and the embedding tool ([src/tools/embedding.py],
    [src/deapi_client.py]), with further properties of the four.

    Conventions of the embedding:
    - a Python [str] is a Rocq [string] holding its UTF-8 bytes; [py_len]
      counts code points, as [len] does;
    - a Python [float] (time stamps, delays) is a rational [Q];
    - [Optional[str]] is [option string]; [not x] is [falsy x];
    - module-level mutable state (the authorization code store) is passed
      in and returned explicitly; readings of the clock and of the random
      generator are inputs of the function that performs them. *)

From Stdlib Require Import NArith ZArith QArith Qminmax Qround Qpower Lia Lqa List String Ascii.
From stdpp Require Import gmap strings list fin_maps.
Import ListNotations.

(** ** SHA-256 (FIPS 180-4), the semantics of [hashlib.sha256(b).digest()] *)

Module Sha256.
Local Open Scope N_scope.

(** Words are numbers below [2 ^ 32]; additions wrap around. *)
Definition w32 (x : N) : N := x mod 4294967296.
Definition add32 (x y : N) : N := w32 (x + y).
Definition not32 (x : N) : N := N.lxor x 0xffffffff.
Definition rotr (n x : N) : N := N.lor (N.shiftr x n) (w32 (N.shiftl x (32 - n))).
Definition Ch (x y z : N) : N := N.lxor (N.land x y) (N.land (not32 x) z).
Definition Maj (x y z : N) : N := N.lxor (N.lxor (N.land x y) (N.land x z)) (N.land y z).
Definition bsig0 (x : N) : N := N.lxor (N.lxor (rotr 2 x) (rotr 13 x)) (rotr 22 x).
Definition bsig1 (x : N) : N := N.lxor (N.lxor (rotr 6 x) (rotr 11 x)) (rotr 25 x).
Definition ssig0 (x : N) : N := N.lxor (N.lxor (rotr 7 x) (rotr 18 x)) (N.shiftr x 3).
Definition ssig1 (x : N) : N := N.lxor (N.lxor (rotr 17 x) (rotr 19 x)) (N.shiftr x 10).

(** The constants are given by their definition in the standard: the
    first 32 bits of the fractional parts of the cube roots of the first 64
    primes (round constants) and of the square roots of the first 8 primes
    (initial hash value). *)

Definition is_prime (n : nat) : bool :=
  (2 <=? n)%nat && forallb (fun d => negb (n mod d =? 0)%nat) (seq 2 (n - 2)).

Definition primes (count : nat) : list N :=
  map N.of_nat (firstn count (List.filter is_prime (seq 2 400))).

(** The integer root of degree [k] of [n], built bit by bit from [r]: the
    largest number below [2 ^ bits] whose [k]-th power is at most [n]. *)
Fixpoint iroot (k : N) (bits : nat) (n r : N) : N :=
  match bits with
  | O => r
  | S b =>
      let r' := r + N.shiftl 1 (N.of_nat b) in
      iroot k b n (if r' ^ k <=? n then r' else r)
  end.

Definition fractional_bits (k p : N) : N :=
  w32 (iroot k 40 (N.shiftl p (32 * k)) 0).

Definition K256 : list N := Eval vm_compute in map (fractional_bits 3) (primes 64).

Definition H0 : list N := Eval vm_compute in map (fractional_bits 2) (primes 8).

(** The [n] bytes of [x], most significant first. *)
Definition be_bytes (n : nat) (x : N) : list N :=
  map (fun i => N.shiftr x (8 * N.of_nat i) mod 256) (rev (seq 0 n)).

(** Padding: the byte 0x80, zeros up to 56 modulo 64, then the length in
    bits on 8 bytes. *)

Definition pad (msg : list N) : list N :=
  let len := N.of_nat (List.length msg) in
  let zeros := (64 + 55 - len mod 64) mod 64 in
  (msg ++ 0x80 :: repeat 0 (N.to_nat zeros) ++ be_bytes 8 (8 * len))%list.

(** The 32-bit big-endian words of a byte sequence. *)
Fixpoint words (fuel : nat) (bs : list N) : list N :=
  match fuel, bs with
  | S fuel', b0 :: b1 :: b2 :: b3 :: rest =>
      (N.shiftl b0 24 + N.shiftl b1 16 + N.shiftl b2 8 + b3) :: words fuel' rest
  | _, _ => []
  end.

(** The message schedule, most recent word first: [n] more words. *)
Fixpoint expand (n : nat) (rev_w : list N) : list N :=
  match n with
  | O => rev_w
  | S n' =>
      match rev_w with
      | _ :: w2 :: _ :: _ :: _ :: _ :: w7 :: _ :: _ :: _ :: _ :: _ :: _ :: _ :: w15 :: w16 :: _ =>
          expand n' (add32 (add32 (ssig1 w2) w7) (add32 (ssig0 w15) w16) :: rev_w)
      | _ => rev_w
      end
  end.

(** One round on the working variables, with its constant and word. *)
Definition round (st : list N) (kw : N * N) : list N :=
  match st with
  | [a; b; c; d; e; f; g; h] =>
      let t1 := add32 (add32 (add32 h (bsig1 e)) (add32 (Ch e f g) (fst kw))) (snd kw) in
      let t2 := add32 (bsig0 a) (Maj a b c) in
      [add32 t1 t2; a; b; c; add32 d t1; e; f; g]
  | _ => st
  end.

(** The compression of one block of 16 words into the hash value. *)
Definition compress (h : list N) (block : list N) : list N :=
  let w := rev (expand 48 (rev block)) in
  let st := fold_left round (combine K256 w) h in
  map (fun p => add32 (fst p) (snd p)) (combine h st).

Fixpoint blocks (fuel : nat) (ws : list N) : list (list N) :=
  match fuel with
  | O => []
  | S fuel' =>
      match ws with
      | [] => []
      | _ => firstn 16 ws :: blocks fuel' (skipn 16 ws)
      end
  end.

(** The 32 bytes of the digest. *)
Definition digest (msg : list N) : list N :=
  let p := pad msg in
  let ws := words (List.length p) p in
  flat_map (be_bytes 4) (fold_left compress (blocks (List.length ws) ws) H0).

End Sha256.

(** [s.encode()]: the UTF-8 bytes of a string. *)
Definition encode (s : string) : list N := map N_of_ascii (list_ascii_of_string s).

(** ** [base64.urlsafe_b64encode] (RFC 4648, section 5), and the removal of
    the padding by [str.rstrip] *)

Module Base64.
Local Open Scope N_scope.

Definition urlsafe_alphabet : string :=
  "ABCDEFGHIJKLMNOPQRSTUVWXYZabcdefghijklmnopqrstuvwxyz0123456789-_".

(** The character of a 6-bit group. *)
Definition digit (i : N) : ascii :=
  match String.get (N.to_nat i) urlsafe_alphabet with Some c => c | None => "="%char end.

Fixpoint urlsafe_b64encode (bs : list N) : string :=
  match bs with
  | [] => EmptyString
  | [a] =>
      String (digit (N.shiftr a 2)) (String (digit (N.shiftl (N.land a 3) 4)) "==")
  | [a; b] =>
      String (digit (N.shiftr a 2))
        (String (digit (N.lor (N.shiftl (N.land a 3) 4) (N.shiftr b 4)))
           (String (digit (N.shiftl (N.land b 15) 2)) "="))
  | a :: b :: c :: rest =>
      String (digit (N.shiftr a 2))
        (String (digit (N.lor (N.shiftl (N.land a 3) 4) (N.shiftr b 4)))
           (String (digit (N.lor (N.shiftl (N.land b 15) 2) (N.shiftr c 6)))
              (String (digit (N.land c 63)) (urlsafe_b64encode rest))))
  end.

(** The string without its trailing equals signs. *)
Fixpoint rstrip_eq (s : string) : string :=
  match s with
  | EmptyString => EmptyString
  | String c s' =>
      match rstrip_eq s' with
      | EmptyString => if Ascii.eqb c "=" then EmptyString else String c EmptyString
      | r => String c r
      end
  end.
End Base64.

(** ** Python values shared by both components *)

(** [len(s)] counts code points: every byte except the UTF-8 continuation
    bytes [10xxxxxx]. *)
Definition is_continuation (c : ascii) : bool :=
  match c with
  | Ascii _ _ _ _ _ _ b6 b7 => b7 && negb b6
  end.

Fixpoint py_len (s : string) : nat :=
  match s with
  | EmptyString => 0
  | String c s' => (if is_continuation c then 0 else 1) + py_len s'
  end.

(** Truth value of an [Optional[str]]: [None] and the empty string are false. *)
Definition truthy (o : option string) : bool :=
  match o with
  | Some (String _ _) => true
  | _ => false
  end.

Definition falsy (o : option string) : bool := negb (truthy o).

(** [int(x)] on a float: truncation toward zero. *)
Definition py_int (x : Q) : Z := Z.quot (Qnum x) (Zpos (Qden x)).

(** * The OAuth issuer, [src/oauth_endpoints.py] *)

Module OAuth.
Local Open Scope string_scope.

Definition DEFAULT_CLIENT_ID : string := "deapi-mcp".
Definition JWT_ALGORITHM : string := "HS256".
Definition JWT_EXPIRATION_SECONDS : Z := 3600.
Definition REFRESH_TOKEN_EXPIRATION_SECONDS : Z := 2592000.
Definition AUTHORIZATION_CODE_EXPIRATION_SECONDS : Q := 600.
Definition AUTHORIZATION_CODE_MAX_ENTRIES : nat := 1000.
Definition ALLOWED_REDIRECT_SCHEMES : list string := ["http"; "https"].

(** [settings.deapi_api_base_url], at its default. *)
Definition deapi_api_base_url : string := "https://api.deapi.ai".

(** *** The authorization code store

    [_authorization_codes: dict[str, dict]], keyed by the code. *)

Record auth_data := {
  ad_client_id : string;
  ad_redirect_uri : string;
  ad_code_challenge : string;
  ad_expires_at : Q;
  ad_state : option string
}.

Abbreviation store := (gmap string auth_data).

(** [now > data["expires_at"]] *)
Definition expired (now : Q) (d : auth_data) : bool :=
  negb (Qle_bool now (ad_expires_at d)).

(** The entries named in [expired] are deleted; the others are kept. *)
Definition _prune_expired_authorization_codes (now : Q) (codes : store) : store :=
  filter (λ kv : string * auth_data, expired now kv.2 = false) codes.

(** *** Redirect URI validation

    [urlparse] belongs to the Python standard library; its result is taken
    as given: [Some (scheme, netloc)], or [None] when it raises. *)

(** [str.lower] on the ASCII letters. The two other characters that Python
    lowers to an ASCII letter (U+0130, to an i followed by a combining dot,
    and the Kelvin sign, to k) produce none of the words looked for
    below. *)
Definition ascii_lower (c : ascii) : ascii :=
  let n := N_of_ascii c in
  if ((65 <=? n) && (n <=? 90))%N then ascii_of_N (n + 32) else c.

Fixpoint lower (s : string) : string :=
  match s with
  | EmptyString => EmptyString
  | String c s' => String (ascii_lower c) (lower s')
  end.

Section RedirectValidation.
Variable urlparse : string → option (string * string).

Definition _validate_redirect_uri (redirect_uri : string) : bool :=
  match urlparse redirect_uri with
  | Some (scheme, netloc) =>
      bool_decide (lower scheme ∈ ALLOWED_REDIRECT_SCHEMES) && truthy (Some netloc)
  | None => false
  end.
End RedirectValidation.

(** *** Token codec

    Signing and encryption are modelled symbolically: a signed token records
    its claims and the key it was signed with, and verifies under that key
    only; a Fernet ciphertext records the key, the fresh IV and the
    plaintext, and decrypts under that key only. *)

Record ciphertext := {
  ct_key : string;
  ct_iv : string;
  ct_plain : string
}.

(** The Fernet key of [_get_fernet]: base64 of the SHA-256 of the secret. *)
Definition fernet_key (secret : string) : string :=
  Base64.urlsafe_b64encode (Sha256.digest (encode secret)).

Definition encrypt_token (secret iv token : string) : ciphertext :=
  {| ct_key := fernet_key secret; ct_iv := iv; ct_plain := token |}.

(** [None] stands for the exception raised on a wrong key. *)
Definition decrypt_token (secret : string) (encrypted_token : ciphertext) : option string :=
  if bool_decide (ct_key encrypted_token = fernet_key secret)
  then Some (ct_plain encrypted_token) else None.

Record claims := {
  iss : string;
  sub : string;
  aud : string;
  exp : Z;
  iat : Z;
  deapi_token_enc : option ciphertext;
  token_type : option string
}.

Record jwt := {
  jwt_alg : string;
  jwt_payload : claims;
  jwt_key : string
}.

(** What a client presents as a token: a signed token, or some other text. *)
Inductive token_string :=
| Jwt (t : jwt)
| NotAJwt (raw : string).

Definition jwt_encode (payload : claims) (key algorithm : string) : jwt :=
  {| jwt_alg := algorithm; jwt_payload := payload; jwt_key := key |}.

(** [jwt.decode(token, key, algorithms=..., audience=...)] at time [now]:
    the algorithm, the signature, [exp], [iat] and [aud] are validated;
    [None] stands for [jwt.InvalidTokenError] (all its subclasses). *)
Definition jwt_decode (token : token_string) (key : string) (algorithms : list string)
    (audience : string) (now : Q) : option claims :=
  match token with
  | NotAJwt _ => None
  | Jwt t =>
      let p := jwt_payload t in
      if negb (bool_decide (jwt_alg t ∈ algorithms)) then None
      else if negb (bool_decide (jwt_key t = key)) then None
      else if Qle_bool (inject_Z (exp p)) now then None
      else if negb (Qle_bool (inject_Z (iat p)) now) then None
      else if negb (bool_decide (aud p = audience)) then None
      else Some p
  end.

(** The environment of one token creation: [datetime.now()] and the IV
    drawn by Fernet. *)
Record mint_env := {
  me_now : Q;
  me_iv : string
}.

Definition create_jwt (key : string) (env : mint_env) (deapi_token client_id : string) : jwt :=
  let now := me_now env in
  let expiration := (now + inject_Z JWT_EXPIRATION_SECONDS)%Q in
  let payload := {|
    iss := deapi_api_base_url;
    sub := client_id;
    aud := "deapi-mcp-api";
    exp := py_int expiration;
    iat := py_int now;
    deapi_token_enc := Some (encrypt_token key (me_iv env) deapi_token);
    token_type := None
  |} in
  jwt_encode payload key JWT_ALGORITHM.

Definition decode_jwt (key : string) (now : Q) (token : token_string) : option claims :=
  jwt_decode token key [JWT_ALGORITHM] "deapi-mcp-api" now.

Definition create_refresh_token (key : string) (env : mint_env)
    (deapi_token client_id : string) : jwt :=
  let now := me_now env in
  let expiration := (now + inject_Z REFRESH_TOKEN_EXPIRATION_SECONDS)%Q in
  let payload := {|
    iss := deapi_api_base_url;
    sub := client_id;
    aud := "deapi-mcp-refresh";
    exp := py_int expiration;
    iat := py_int now;
    deapi_token_enc := Some (encrypt_token key (me_iv env) deapi_token);
    token_type := Some "refresh"
  |} in
  jwt_encode payload key JWT_ALGORITHM.

Definition decode_refresh_token (key : string) (now : Q) (token : token_string)
    : option claims :=
  match jwt_decode token key [JWT_ALGORITHM] "deapi-mcp-refresh" now with
  | Some payload =>
      if negb (bool_decide (token_type payload = Some "refresh")) then None
      else Some payload
  | None => None
  end.

(** *** PKCE *)

Definition verify_pkce_challenge (code_verifier code_challenge : string) : bool :=
  let verifier_hash := Sha256.digest (encode code_verifier) in
  let computed_challenge := Base64.rstrip_eq (Base64.urlsafe_b64encode verifier_hash) in
  bool_decide (computed_challenge = code_challenge).

(** *** Responses

    [RedirectResponse uri params] is the redirect to
    [f"{uri}?{urlencode(params)}"]; the parameters are kept in the order
    in which the source inserts them. *)

Inductive body :=
| ErrorBody (error : string) (error_description : option string)
| TokenBody (access_token : jwt) (token_type : string) (expires_in : Z)
    (refresh_token : jwt).

Inductive response :=
| JSONResponse (content : body) (status_code : Z)
| RedirectResponse (uri : string) (params : list (string * string)).

Definition json_error (error error_description : string) (status_code : Z) : response :=
  JSONResponse (ErrorBody error (Some error_description)) status_code.

(** The characters that [urllib.parse.quote] never escapes: the ASCII
    letters and digits and [_.-~]. *)
Definition always_safe (c : ascii) : bool :=
  let n := nat_of_ascii c in
  ((48 <=? n) && (n <=? 57) || (65 <=? n) && (n <=? 90) || (97 <=? n) && (n <=? 122))%nat
  || Ascii.eqb c "_" || Ascii.eqb c "." || Ascii.eqb c "-" || Ascii.eqb c "~".

(** The hexadecimal digit of [n], in upper case. *)
Definition hex_digit (n : nat) : ascii :=
  if (n <? 10)%nat then ascii_of_nat (48 + n) else ascii_of_nat (55 + n).

(** [quote_plus] of one byte: itself when always safe, a plus sign for a
    space, and otherwise [%XX]. *)
Definition quote_char (c : ascii) : string :=
  if always_safe c then String c EmptyString
  else if Ascii.eqb c " " then "+"
  else String "%" (String (hex_digit (nat_of_ascii c / 16))
                     (String (hex_digit (nat_of_ascii c mod 16)) EmptyString)).

(** [urllib.parse.quote_plus], as [urlencode] calls it, on the UTF-8 bytes
    of [s]. *)
Fixpoint quote_plus (s : string) : string :=
  match s with
  | EmptyString => EmptyString
  | String c rest => quote_char c ++ quote_plus rest
  end.

(** [urllib.parse.urlencode(params)] for a dict of strings, in the order
    of insertion. *)
Definition urlencode (params : list (string * string)) : string :=
  String.concat "&" (map (λ kv, quote_plus kv.1 ++ "=" ++ quote_plus kv.2) params).

(** The URL that the source hands to [RedirectResponse]. *)
Definition redirect_url (r : response) : option string :=
  match r with
  | RedirectResponse uri params => Some (uri ++ "?" ++ urlencode params)
  | JSONResponse _ _ => None
  end.

(** *** The token endpoint *)

Record token_form := {
  tf_grant_type : option string;
  tf_client_id : option string;
  tf_client_secret : option string;
  tf_refresh_token : option token_string;
  tf_code : option string;
  tf_code_verifier : option string;
  tf_redirect_uri : option string
}.

(** What one call reads from its environment: [time.time()] at the expiry
    check, the clock of [jwt.decode], the two token creations, and the
    text [str(e)] of the exception that the creation of the tokens raises,
    when it raises one. *)
Record token_env := {
  te_time : Q;
  te_decode_now : Q;
  te_access : mint_env;
  te_refresh : mint_env;
  te_failure : option string
}.

Definition token_falsy (o : option token_string) : bool :=
  match o with
  | None | Some (NotAJwt EmptyString) => true
  | _ => false
  end.

(** The creation of the two tokens and the response that carries them
    (lines 445-464 and 555-577): when the creation raises, the answer is
    [server_error] with status 500. *)
Definition token_response (key : string) (env : token_env)
    (deapi_token client_id : string) : response :=
  match te_failure env with
  | Some e => json_error "server_error" ("Failed to create tokens: " ++ e) 500
  | None =>
      let access_token := create_jwt key (te_access env) deapi_token client_id in
      let refresh_token :=
        create_refresh_token key (te_refresh env) deapi_token client_id in
      JSONResponse (TokenBody access_token "Bearer" JWT_EXPIRATION_SECONDS refresh_token)
        200
  end.

(** The [refresh_token] grant (lines 409-464). *)
Definition refresh_token_grant (key : string) (env : token_env) (form : token_form)
    (client_id : string) : response :=
  if token_falsy (tf_refresh_token form) then
    json_error "invalid_request" "refresh_token is required" 400
  else
    match decode_refresh_token key (te_decode_now env)
            (default (NotAJwt "") (tf_refresh_token form)) with
    | None => json_error "invalid_grant" "Invalid or expired refresh token" 400
    | Some payload =>
        match deapi_token_enc payload with
        | None => json_error "invalid_grant" "Invalid refresh token" 400
        | Some encrypted_token =>
            match decrypt_token key encrypted_token with
            | None => json_error "invalid_grant" "Invalid refresh token" 400
            | Some deapi_token => token_response key env deapi_token client_id
            end
        end
    end.

(** The [authorization_code] grant (lines 467-530): an early response, or
    the upstream credential with which the endpoint goes on. *)
Definition authorization_code_grant (codes : store) (env : token_env) (form : token_form)
    : response * store + string * store :=
  let code := default "" (tf_code form) in
  let code_verifier := default "" (tf_code_verifier form) in
  let client_secret := default "" (tf_client_secret form) in
  if falsy (tf_code form) then
    inl (json_error "invalid_request" "code is required" 400, codes)
  else
    match codes !! code with
    | None => inl (json_error "invalid_grant" "Invalid authorization code" 400, codes)
    | Some auth_data =>
        if expired (te_time env) auth_data then
          inl (json_error "invalid_grant" "Authorization code expired" 400,
               delete code codes)
        else if negb (bool_decide (tf_redirect_uri form = Some (ad_redirect_uri auth_data))) then
          inl (json_error "invalid_grant" "redirect_uri mismatch" 400, codes)
        else if falsy (tf_code_verifier form) then
          inl (json_error "invalid_request" "code_verifier is required" 400, codes)
        else if negb (verify_pkce_challenge code_verifier (ad_code_challenge auth_data)) then
          inl (json_error "invalid_grant" "Invalid code_verifier" 400, codes)
        else
          let codes := delete code codes in
          if falsy (tf_client_secret form) || (py_len client_secret <? 10)%nat then
            inl (json_error "invalid_client" "Invalid client_secret (Deapi token)" 401,
                 codes)
          else inr (client_secret, codes)
    end.

(** The [client_credentials] grant (lines 533-553). *)
Definition client_credentials_grant (form : token_form) : response + string :=
  let client_secret := default "" (tf_client_secret form) in
  if falsy (tf_client_secret form) then
    inl (json_error "invalid_client"
           "client_secret is required (your Deapi API token)" 401)
  else if (py_len client_secret <? 10)%nat then
    inl (json_error "invalid_client"
           "client_secret appears invalid (Deapi API token expected)" 401)
  else inr client_secret.

Definition token_endpoint (key : string) (codes : store) (form : token_form)
    (env : token_env) : response * store :=
  let grant_type := tf_grant_type form in
  let client_id := default "" (tf_client_id form) in
  if negb (bool_decide (grant_type ∈ [Some "authorization_code"; Some "client_credentials";
                                      Some "refresh_token"])) then
    (json_error "unsupported_grant_type"
       "Supported grant types: authorization_code, client_credentials, refresh_token" 400,
     codes)
  else if falsy (tf_client_id form) || negb (bool_decide (client_id = DEFAULT_CLIENT_ID)) then
    (json_error "invalid_client" "Invalid client_id. Use 'deapi-mcp'" 401, codes)
  else if bool_decide (grant_type = Some "refresh_token") then
    (refresh_token_grant key env form client_id, codes)
  else if bool_decide (grant_type = Some "authorization_code") then
    match authorization_code_grant codes env form with
    | inl early => early
    | inr (deapi_token, codes) => (token_response key env deapi_token client_id, codes)
    end
  else
    match client_credentials_grant form with
    | inl early => (early, codes)
    | inr deapi_token => (token_response key env deapi_token client_id, codes)
    end.

(** *** The authorization endpoint *)

Record authorize_query := {
  aq_client_id : option string;
  aq_redirect_uri : option string;
  aq_state : option string;
  aq_code_challenge : option string;
  aq_code_challenge_method : option string;
  aq_response_type : option string
}.

(** [time.time()] inside the pruning, the code drawn by
    [secrets.token_urlsafe(32)], and [time.time()] at issuance. *)
Record authorize_env := {
  ae_prune_time : Q;
  ae_auth_code : string;
  ae_issue_time : Q
}.

(** A dict of parameters to which [state] is added when it is not empty. *)
Definition with_state (params : list (string * string)) (state : option string)
    : list (string * string) :=
  if truthy state then params ++ [("state", default "" state)] else params.

Definition error_redirect (redirect_uri error error_description : string)
    (state : option string) : response :=
  RedirectResponse redirect_uri
    (with_state [("error", error); ("error_description", error_description)] state).

Section Authorize.
Variable urlparse : string → option (string * string).

Definition authorize_endpoint (codes : store) (query : authorize_query)
    (env : authorize_env) : response * store :=
  let client_id := default "" (aq_client_id query) in
  let redirect_uri := default "" (aq_redirect_uri query) in
  let state := aq_state query in
  let code_challenge := default "" (aq_code_challenge query) in
  if falsy (aq_client_id query) || negb (bool_decide (client_id = DEFAULT_CLIENT_ID)) then
    if truthy (aq_redirect_uri query) then
      (error_redirect redirect_uri "unauthorized_client" "Invalid client_id" state, codes)
    else (JSONResponse (ErrorBody "unauthorized_client" None) 401, codes)
  else if falsy (aq_redirect_uri query) then
    (json_error "invalid_request" "redirect_uri is required" 400, codes)
  else if negb (_validate_redirect_uri urlparse redirect_uri) then
    (json_error "invalid_request" "redirect_uri must use http or https scheme" 400, codes)
  else if negb (bool_decide (aq_response_type query = Some "code")) then
    (error_redirect redirect_uri "unsupported_response_type"
       "Only 'code' response_type is supported" state, codes)
  else if falsy (aq_code_challenge query)
          || negb (bool_decide (aq_code_challenge_method query = Some "S256")) then
    (error_redirect redirect_uri "invalid_request" "PKCE with S256 is required" state,
     codes)
  else
    let codes := _prune_expired_authorization_codes (ae_prune_time env) codes in
    if bool_decide (AUTHORIZATION_CODE_MAX_ENTRIES ≤ size codes)%nat then
      (error_redirect redirect_uri "server_error"
         "Server is busy, please try again later" state, codes)
    else
      let auth_code := ae_auth_code env in
      let expires_at := (ae_issue_time env + AUTHORIZATION_CODE_EXPIRATION_SECONDS)%Q in
      let codes :=
        <[auth_code := {| ad_client_id := client_id;
                          ad_redirect_uri := redirect_uri;
                          ad_code_challenge := code_challenge;
                          ad_expires_at := expires_at;
                          ad_state := state |}]> codes in
      (RedirectResponse redirect_uri (with_state [("code", auth_code)] state), codes).

End Authorize.

(** *** Observations on requests and responses, used to state properties *)

(** The S256 transform of PKCE, as [verify_pkce_challenge] computes it. *)
Definition s256 (code_verifier : string) : string :=
  Base64.rstrip_eq (Base64.urlsafe_b64encode (Sha256.digest (encode code_verifier))).

Definition is_token_response (r : response) : bool :=
  match r with
  | JSONResponse (TokenBody _ _ _ _) _ => true
  | _ => false
  end.

Definition is_redirect (r : response) : bool :=
  match r with
  | RedirectResponse _ _ => true
  | JSONResponse _ _ => false
  end.

(** The OAuth error code of a response, in its JSON body or in the query
    of its redirect. *)
Definition error_code (r : response) : option string :=
  match r with
  | JSONResponse (ErrorBody e _) _ => Some e
  | JSONResponse (TokenBody _ _ _ _) _ => None
  | RedirectResponse _ params => snd <$> List.find (λ kv, String.eqb kv.1 "error") params
  end.

(** The client secret passes the check of the grant: present and of at
    least 10 characters. *)
Definition accepted_client_secret (o : option string) : bool :=
  truthy o && (10 <=? py_len (default "" o))%nat.

Definition set_client_secret (form : token_form) (client_secret : option string)
    : token_form :=
  {| tf_grant_type := tf_grant_type form;
     tf_client_id := tf_client_id form;
     tf_client_secret := client_secret;
     tf_refresh_token := tf_refresh_token form;
     tf_code := tf_code form;
     tf_code_verifier := tf_code_verifier form;
     tf_redirect_uri := tf_redirect_uri form |}.

(** A request of the [authorization_code] grant from the supported client
    that presents [code]. *)
Definition presents (form : token_form) (code : string) : Prop :=
  tf_grant_type form = Some "authorization_code"
  ∧ tf_client_id form = Some DEFAULT_CLIENT_ID
  ∧ tf_code form = Some code.

(** The client identifier of an authorization request is refused. *)
Definition refused_client (query : authorize_query) : bool :=
  falsy (aq_client_id query)
  || negb (bool_decide (default "" (aq_client_id query) = DEFAULT_CLIENT_ID)).

(** The checks of [authorize_endpoint] that precede the issuance of a code
    all pass. *)
Definition well_formed (urlparse : string → option (string * string))
    (query : authorize_query) : bool :=
  negb (refused_client query)
  && truthy (aq_redirect_uri query)
  && _validate_redirect_uri urlparse (default "" (aq_redirect_uri query))
  && bool_decide (aq_response_type query = Some "code")
  && truthy (aq_code_challenge query)
  && bool_decide (aq_code_challenge_method query = Some "S256").

(** An instance of [urlparse] for URIs written [scheme://netloc/...]: the
    scheme is what precedes the first colon, the network location what
    follows the two slashes up to the next slash, question mark or hash. *)
Fixpoint until_delimiter (s : string) : string :=
  match s with
  | EmptyString => EmptyString
  | String c rest =>
      if (Ascii.eqb c "/" || Ascii.eqb c "?" || Ascii.eqb c "#")%char then EmptyString
      else String c (until_delimiter rest)
  end.

Fixpoint split_scheme (s : string) : option (string * string) :=
  match s with
  | EmptyString => None
  | String c rest =>
      if Ascii.eqb c ":" then Some (EmptyString, rest)
      else match split_scheme rest with
           | Some (scheme, after) => Some (String c scheme, after)
           | None => None
           end
  end.

Definition urlparse_simple (url : string) : option (string * string) :=
  match split_scheme url with
  | Some (scheme, String "/" (String "/" rest)) => Some (lower scheme, until_delimiter rest)
  | Some (scheme, _) => Some (lower scheme, EmptyString)
  | None => Some (EmptyString, EmptyString)
  end.

(** The steps of the [authorization_code] grant that follow the lookup of
    the code, for the record [data] found under [code]. *)
Definition after_lookup (codes : store) (env : token_env) (form : token_form)
    (code : string) (data : auth_data) : response * store + string * store :=
  let code_verifier := default "" (tf_code_verifier form) in
  let client_secret := default "" (tf_client_secret form) in
  if expired (te_time env) data then
    inl (json_error "invalid_grant" "Authorization code expired" 400, delete code codes)
  else if negb (bool_decide (tf_redirect_uri form = Some (ad_redirect_uri data))) then
    inl (json_error "invalid_grant" "redirect_uri mismatch" 400, codes)
  else if falsy (tf_code_verifier form) then
    inl (json_error "invalid_request" "code_verifier is required" 400, codes)
  else if negb (verify_pkce_challenge code_verifier (ad_code_challenge data)) then
    inl (json_error "invalid_grant" "Invalid code_verifier" 400, codes)
  else if negb (accepted_client_secret (tf_client_secret form)) then
    inl (json_error "invalid_client" "Invalid client_secret (Deapi token)" 401,
         delete code codes)
  else inr (client_secret, delete code codes).

(** *** Sample requests, at which the properties are instantiated

    The verifier and challenge are those of RFC 7636, appendix B. *)

Definition sample_secret_key : string := "signing-secret".
Definition sample_code : string := "Zm9vYmFyYmF6cXV4Zm9vYmFyYmF6cXV4Zm9vYmFyYmF".
Definition sample_verifier : string := "dBjftJeZ4CVP-mB92K27uhbUJU1p1r_wW1gFWFOEjXk".
Definition sample_challenge : string := "E9Melhoa2OwvFrEMTJguCHaoeK1t8URWbuGJSstw-cM".
Definition sample_redirect_uri : string := "https://client.example/callback".

Definition sample_query : authorize_query :=
  {| aq_client_id := Some "deapi-mcp";
     aq_redirect_uri := Some sample_redirect_uri;
     aq_state := Some "xyz";
     aq_code_challenge := Some sample_challenge;
     aq_code_challenge_method := Some "S256";
     aq_response_type := Some "code" |}.

Definition sample_authorize_env : authorize_env :=
  {| ae_prune_time := 1000; ae_auth_code := sample_code; ae_issue_time := 1000 |}.

Definition sample_data : auth_data :=
  {| ad_client_id := "deapi-mcp";
     ad_redirect_uri := sample_redirect_uri;
     ad_code_challenge := sample_challenge;
     ad_expires_at := 1000 + 600;
     ad_state := Some "xyz" |}.

(** The store after the sample authorization request. *)
Definition sample_codes : store :=
  (authorize_endpoint urlparse_simple ∅ sample_query sample_authorize_env).2.

Definition sample_form : token_form :=
  {| tf_grant_type := Some "authorization_code";
     tf_client_id := Some "deapi-mcp";
     tf_client_secret := Some "upstream-token-0123456789";
     tf_refresh_token := None;
     tf_code := Some sample_code;
     tf_code_verifier := Some sample_verifier;
     tf_redirect_uri := Some sample_redirect_uri |}.

Definition set_code_verifier (form : token_form) (code_verifier : option string)
    : token_form :=
  {| tf_grant_type := tf_grant_type form;
     tf_client_id := tf_client_id form;
     tf_client_secret := tf_client_secret form;
     tf_refresh_token := tf_refresh_token form;
     tf_code := tf_code form;
     tf_code_verifier := code_verifier;
     tf_redirect_uri := tf_redirect_uri form |}.

Definition sample_token_env : token_env :=
  {| te_time := 1200;
     te_decode_now := 1200;
     te_access := {| me_now := 1200; me_iv := "iv-access" |};
     te_refresh := {| me_now := 1200; me_iv := "iv-refresh" |};
     te_failure := None |}.

(** A client that registered the S256 transform of the empty verifier. *)
Definition empty_verifier_challenge : string :=
  "47DEQpj8HBSa-_TImW-5JCeuQeRkm5NMpJWZG3hSuFU".

Definition empty_verifier_query : authorize_query :=
  {| aq_client_id := Some "deapi-mcp";
     aq_redirect_uri := Some sample_redirect_uri;
     aq_state := Some "xyz";
     aq_code_challenge := Some empty_verifier_challenge;
     aq_code_challenge_method := Some "S256";
     aq_response_type := Some "code" |}.

Definition empty_verifier_codes : store :=
  (authorize_endpoint urlparse_simple ∅ empty_verifier_query sample_authorize_env).2.

(** An authorization request from another client. *)
Definition foreign_query : authorize_query :=
  {| aq_client_id := Some "another-client";
     aq_redirect_uri := Some sample_redirect_uri;
     aq_state := Some "xyz";
     aq_code_challenge := Some sample_challenge;
     aq_code_challenge_method := Some "S256";
     aq_response_type := Some "code" |}.



(** A token signed with the server's key for the refresh audience, without
    the [token_type] marker. *)
Definition unmarked_refresh_token : token_string :=
  Jwt (jwt_encode {| iss := deapi_api_base_url;
                     sub := "deapi-mcp";
                     aud := "deapi-mcp-refresh";
                     exp := 5000;
                     iat := 1000;
                     deapi_token_enc := None;
                     token_type := None |}
         sample_secret_key JWT_ALGORITHM).

(** A store of 1000 live records, under the codes ["000"] to ["999"]. *)
Definition numbered_code (i : nat) : string :=
  String (ascii_of_nat (48 + i / 100))
    (String (ascii_of_nat (48 + (i / 10) mod 10))
       (String (ascii_of_nat (48 + i mod 10)) EmptyString)).

Definition full_codes : store :=
  list_to_map (map (λ i, (numbered_code i, sample_data)) (seq 0 1000)).

End OAuth.

(** * The polling loop, [src/polling_manager.py] *)

Module Polling.
Local Open Scope string_scope.
Local Open Scope Q_scope.
Local Open Scope list_scope.

(** *** Configuration, [src/config.py] *)

Record PollingConfig := {
  initial_delay : Q;
  max_delay : Q;
  timeout : Q;
  backoff_factor : Q
}.

(** The polling fields of [Settings]. *)
Record Settings := {
  polling_audio : PollingConfig;
  polling_image : PollingConfig;
  polling_video : PollingConfig;
  polling_embedding : PollingConfig;
  polling_default : PollingConfig
}.

(** [Settings()] with the defaults of the source; [backoff_factor]
    defaults to 1.5. *)
Definition settings : Settings := {|
  polling_audio :=
    {| initial_delay := 1; max_delay := 5; timeout := 300; backoff_factor := 3 # 2 |};
  polling_image :=
    {| initial_delay := 2; max_delay := 8; timeout := 300; backoff_factor := 3 # 2 |};
  polling_video :=
    {| initial_delay := 5; max_delay := 30; timeout := 900; backoff_factor := 3 # 2 |};
  polling_embedding :=
    {| initial_delay := 1 # 2; max_delay := 3; timeout := 120; backoff_factor := 3 # 2 |};
  polling_default :=
    {| initial_delay := 2; max_delay := 10; timeout := 300; backoff_factor := 3 # 2 |}
|}.

(** [needle in haystack] on strings. *)
Fixpoint contains (needle haystack : string) : bool :=
  String.prefix needle haystack
  || match haystack with
     | EmptyString => false
     | String _ rest => contains needle rest
     end.

(** [job_type.lower()] is [OAuth.lower]: the ASCII letters are folded. *)
Definition get_polling_config (self : Settings) (job_type : string) : PollingConfig :=
  let job_type_lower := OAuth.lower job_type in
  if contains "audio" job_type_lower || contains "speech" job_type_lower then
    polling_audio self
  else if contains "image" job_type_lower || contains "img" job_type_lower then
    polling_image self
  else if contains "video" job_type_lower then polling_video self
  else if contains "embedding" job_type_lower then polling_embedding self
  else polling_default self.

(** *** Job status and results, [src/schemas.py] *)

Inductive JobStatus := PENDING | PROCESSING | DONE | FAILED.

Record JobStatusData := {
  status : JobStatus;
  preview : option string;
  result_url : option string;
  result : option string;
  progress : option Q
}.

(** The texts that the loop formats; [TimedOutText] is
    [f"Job {job_id} timed out after {elapsed:.1f}s (max: {timeout}s)"],
    [JobFailedText] is [f"Job {job_id} failed"], [StatusErrorText] is
    [f"Error checking job {job_id} status: {str(e)}"]. *)
Inductive text :=
| Literal (s : string)
| TimedOutText (job_id : string) (elapsed max : Q)
| JobFailedText (job_id : string)
| StatusErrorText (job_id : string) (e : string).

(** [metadata={"elapsed_time": ..., "attempts": ...}] *)
Record Metadata := {
  elapsed_time : Q;
  attempts : nat
}.

Record ToolResult := {
  success : bool;
  tr_job_id : option string;
  tr_status : option JobStatus;
  tr_result : option string;
  tr_result_url : option string;
  error : option text;
  metadata : option Metadata
}.

(** *** The environment of a polling session

    One call of [client.get_job_status] answers with the job's data or
    raises: a [DeapiAPIError] with its status code and message (an HTTP
    status of 400 or more), or another exception, which the loop does not
    catch; tenacity's [RetryError], which the client's [_request] raises
    after three timeouts or network errors, is of the latter kind. The
    session reads the clock
    once at its start (reading 0) and once at the top of each iteration
    (reading [k] at attempt [k]), and the status check of attempt [k] is
    the [k]-th call. *)

Inductive check_result :=
| Responded (data : JobStatusData)
| RaisedDeapiAPIError (status_code : option Z) (message : string)
| RaisedOther (message : string).

Record environment := {
  clock : nat → Q;
  get_job_status : nat → check_result
}.

(** What the context, when there is one, is sent. *)
Inductive notification :=
| CtxInfoStart
| CtxInfoStatus (s : JobStatus) (elapsed : Q) (attempt : nat)
| CtxInfoDone (elapsed : Q)
| CtxInfoRetry (attempt : nat)
| CtxInfoOperation
| CtxInfoCompleted
| CtxError (msg : text)
| CtxErrorOperation (msg : option text)
| CtxReportProgress (p : Q).

(** The observable events of a session, in order: the reading of the clock
    at the start, the reading at the top of an iteration, a status check
    with its result, a sleep, a message to the context. *)
Inductive event :=
| EvStart (t : Q)
| EvClock (t : Q)
| EvCheck (attempt : nat) (r : check_result)
| EvSleep (delay : Q)
| EvNotify (n : notification).

Inductive exn :=
| PollingTimeoutError (msg : text)
| OtherException (msg : string).

(** How a call ends; [OutOfFuel] is the loop still running when the
    iteration budget of the model is spent. *)
Inductive outcome :=
| Returned (r : ToolResult)
| Raised (e : exn)
| OutOfFuel.

Definition notify (ctx : bool) (n : notification) : list event :=
  if ctx then [EvNotify n] else [].

Definition Qlt_bool (x y : Q) : bool := negb (Qle_bool y x).

Definition option_Q_eqb (a b : option Q) : bool :=
  match a, b with
  | None, None => true
  | Some x, Some y => Qeq_bool x y
  | _, _ => false
  end.

Section PollingManager.
(** [self.config], [job_id], whether a [ctx] was given, and the
    environment. *)
Variable config : PollingConfig.
Variable job_id : string.
Variable ctx : bool.
Variable env : environment.

(** The floats of the source are rationals here: the products are exact,
    as they are in the source on the profiles of [settings], whose delays
    are dyadic numbers of a few digits. *)
Definition _calculate_next_delay (current_delay : Q) (attempt : nat) : Q :=
  let next_delay := current_delay * backoff_factor config in
  Qmin next_delay (max_delay config).

(** The body of [while True], entered with the values that the loop
    variables have before [attempt += 1]. *)
Fixpoint poll_loop (fuel : nat) (start_time : Q) (attempt : nat) (current_delay : Q)
    (last_progress : option Q) : outcome * list event :=
  match fuel with
  | O => (OutOfFuel, [])
  | S fuel =>
      let attempt := S attempt in
      let now := clock env attempt in
      let elapsed := now - start_time in
      if Qlt_bool (timeout config) elapsed then
        let error_msg := TimedOutText job_id elapsed (timeout config) in
        (Raised (PollingTimeoutError error_msg),
         EvClock now :: notify ctx (CtxError error_msg))
      else
        let r := get_job_status env attempt in
        match r with
        | Responded status_data =>
            let current_status := status status_data in
            let changed :=
              match progress status_data with
              | Some p => ctx && negb (option_Q_eqb last_progress (Some p))
              | None => false
              end in
            let report :=
              match progress status_data with
              | Some p => if changed then [EvNotify (CtxReportProgress p)] else []
              | None => []
              end in
            let last_progress :=
              if changed then progress status_data else last_progress in
            let log :=
              if (attempt mod 5 =? 0)%nat
              then notify ctx (CtxInfoStatus current_status elapsed attempt) else [] in
            let seen := EvClock now :: EvCheck attempt r :: report ++ log in
            match current_status with
            | DONE =>
                (Returned {| success := true;
                             tr_job_id := Some job_id;
                             tr_status := Some current_status;
                             tr_result := result status_data;
                             tr_result_url := result_url status_data;
                             error := None;
                             metadata := Some {| elapsed_time := elapsed;
                                                 attempts := attempt |} |},
                 seen ++ notify ctx (CtxInfoDone elapsed))
            | FAILED =>
                let error_msg := JobFailedText job_id in
                (Returned {| success := false;
                             tr_job_id := Some job_id;
                             tr_status := Some current_status;
                             tr_result := None;
                             tr_result_url := None;
                             error := Some error_msg;
                             metadata := Some {| elapsed_time := elapsed;
                                                 attempts := attempt |} |},
                 seen ++ notify ctx (CtxError error_msg))
            | _ =>
                let '(out, rest) :=
                  poll_loop fuel start_time attempt
                    (_calculate_next_delay current_delay attempt) last_progress in
                (out, seen ++ EvSleep current_delay :: rest)
            end
        | RaisedDeapiAPIError status_code e =>
            let error_msg := StatusErrorText job_id e in
            let seen :=
              EvClock now :: EvCheck attempt r :: notify ctx (CtxError error_msg) in
            if bool_decide (status_code = Some 404%Z) then
              (Returned {| success := false;
                           tr_job_id := Some job_id;
                           tr_status := None;
                           tr_result := None;
                           tr_result_url := None;
                           error := Some (Literal "Job not found");
                           metadata := Some {| elapsed_time := elapsed;
                                               attempts := attempt |} |},
               seen)
            else if (attempt <? 3)%nat then
              let '(out, rest) :=
                poll_loop fuel start_time attempt
                  (_calculate_next_delay current_delay attempt) last_progress in
              (out, seen ++ notify ctx (CtxInfoRetry (attempt + 1))
                         ++ EvSleep current_delay :: rest)
            else
              (Returned {| success := false;
                           tr_job_id := Some job_id;
                           tr_status := None;
                           tr_result := None;
                           tr_result_url := None;
                           error := Some (Literal e);
                           metadata := Some {| elapsed_time := elapsed;
                                               attempts := attempt |} |},
               seen)
        | RaisedOther e =>
            (Raised (OtherException e), [EvClock now; EvCheck attempt r])
        end
  end.

Definition poll_until_complete (fuel : nat) : outcome * list event :=
  let start_time := clock env 0 in
  let current_delay := initial_delay config in
  let '(out, rest) := poll_loop fuel start_time 0 current_delay None in
  (out, EvStart start_time :: notify ctx CtxInfoStart ++ rest).

Definition failure (e : text) : ToolResult :=
  {| success := false;
     tr_job_id := Some job_id;
     tr_status := None;
     tr_result := None;
     tr_result_url := None;
     error := Some e;
     metadata := None |}.

Definition poll_with_context (fuel : nat) : outcome * list event :=
  let '(out, trace) := poll_until_complete fuel in
  let trace := notify ctx CtxInfoOperation ++ trace in
  match out with
  | Returned r =>
      (Returned r,
       trace ++ notify ctx (if success r then CtxInfoCompleted
                            else CtxErrorOperation (error r)))
  | Raised (PollingTimeoutError msg) =>
      (Returned (failure msg), trace ++ notify ctx (CtxErrorOperation (Some msg)))
  | Raised (OtherException msg) =>
      (Returned (failure (Literal msg)),
       trace ++ notify ctx (CtxErrorOperation (Some (Literal msg))))
  | OutOfFuel => (OutOfFuel, trace)
  end.
End PollingManager.

(** Projections of a trace. *)
Definition sleeps (trace : list event) : list Q :=
flat_map (λ e, match e with EvSleep d => [d] | _ => [] end) trace.

Definition checks (trace : list event) : list (nat * check_result) :=
flat_map (λ e, match e with EvCheck k r => [(k, r)] | _ => [] end) trace.

End Polling.

Module PollingSpec.
Import Polling.
Local Open Scope Q_scope.

(** *** Observations on sessions, used to state properties *)

(** The job is still pending or processing. *)
Definition non_terminal (r : check_result) : Prop :=
  ∃ data, r = Responded data ∧ (status data = PENDING ∨ status data = PROCESSING).

(** A [DeapiAPIError] other than a 404. *)
Definition retryable (r : check_result) : bool :=
  match r with
  | RaisedDeapiAPIError status_code _ => negb (bool_decide (status_code = Some 404%Z))
  | _ => false
  end.

(** The check of attempt [k] is followed by a sleep and another attempt:
    the job is still running, or the check raised a retryable error and
    [k] is below 3 (the test [attempt < 3] of the loop). *)
Definition goes_on (k : nat) (r : check_result) : Prop :=
  non_terminal r ∨ (retryable r = true ∧ (k < 3)%nat).

(** The reading of the clock at attempt [k] is within the timeout. *)
Definition in_time (config : PollingConfig) (env : environment) (k : nat) : Prop :=
  clock env k - clock env 0 <= timeout config.

(** The backoff schedule of the specification: the delay slept after the
    check of rank [k], counted from 0. *)
Definition schedule (config : PollingConfig) (k : nat) : Q :=
  Qmin (initial_delay config * backoff_factor config ^ Z.of_nat k) (max_delay config).

(** The delays that the loop computes: [n] of them, from [d] on. *)
Fixpoint delays (config : PollingConfig) (n : nat) (d : Q) : list Q :=
  match n with
  | O => []
  | S n => d :: delays config n (Qmin (d * backoff_factor config) (max_delay config))
  end.


Definition is_notification (e : event) : bool :=
  match e with
  | EvNotify _ => true
  | _ => false
  end.

(** The result of a session that succeeded at attempt [k] with [data]. *)
Definition succeeded (job_id : string) (env : environment) (k : nat)
    (data : JobStatusData) : ToolResult :=
  {| success := true;
     tr_job_id := Some job_id;
     tr_status := Some DONE;
     tr_result := result data;
     tr_result_url := result_url data;
     error := None;
     metadata := Some {| elapsed_time := clock env k - clock env 0; attempts := k |} |}.


(** *** Sample sessions, at which the properties are instantiated *)

Definition running : JobStatusData :=
  {| status := PROCESSING;
     preview := None;
     result_url := None;
     result := None;
     progress := Some 50 |}.

Definition finished : JobStatusData :=
  {| status := DONE;
     preview := None;
     result_url := Some "https://results.example/out.mp4"%string;
     result := None;
     progress := Some 100 |}.

(** A clock that advances by [step] seconds from one reading to the next. *)
Definition ticking (step : Q) (k : nat) : Q := step * inject_Z (Z.of_nat k).

(** A job that is processing until it is done at check [n]. *)
Definition done_at (n k : nat) : check_result :=
  if (k <? n)%nat then Responded running else Responded finished.




(** A job that never leaves the processing state. *)
Definition never_done (k : nat) : check_result := Responded running.

(** A clock that jumps to 301 seconds at reading [n], from 10 seconds per
    reading before. *)
Definition jumping_at (n k : nat) : Q :=
  if (k <? n)%nat then 10 * inject_Z (Z.of_nat k) else 301.

End PollingSpec.

(** * The bearer-token provider, [src/fastmcp_auth.py], and the request
    context, [src/auth.py] *)

Module Auth.
Import OAuth.
Local Open Scope string_scope.

(** [s.count(c)] for a single character [c]. *)
Fixpoint count (c : ascii) (s : string) : nat :=
  match s with
  | EmptyString => 0
  | String c' s' => (if Ascii.eqb c' c then 1 else 0) + count c s'
  end.

(** [is_jwt] of [src/oauth_endpoints.py], on the text of a token. *)
Definition is_jwt (token : string) : bool := (count "." token =? 2)%nat.

Record AccessToken := {
  at_client_id : string;
  at_token : string;
  at_scopes : list string
}.

(** [DeapiAuthProvider.verify_token] reads the signing key and the clock of
    [jwt.decode], and sets the context variable [current_deapi_token],
    whose value before the call is [current]: the result is what the
    method returns and the value of the variable after the call. The
    compact serialization of a signed token has three base64url parts, so
    [is_jwt] holds of it. *)
Definition verify_token (key : string) (now : Q) (current : option string)
    (token : option token_string) : option AccessToken * option string :=
  let accept deapi_token :=
    (Some {| at_client_id := "deapi-mcp"; at_token := deapi_token; at_scopes := [] |},
     Some deapi_token) in
  let from_jwt token :=
    match decode_jwt key now token with
    | None => (None, current)
    | Some payload =>
        match deapi_token_enc payload with
        | None => (None, current)
        | Some encrypted_token =>
            match decrypt_token key encrypted_token with
            | None => (None, current)
            | Some deapi_token => accept deapi_token
            end
        end
    end in
  match token with
  | None => (None, current)
  | Some (Jwt t) => from_jwt (Jwt t)
  | Some (NotAJwt raw) => if is_jwt raw then from_jwt (NotAJwt raw) else accept raw
  end.

(** [get_current_token]: [None] stands for the [ValueError] raised when
    no token is available. *)
Definition get_current_token (current : option string) : option string :=
  if falsy current then None else current.

End Auth.

(** *** Observations on the issuer, used to state further properties *)

Module IssuerSpec.
Import OAuth.
Local Open Scope string_scope.

(** The upstream credential that a token request carries: the client
    secret, or under the [refresh_token] grant the plaintext sealed in the
    refresh token that is presented. *)
Definition credential (form : token_form) : option string :=
  if bool_decide (tf_grant_type form = Some "refresh_token") then
    match tf_refresh_token form with
    | Some (Jwt t) => ct_plain <$> deapi_token_enc (jwt_payload t)
    | _ => None
    end
  else tf_client_secret form.

(** The value of the parameter [name] in the dict that the source hands to
    [urlencode] when it builds the URL of a redirect. *)
Definition param (name : string) (r : response) : option string :=
  match r with
  | RedirectResponse _ params => snd <$> List.find (λ kv, String.eqb kv.1 name) params
  | JSONResponse _ _ => None
  end.


(** [s.partition(c)]: what precedes the first [c] in [s], and what follows
    it when there is one. *)
Fixpoint str_partition (c : ascii) (s : string) : string * option string :=
  match s with
  | EmptyString => (EmptyString, None)
  | String c' rest =>
      if Ascii.eqb c' c then (EmptyString, Some rest)
      else let '(before, after) := str_partition c rest in (String c' before, after)
  end.

(** [s.split(c)] *)
Fixpoint str_split (c : ascii) (s : string) : list string :=
  match s with
  | EmptyString => [EmptyString]
  | String c' rest =>
      if Ascii.eqb c' c then EmptyString :: str_split c rest
      else match str_split c rest with
           | first :: others => String c' first :: others
           | [] => [String c' EmptyString]
           end
  end.

Definition hex_value (c : ascii) : option nat :=
  let n := nat_of_ascii c in
  if ((48 <=? n) && (n <=? 57))%nat then Some (n - 48)%nat
  else if ((65 <=? n) && (n <=? 70))%nat then Some (n - 55)%nat
  else if ((97 <=? n) && (n <=? 102))%nat then Some (n - 87)%nat
  else None.

(** [urllib.parse.unquote_plus], to bytes: a plus sign is a space and
    [%XX] the byte of that value. *)
Fixpoint unquote_plus (s : string) : string :=
  match s with
  | EmptyString => EmptyString
  | String c rest =>
      if Ascii.eqb c "+" then String " " (unquote_plus rest)
      else if Ascii.eqb c "%" then
        match rest with
        | String h (String l rest') =>
            match hex_value h, hex_value l with
            | Some a, Some b => String (ascii_of_nat (16 * a + b)) (unquote_plus rest')
            | _, _ => String c (unquote_plus rest)
            end
        | _ => String c (unquote_plus rest)
        end
      else String c (unquote_plus rest)
  end.

(** The parameters that the receiver of a redirect reads in its URL, as
    [parse_qsl(urlsplit(url).query, keep_blank_values=True)] gives them:
    the fragment is what follows the first hash, the query what follows
    the first question mark of the rest; the query is split at each
    ampersand, each part that is not empty at its first equals sign, and
    the names and values are unquoted. *)
Definition query_parameters (url : string) : list (string * string) :=
  let query := default "" (str_partition "?" (str_partition "#" url).1).2 in
  map (λ part, let '(name, value) := str_partition "=" part in
               (unquote_plus name, unquote_plus (default "" value)))
    (List.filter (λ part, negb (String.eqb part "")) (str_split "&" query)).


(** The value of the first parameter [name] of a list. *)
Definition find_parameter (name : string) (params : list (string * string))
    : option string :=
  snd <$> List.find (λ kv, String.eqb kv.1 name) params.


(** An authorization request whose redirect URI has a query of its own. *)
Definition query_in_redirect_uri : authorize_query :=
  {| aq_client_id := Some "deapi-mcp";
     aq_redirect_uri := Some "https://client.example/callback?state=forged";
     aq_state := Some "xyz";
     aq_code_challenge := Some sample_challenge;
     aq_code_challenge_method := Some "S256";
     aq_response_type := Some "code" |}.

Definition set_refresh_token (form : token_form) (refresh_token : option token_string)
    : token_form :=
  {| tf_grant_type := tf_grant_type form;
     tf_client_id := tf_client_id form;
     tf_client_secret := tf_client_secret form;
     tf_refresh_token := refresh_token;
     tf_code := tf_code form;
     tf_code_verifier := tf_code_verifier form;
     tf_redirect_uri := tf_redirect_uri form |}.

(** A request of the [refresh_token] grant from the supported client. *)
Definition sample_refresh_form (refresh_token : option token_string) : token_form :=
  {| tf_grant_type := Some "refresh_token";
     tf_client_id := Some "deapi-mcp";
     tf_client_secret := None;
     tf_refresh_token := refresh_token;
     tf_code := None;
     tf_code_verifier := None;
     tf_redirect_uri := None |}.

(** A request of the [client_credentials] grant from the supported
    client. *)
Definition sample_credentials_form (client_secret : option string) : token_form :=
  {| tf_grant_type := Some "client_credentials";
     tf_client_id := Some "deapi-mcp";
     tf_client_secret := client_secret;
     tf_refresh_token := None;
     tf_code := None;
     tf_code_verifier := None;
     tf_redirect_uri := None |}.

(** The upstream credential of the sample requests. *)
Definition sample_credential : string := "upstream-token-0123456789".

(** The tokens issued on the sample request. *)
Definition sample_access_token : jwt :=
  create_jwt sample_secret_key (te_access sample_token_env) sample_credential "deapi-mcp".

Definition sample_refresh_token : jwt :=
  create_refresh_token sample_secret_key (te_refresh sample_token_env) sample_credential
    "deapi-mcp".

(** A token request made one hour and a half after the sample one. *)
Definition later_token_env : token_env :=
  {| te_time := 6600;
     te_decode_now := 6600;
     te_access := {| me_now := 6600; me_iv := "iv-access-2" |};
     te_refresh := {| me_now := 6600; me_iv := "iv-refresh-2" |};
     te_failure := None |}.

Definition set_redirect_uri (form : token_form) (redirect_uri : option string)
    : token_form :=
  {| tf_grant_type := tf_grant_type form;
     tf_client_id := tf_client_id form;
     tf_client_secret := tf_client_secret form;
     tf_refresh_token := tf_refresh_token form;
     tf_code := tf_code form;
     tf_code_verifier := tf_code_verifier form;
     tf_redirect_uri := redirect_uri |}.

(** A second authorization request, which draws another code. *)
Definition second_code : string := "cXV1eGJhemJhcmZvb3F1dXhiYXpiYXJmb29xdXV4YmF".

Definition second_authorize_env : authorize_env :=
  {| ae_prune_time := 1100; ae_auth_code := second_code; ae_issue_time := 1100 |}.

End IssuerSpec.

(** *** Observations on sessions, used to state further properties *)

Module SessionSpec.
Import Polling PollingSpec.
Local Open Scope Q_scope.

(** The result of a session that learnt at attempt [k] that the job had
    failed. *)
Definition job_failed (job_id : string) (env : environment) (k : nat) : ToolResult :=
  {| success := false;
     tr_job_id := Some job_id;
     tr_status := Some FAILED;
     tr_result := None;
     tr_result_url := None;
     error := Some (JobFailedText job_id);
     metadata := Some {| elapsed_time := clock env k - clock env 0; attempts := k |} |}.

(** The result of a session whose check of attempt [k] was answered 404. *)
Definition job_not_found (job_id : string) (env : environment) (k : nat) : ToolResult :=
  {| success := false;
     tr_job_id := Some job_id;
     tr_status := None;
     tr_result := None;
     tr_result_url := None;
     error := Some (Literal "Job not found");
     metadata := Some {| elapsed_time := clock env k - clock env 0; attempts := k |} |}.

(** A trace without the messages to the context. *)
Definition silent (trace : list event) : list event :=
  List.filter (λ e, negb (is_notification e)) trace.

(** The progress values reported to the context, in order. *)
Definition reports (trace : list event) : list Q :=
  flat_map (λ e, match e with EvNotify (CtxReportProgress p) => [p] | _ => [] end) trace.

(** Each value of the list differs from the one before it, the first from
    [previous]. *)
Fixpoint changing (previous : option Q) (values : list Q) : bool :=
  match values with
  | [] => true
  | p :: rest => negb (option_Q_eqb previous (Some p)) && changing (Some p) rest
  end.

(** The attempts of which the status was logged to the context. *)
Definition status_logs (trace : list event) : list nat :=
  flat_map (λ e, match e with EvNotify (CtxInfoStatus _ _ k) => [k] | _ => [] end) trace.

(** A job whose progress is [p] at every check and which is done at
    check [n]. *)
Definition stalled (p : Q) (n k : nat) : check_result :=
  Responded {| status := if (k <? n)%nat then PROCESSING else DONE;
               preview := None;
               result_url := None;
               result := None;
               progress := Some p |}.

(** The job is processing at the checks before [n]; check [n] meets
    [r]. *)
Definition then_at (n : nat) (r : check_result) (k : nat) : check_result :=
  if (k <? n)%nat then Responded running else r.

Definition failed : JobStatusData :=
  {| status := FAILED;
     preview := None;
     result_url := None;
     result := None;
     progress := None |}.

End SessionSpec.

(** * The upstream client and a tool, [src/deapi_client.py] and
    [src/tools/embedding.py] *)

Module Tools.
Import Polling Auth.
Local Open Scope string_scope.

Record DeapiClient := {
  api_token : string
}.

(** The text of the [ValueError] that [get_current_token] raises. *)
Definition no_token : string :=
  "No deAPI token available. Please authenticate with 'Authorization: Bearer <your-deapi-token>' header.".

(** [get_client]: without an explicit token, the one of the request
    context; [None] stands for the [ValueError] of [get_current_token]. *)
Definition get_client (current : option string) (api_token : option string)
    : option DeapiClient :=
  match api_token with
  | Some api_token => Some {| api_token := api_token |}
  | None =>
      match get_current_token current with
      | Some api_token => Some {| api_token := api_token |}
      | None => None
      end
  end.

(** The headers that [__aenter__] gives to every request of the client. *)
Definition headers (self : DeapiClient) : list (string * string) :=
  [("Authorization", "Bearer " ++ api_token self); ("Accept", "application/json")].


(** How one HTTP request of the client ends: the API answers with the id
    of the job, or with an HTTP status of 400 or more, which [_request]
    turns into a [DeapiAPIError] with its message; or the request fails
    with a [TimeoutException] or [NetworkError] of httpx, or with another
    exception (which a response that is not of the schema also raises). *)
Inductive attempt :=
| Answered (request_id : string)
| AnsweredError (message : string)
| NetworkFailure
| OtherFailure (message : string).

(** How [client.submit_job] ends. *)
Inductive submission :=
| Submitted (request_id : string)
| SubmitRaisedDeapiAPIError (message : string)
| SubmitRaisedOther (message : string).

(** The environment of a tool call: the token of the request context, the
    outcome of the [k]-th POST of the submission (counted from 1) sent with
    given headers, the text of the [RetryError] of tenacity, and the
    environment of the polling session that follows. *)
Record tool_environment := {
  current_deapi_token : option string;
  post : nat → list (string * string) → attempt;
  retry_error : string;
  session : environment
}.

(** The texts of the [error] entry: [result.error],
    [f"API error: {str(e)}"] and [f"Unexpected error: {str(e)}"]. *)
Inductive error_text :=
| ResultError (e : option text)
| ApiError (message : string)
| UnexpectedError (message : text).

(** The dict that a tool returns; [None] is a key that is absent. *)
Record tool_dict := {
  d_success : bool;
  d_result : option (option string);
  d_job_id : option string;
  d_metadata : option (option Metadata);
  d_error : option error_text
}.

(** The observable events of a tool call: an HTTP request that submits the
    job, with the headers sent, and the events of the polling session. *)
Inductive tool_event :=
| EvSubmit (sent_headers : list (string * string))
| EvPoll (e : event).

(** [_request] under its decorator
    [@retry(stop=stop_after_attempt(3), retry=retry_if_exception_type(...))]:
    the request is sent again after a timeout or network error, up to
    [remaining] times in all, after which tenacity raises its [RetryError];
    any other outcome ends the call. [k] is the rank of the next request.
    The waits between the requests are not part of the trace. *)
Fixpoint _request (post : nat → attempt) (sent_headers : list (string * string))
    (retry_error : string) (remaining k : nat) : submission * list tool_event :=
  match remaining with
  | O => (SubmitRaisedOther retry_error, [])
  | S remaining =>
      match post k with
      | Answered request_id => (Submitted request_id, [EvSubmit sent_headers])
      | AnsweredError message =>
          (SubmitRaisedDeapiAPIError message, [EvSubmit sent_headers])
      | OtherFailure message => (SubmitRaisedOther message, [EvSubmit sent_headers])
      | NetworkFailure =>
          let '(r, sent) := _request post sent_headers retry_error remaining (S k) in
          (r, EvSubmit sent_headers :: sent)
      end
  end.

(** [client.submit_job], by how it ends, and the requests that it makes. *)
Definition submit_job (env : tool_environment) (sent_headers : list (string * string))
    : submission :=
  (_request (λ k, post env k sent_headers) sent_headers (retry_error env) 3 1).1.

Definition posts (env : tool_environment) (sent_headers : list (string * string))
    : list tool_event :=
  (_request (λ k, post env k sent_headers) sent_headers (retry_error env) 3 1).2.

Definition failed_with (e : error_text) (job_id : option string) : tool_dict :=
  {| d_success := false;
     d_result := None;
     d_job_id := job_id;
     d_metadata := None;
     d_error := Some e |}.

(** [text_to_embedding]; its first component is [None] when the polling
    loop is still running as the iteration budget of the model is spent. *)
Definition text_to_embedding (env : tool_environment) (fuel : nat)
    : option tool_dict * list tool_event :=
  match get_client (current_deapi_token env) None with
  | None => (Some (failed_with (UnexpectedError (Literal no_token)) None), [])
  | Some client =>
      let sent := posts env (headers client) in
      match submit_job env (headers client) with
      | SubmitRaisedDeapiAPIError message =>
          (Some (failed_with (ApiError message) None), sent)
      | SubmitRaisedOther message =>
          (Some (failed_with (UnexpectedError (Literal message)) None), sent)
      | Submitted job_id =>
          let config := get_polling_config settings "embedding" in
          let '(out, trace) := poll_until_complete config job_id false (session env) fuel in
          let events := (sent ++ map EvPoll trace)%list in
          match out with
          | Returned result =>
              if success result then
                (Some {| d_success := true;
                         d_result := Some (tr_result result);
                         d_job_id := Some job_id;
                         d_metadata := Some (metadata result);
                         d_error := None |},
                 events)
              else (Some (failed_with (ResultError (error result)) (Some job_id)), events)
          | Raised (PollingTimeoutError msg) =>
              (Some (failed_with (UnexpectedError msg) None), events)
          | Raised (OtherException message) =>
              (Some (failed_with (UnexpectedError (Literal message)) None), events)
          | OutOfFuel => (None, events)
          end
      end
  end.

(** The submissions of a trace, by the headers sent. *)
Definition submissions (events : list tool_event) : list (list (string * string)) :=
  flat_map (λ e, match e with EvSubmit h => [h] | EvPoll _ => [] end) events.

(** An API that accepts every submission as the job [job_id]. *)
Definition accepting (job_id : string) (k : nat) (sent_headers : list (string * string))
    : attempt :=
  Answered job_id.

(** An API that is reached at the [n]-th request only. *)
Definition reached_at (n : nat) (job_id : string) (k : nat)
    (sent_headers : list (string * string)) : attempt :=
  if (k <? n)%nat then NetworkFailure else Answered job_id.

(** A tool call with the token [current] in the request context, at an API
    that answers the requests as [post] does. *)
Definition sample_call (current : option string)
    (post : nat → list (string * string) → attempt) (session : environment)
    : tool_environment :=
  {| current_deapi_token := current;
     post := post;
     retry_error := "RetryError[<Future state=finished raised ConnectError>]";
     session := session |}.

End Tools.

(** * Proof tools *)

(** Closed facts are settled by evaluation in the virtual machine. *)
Ltac computed := vm_compute; reflexivity.

Ltac conjuncts tac :=
  repeat lazymatch goal with |- _ ∧ _ => split; [tac|] end; tac.

(** * Properties of the OAuth issuer *)

Module OAuthProperties.
Import OAuth.
Local Open Scope string_scope.
Local Open Scope nat_scope.

(** *** Unfolding the authorization code grant *)

Lemma falsy_Some s : falsy (Some s) = bool_decide (s = "").
Proof. destruct s; reflexivity. Qed.

Lemma falsy_true o : falsy o = true ↔ default "" o = "".
Proof. destruct o as [[|c s]|]; simpl; split; intros H; done. Qed.

Lemma token_endpoint_authorization_code key codes form env :
  tf_grant_type form = Some "authorization_code" →
  tf_client_id form = Some DEFAULT_CLIENT_ID →
  token_endpoint key codes form env =
    match authorization_code_grant codes env form with
    | inl early => early
    | inr (deapi_token, codes') =>
        (token_response key env deapi_token DEFAULT_CLIENT_ID, codes')
    end.
Proof.
  intros Hg Hc. unfold token_endpoint. rewrite Hg, Hc. reflexivity.
Qed.

Lemma accepted_client_secret_spec o :
  negb (accepted_client_secret o) = falsy o || (py_len (default "" o) <? 10)%nat.
Proof.
  unfold accepted_client_secret, falsy.
  rewrite negb_andb. f_equal.
  destruct (Nat.ltb_spec (py_len (default "" o)) 10), (Nat.leb_spec 10 (py_len (default "" o)));
    simpl; try reflexivity; lia.
Qed.

Lemma grant_found codes env form code data :
  tf_code form = Some code → code ≠ "" → codes !! code = Some data →
  authorization_code_grant codes env form = after_lookup codes env form code data.
Proof.
  intros Hc Hne Hl. unfold authorization_code_grant, after_lookup.
  rewrite Hc. simpl default. rewrite falsy_Some, bool_decide_eq_false_2 by done.
  rewrite Hl, accepted_client_secret_spec. reflexivity.
Qed.

Lemma grant_unknown codes env form code :
  tf_code form = Some code → codes !! code = None →
  ∃ e d, authorization_code_grant codes env form = inl (json_error e d 400, codes)
         ∧ (code ≠ "" → e = "invalid_grant" ∧ d = "Invalid authorization code").
Proof.
  intros Hc Hl. unfold authorization_code_grant. rewrite Hc. simpl default.
  destruct (falsy (Some code)) eqn:Hf.
  - eexists _, _. split; [reflexivity|]. intros Hne.
    rewrite falsy_Some in Hf. apply bool_decide_eq_true in Hf. done.
  - rewrite Hl. eexists _, _. split; [reflexivity|done].
Qed.

Lemma verify_pkce_challenge_spec code_verifier code_challenge :
  verify_pkce_challenge code_verifier code_challenge = true
  ↔ s256 code_verifier = code_challenge.
Proof. unfold verify_pkce_challenge, s256. apply bool_decide_eq_true. Qed.

Lemma expired_false now data :
  expired now data = false ↔ (now <= ad_expires_at data)%Q.
Proof.
  unfold expired. rewrite negb_false_iff. apply Qle_bool_iff.
Qed.

(** A second request presenting a consumed code is refused. *)
Lemma consumed_code_refused key codes form env code :
  presents form code → code ≠ "" → codes !! code = None →
  token_endpoint key codes form env =
    (json_error "invalid_grant" "Invalid authorization code" 400, codes).
Proof.
  intros (Hg & Hc & Hcode) Hne Hl.
  rewrite token_endpoint_authorization_code by done.
  destruct (grant_unknown codes env form code Hcode Hl) as (e & d & -> & Hed).
  destruct (Hed Hne) as [-> ->]. reflexivity.
Qed.

(** ** C1 *)

(** C1, as amended. One-time authorization code: when [code] is in the
    store and not expired, a first request of the authorization_code grant
    that presents it with the stored redirect_uri, a verifier that is not
    empty and matches the stored challenge, and a client secret that the
    grant accepts, removes the code from the store; the creation of the
    tokens not failing, it is answered with the token response: status
    200, type Bearer, 3600 seconds, an access token and a refresh token
    that seal the client secret (and with [server_error], status 500, when
    the creation fails). Any second request presenting the same code is
    answered with [invalid_grant]. *)
Theorem one_time_authorization_code key codes form env code data verifier :
  presents form code → code ≠ "" →
  codes !! code = Some data →
  (te_time env <= ad_expires_at data)%Q →
  tf_redirect_uri form = Some (ad_redirect_uri data) →
  tf_code_verifier form = Some verifier → verifier ≠ "" →
  s256 verifier = ad_code_challenge data →
  accepted_client_secret (tf_client_secret form) = true →
  let first := token_endpoint key codes form env in
  let client_secret := default "" (tf_client_secret form) in
  (te_failure env = None →
   first.1 = JSONResponse
               (TokenBody (create_jwt key (te_access env) client_secret DEFAULT_CLIENT_ID)
                  "Bearer" 3600
                  (create_refresh_token key (te_refresh env) client_secret
                     DEFAULT_CLIENT_ID)) 200)
  ∧ (∀ e, te_failure env = Some e →
       first.1 = json_error "server_error" ("Failed to create tokens: " ++ e) 500)
  ∧ first.2 = delete code codes
  ∧ first.2 !! code = None
  ∧ ∀ form' env',
      presents form' code →
      let second := token_endpoint key first.2 form' env' in
      second.1 = json_error "invalid_grant" "Invalid authorization code" 400
      ∧ second.2 = first.2
      ∧ error_code second.1 = Some "invalid_grant"
      ∧ is_token_response second.1 = false.
Proof.
  intros Hp Hne Hl Hexp Hr Hv Hvne Hs Hsec first client_secret.
  assert (Hfirst : first = (token_response key env client_secret DEFAULT_CLIENT_ID,
                            delete code codes)).
  { subst first client_secret. destruct Hp as (Hg & Hc & Hcode).
    rewrite token_endpoint_authorization_code by done.
    rewrite (grant_found codes env form code data) by done.
    unfold after_lookup.
    apply expired_false in Hexp. rewrite Hexp.
    rewrite Hr, bool_decide_eq_true_2 by done. simpl negb.
    rewrite Hv, falsy_Some, bool_decide_eq_false_2 by done. simpl default.
    apply verify_pkce_challenge_spec in Hs. rewrite Hs, Hsec. reflexivity. }
  rewrite Hfirst. cbn [fst snd]. unfold token_response.
  split; [by intros ->|]. split; [by intros e ->|].
  split; [reflexivity|]. split; [apply lookup_delete_eq|].
  intros form' env' Hp'.
  rewrite (consumed_code_refused key _ form' env' code) by (try done; apply lookup_delete_eq).
  done.
Qed.

(** ** C10 *)

(** C10. The code is consumed before the client secret is checked: a
    request whose code, redirect_uri and verifier are all valid but whose
    client secret is absent or shorter than 10 characters is answered
    [invalid_client] with status 401, the code is deleted all the same, and
    the same request repeated with an acceptable client secret is answered
    [invalid_grant]. *)
Theorem code_consumed_before_client_secret_check key codes form env code data verifier :
  presents form code → code ≠ "" →
  codes !! code = Some data →
  (te_time env <= ad_expires_at data)%Q →
  tf_redirect_uri form = Some (ad_redirect_uri data) →
  tf_code_verifier form = Some verifier → verifier ≠ "" →
  s256 verifier = ad_code_challenge data →
  accepted_client_secret (tf_client_secret form) = false →
  let first := token_endpoint key codes form env in
  first.1 = json_error "invalid_client" "Invalid client_secret (Deapi token)" 401
  ∧ first.2 = delete code codes
  ∧ first.2 !! code = None
  ∧ ∀ client_secret env',
      accepted_client_secret client_secret = true →
      let retry := token_endpoint key first.2 (set_client_secret form client_secret) env' in
      retry.1 = json_error "invalid_grant" "Invalid authorization code" 400
      ∧ retry.2 = first.2.
Proof.
  intros Hp Hne Hl Hexp Hr Hv Hvne Hs Hsec first.
  assert (Hfirst : first = (json_error "invalid_client"
                              "Invalid client_secret (Deapi token)" 401,
                            delete code codes)).
  { subst first. destruct Hp as (Hg & Hc & Hcode).
    rewrite token_endpoint_authorization_code by done.
    rewrite (grant_found codes env form code data) by done.
    unfold after_lookup.
    apply expired_false in Hexp. rewrite Hexp.
    rewrite Hr, bool_decide_eq_true_2 by done. simpl negb.
    rewrite Hv, falsy_Some, bool_decide_eq_false_2 by done. simpl default.
    apply verify_pkce_challenge_spec in Hs. rewrite Hs, Hsec. reflexivity. }
  rewrite Hfirst. simpl.
  split; [reflexivity|]. split; [reflexivity|]. split; [apply lookup_delete_eq|].
  intros client_secret env' Hacc.
  rewrite (consumed_code_refused key _ _ env' code);
    [done | exact Hp | done | apply lookup_delete_eq].
Qed.

(** ** C3 *)

(** What the grant does with the verifier, the code being found, live and
    presented with its redirect_uri. *)
Lemma grant_on_verifier codes env form code data :
  tf_code form = Some code → code ≠ "" →
  codes !! code = Some data →
  (te_time env <= ad_expires_at data)%Q →
  tf_redirect_uri form = Some (ad_redirect_uri data) →
  authorization_code_grant codes env form =
    let code_verifier := default "" (tf_code_verifier form) in
    if bool_decide (code_verifier = "") then
      inl (json_error "invalid_request" "code_verifier is required" 400, codes)
    else if negb (bool_decide (s256 code_verifier = ad_code_challenge data)) then
      inl (json_error "invalid_grant" "Invalid code_verifier" 400, codes)
    else if negb (accepted_client_secret (tf_client_secret form)) then
      inl (json_error "invalid_client" "Invalid client_secret (Deapi token)" 401,
           delete code codes)
    else inr (default "" (tf_client_secret form), delete code codes).
Proof.
  intros Hcode Hne Hl Hexp Hr.
  rewrite (grant_found codes env form code data) by done.
  unfold after_lookup.
  apply expired_false in Hexp. rewrite Hexp.
  rewrite Hr, bool_decide_eq_true_2 by done. simpl negb. cbv zeta.
  replace (falsy (tf_code_verifier form))
    with (bool_decide (default "" (tf_code_verifier form) = "")).
  2:{ destruct (tf_code_verifier form) as [[|c s]|]; reflexivity. }
  reflexivity.
Qed.

(** C3, as amended. PKCE binding: the code being found, live and presented
    with its redirect_uri, the request consumes the code exactly when the
    verifier is not empty and its S256 transform, the unpadded base64url of
    its SHA-256, is string-equal to the stored challenge, and it is answered
    with tokens exactly when moreover the client secret is accepted and the
    creation of the tokens does not fail; an empty or missing verifier is refused with [invalid_request] and a
    non-empty one that does not match with [invalid_grant], the code
    staying in the store in both cases. *)
Theorem pkce_binding key codes form env code data :
  presents form code → code ≠ "" →
  codes !! code = Some data →
  (te_time env <= ad_expires_at data)%Q →
  tf_redirect_uri form = Some (ad_redirect_uri data) →
  let code_verifier := default "" (tf_code_verifier form) in
  let matches := code_verifier ≠ "" ∧ s256 code_verifier = ad_code_challenge data in
  let answer := token_endpoint key codes form env in
  (answer.2 !! code = None ↔ matches)
  ∧ (is_token_response answer.1 = true
     ↔ matches ∧ accepted_client_secret (tf_client_secret form) = true
       ∧ te_failure env = None)
  ∧ (code_verifier = "" →
     answer = (json_error "invalid_request" "code_verifier is required" 400, codes))
  ∧ (code_verifier ≠ "" → s256 code_verifier ≠ ad_code_challenge data →
     answer = (json_error "invalid_grant" "Invalid code_verifier" 400, codes)).
Proof.
  intros (Hg & Hc & Hcode) Hne Hl Hexp Hr code_verifier matches answer.
  subst answer matches.
  rewrite token_endpoint_authorization_code by done.
  rewrite (grant_on_verifier codes env form code data) by done.
  cbv zeta. fold code_verifier.
  case_bool_decide as He; [|case_bool_decide as Hm; simpl negb; cbv iota].
  - simpl. rewrite Hl. repeat split; try done; try (intros []; done).
    intros [[] _]; done.
  - unfold token_response.
    destruct (accepted_client_secret (tf_client_secret form)), (te_failure env); simpl;
      rewrite lookup_delete_eq; repeat split; try done;
      try (intros []; done); try (intros (_ & ? & ?); done).
  - simpl. rewrite Hl. repeat split; try done; try (intros []; done).
    intros [[] _]; done.
Qed.

(** ** C4 *)

(** C4, as amended. The code being in the store, a request of the
    authorization_code grant whose verifier is not empty and does not match
    the stored challenge is answered [invalid_grant] with status 400; a
    request whose verifier is missing or empty is answered
    [invalid_request] ("code_verifier is required") when the code is live
    and the redirect_uri is the stored one, and [invalid_grant] when the
    code has expired or the redirect_uri differs. *)
Theorem pkce_failure_error_codes key codes form env code data :
  presents form code → code ≠ "" →
  codes !! code = Some data →
  let code_verifier := default "" (tf_code_verifier form) in
  let live_and_bound :=
    (te_time env <= ad_expires_at data)%Q
    ∧ tf_redirect_uri form = Some (ad_redirect_uri data) in
  let answer := token_endpoint key codes form env in
  (code_verifier ≠ "" → s256 code_verifier ≠ ad_code_challenge data →
   ∃ description, answer.1 = json_error "invalid_grant" description 400)
  ∧ (code_verifier = "" → live_and_bound →
     answer = (json_error "invalid_request" "code_verifier is required" 400, codes))
  ∧ (code_verifier = "" → ¬ live_and_bound →
     ∃ description, answer.1 = json_error "invalid_grant" description 400).
Proof.
  intros (Hg & Hc & Hcode) Hne Hl code_verifier live_and_bound answer.
  subst answer live_and_bound.
  rewrite token_endpoint_authorization_code by done.
  rewrite (grant_found codes env form code data) by done.
  unfold after_lookup. fold code_verifier.
  destruct (expired (te_time env) data) eqn:Hexp.
  { assert (¬ (te_time env <= ad_expires_at data)%Q) as Hnl.
    { intros H. apply expired_false in H. congruence. }
    simpl. repeat split; intros; try (eexists; reflexivity); tauto. }
  apply expired_false in Hexp.
  case_bool_decide as Hr; simpl negb; cbv iota.
  2:{ simpl. repeat split; intros; try (eexists; reflexivity); tauto. }
  destruct (falsy (tf_code_verifier form)) eqn:Hf.
  { apply falsy_true in Hf. fold code_verifier in Hf.
    simpl. repeat split; intros; try done. tauto. }
  assert (code_verifier ≠ "") as Hv.
  { intros H. apply falsy_true in H. congruence. }
  destruct (verify_pkce_challenge code_verifier (ad_code_challenge data)) eqn:Hp.
  { apply verify_pkce_challenge_spec in Hp. repeat split; intros; done. }
  simpl. repeat split; intros; try done. eexists; reflexivity.
Qed.

(** ** C2 *)

Lemma refused_client_false query :
  refused_client query = false → aq_client_id query = Some DEFAULT_CLIENT_ID.
Proof.
  unfold refused_client. destruct (aq_client_id query) as [c|]; [|done].
  simpl default. intros H. apply orb_false_iff in H as [_ H].
  apply negb_false_iff, bool_decide_eq_true in H. by subst.
Qed.

(** C2, as amended. Error channels of the authorization endpoint: a refused
    client_id is answered with a direct JSON error (401) when no
    redirect_uri is given, and with a redirect to the given redirect_uri
    carrying [error], [error_description] and [state] when that
    redirect_uri is a valid one; with an accepted client_id, a missing or
    invalid redirect_uri is answered with a direct JSON error (400), and
    every redirect goes to the redirect_uri of the request, which has
    passed the validation. *)
Theorem authorize_error_channels urlparse codes query env :
  let redirect_uri := default "" (aq_redirect_uri query) in
  let answer := authorize_endpoint urlparse codes query env in
  (refused_client query = true → redirect_uri = "" →
   answer = (JSONResponse (ErrorBody "unauthorized_client" None) 401, codes))
  ∧ (refused_client query = true → redirect_uri ≠ "" →
     _validate_redirect_uri urlparse redirect_uri = true →
     answer = (error_redirect redirect_uri "unauthorized_client" "Invalid client_id"
                 (aq_state query), codes))
  ∧ (refused_client query = false →
     redirect_uri = "" ∨ _validate_redirect_uri urlparse redirect_uri = false →
     ∃ description, answer = (json_error "invalid_request" description 400, codes))
  ∧ (refused_client query = false → is_redirect answer.1 = true →
     _validate_redirect_uri urlparse redirect_uri = true
     ∧ ∃ params, answer.1 = RedirectResponse redirect_uri params
         ∧ (is_Some (error_code answer.1) →
            ∃ e d, params = with_state [("error", e); ("error_description", d)]
                              (aq_state query))).
Proof.
  intros redirect_uri answer. subst answer.
  unfold authorize_endpoint. fold (refused_client query). fold redirect_uri.
  assert (Hfalsy : falsy (aq_redirect_uri query) = bool_decide (redirect_uri = "")).
  { subst redirect_uri. destruct (aq_redirect_uri query) as [[|c s]|]; reflexivity. }
  assert (Htruthy : truthy (aq_redirect_uri query) = negb (bool_decide (redirect_uri = ""))).
  { rewrite <- Hfalsy. unfold falsy. by rewrite negb_involutive. }
  rewrite Hfalsy, Htruthy.
  destruct (refused_client query) eqn:Hrefused.
  { case_bool_decide as He; simpl; repeat split; intros; done. }
  case_bool_decide as He.
  { simpl. repeat split; intros; try done. eexists; reflexivity. }
  destruct (_validate_redirect_uri urlparse redirect_uri) eqn:Hvalid; simpl negb; cbv iota.
  2:{ simpl. repeat split; intros; try done. eexists; reflexivity. }
  repeat split; try done.
  { intros _ [|]; done. }
  clear. unfold error_redirect.
  repeat case_match; simpl; eexists; (split; [reflexivity|]);
    intros Herr; try (eexists _, _; reflexivity).
  exfalso. unfold with_state in Herr. destruct (truthy (aq_state query)); simpl in Herr;
    by destruct Herr.
Qed.

(** ** C5 *)

Lemma jwt_decode_audience token key algorithms audience now payload :
  jwt_decode token key algorithms audience now = Some payload →
  aud payload = audience.
Proof.
  unfold jwt_decode. destruct token as [t|raw]; [|done].
  repeat case_match; try done. intros [= <-].
  match goal with H : negb (bool_decide (aud _ = _)) = false |- _ =>
    apply negb_false_iff, bool_decide_eq_true in H; exact H end.
Qed.

(** C5. Audience isolation: a refresh token created for a credential is
    not accepted as an access token, an access token created for it is not
    accepted as a refresh token, and a token that verifies against the
    refresh audience but whose [token_type] is not ["refresh"] is refused as
    a refresh token too. *)
Theorem audience_isolation key env deapi_token client_id now :
  decode_jwt key now (Jwt (create_refresh_token key env deapi_token client_id)) = None
  ∧ decode_refresh_token key now (Jwt (create_jwt key env deapi_token client_id)) = None
  ∧ ∀ token payload,
      jwt_decode token key [JWT_ALGORITHM] "deapi-mcp-refresh" now = Some payload →
      token_type payload ≠ Some "refresh" →
      decode_refresh_token key now token = None.
Proof.
  split; [|split].
  - destruct (decode_jwt key now (Jwt (create_refresh_token key env deapi_token client_id)))
      as [payload|] eqn:Hd; [|reflexivity].
    unfold decode_jwt in Hd. pose proof (jwt_decode_audience _ _ _ _ _ _ Hd) as Ha.
    unfold jwt_decode in Hd. simpl in Hd.
    repeat case_match; done.
  - unfold decode_refresh_token.
    destruct (jwt_decode (Jwt (create_jwt key env deapi_token client_id)) key
                [JWT_ALGORITHM] "deapi-mcp-refresh" now) as [payload|] eqn:Hd; [|reflexivity].
    pose proof (jwt_decode_audience _ _ _ _ _ _ Hd) as Ha.
    unfold jwt_decode in Hd. simpl in Hd.
    repeat case_match; done.
  - intros token payload Hd Hty. unfold decode_refresh_token. rewrite Hd.
    rewrite bool_decide_eq_false_2 by done. reflexivity.
Qed.

(** ** C6 *)

Lemma prune_lookup now (codes : store) code data :
  _prune_expired_authorization_codes now codes !! code = Some data
  ↔ codes !! code = Some data ∧ (now <= ad_expires_at data)%Q.
Proof.
  unfold _prune_expired_authorization_codes.
  rewrite map_lookup_filter_Some. simpl. by rewrite expired_false.
Qed.


(** The issuance step, reached by the requests that pass all checks. *)
Lemma authorize_well_formed urlparse codes query env :
  well_formed urlparse query = true →
  authorize_endpoint urlparse codes query env =
    let redirect_uri := default "" (aq_redirect_uri query) in
    let pruned := _prune_expired_authorization_codes (ae_prune_time env) codes in
    if bool_decide (AUTHORIZATION_CODE_MAX_ENTRIES ≤ size pruned) then
      (error_redirect redirect_uri "server_error"
         "Server is busy, please try again later" (aq_state query), pruned)
    else
      (RedirectResponse redirect_uri
         (with_state [("code", ae_auth_code env)] (aq_state query)),
       <[ae_auth_code env :=
           {| ad_client_id := default "" (aq_client_id query);
              ad_redirect_uri := redirect_uri;
              ad_code_challenge := default "" (aq_code_challenge query);
              ad_expires_at :=
                (ae_issue_time env + AUTHORIZATION_CODE_EXPIRATION_SECONDS)%Q;
              ad_state := aq_state query |}]> pruned).
Proof.
  unfold well_formed. rewrite !andb_true_iff.
  intros (((((Hc & Hr) & Hv) & Ht) & Hch) & Hm).
  unfold authorize_endpoint. fold (refused_client query).
  apply negb_true_iff in Hc. rewrite Hc.
  unfold falsy. rewrite Hr, Hv, Ht, Hch, Hm. reflexivity.
Qed.

(** The other requests leave the store as it is and issue no code. *)
Lemma authorize_ill_formed urlparse codes query env :
  well_formed urlparse query = false →
  (authorize_endpoint urlparse codes query env).2 = codes
  ∧ is_Some (error_code (authorize_endpoint urlparse codes query env).1).
Proof.
  unfold well_formed, authorize_endpoint. fold (refused_client query).
  unfold falsy, error_redirect, with_state.
  destruct (refused_client query); simpl.
  { intros _. repeat case_match; simpl; split; done. }
  destruct (truthy (aq_redirect_uri query)); simpl; [|intros _; split; done].
  destruct (_validate_redirect_uri urlparse _); simpl; [|intros _; split; done].
  destruct (bool_decide (aq_response_type query = Some "code")); simpl.
  2:{ intros _. repeat case_match; simpl; split; done. }
  destruct (truthy (aq_code_challenge query)); simpl.
  2:{ intros _. repeat case_match; simpl; split; done. }
  destruct (bool_decide (aq_code_challenge_method query = Some "S256")); simpl; [done|].
  intros _. repeat case_match; simpl; split; done.
Qed.





(** ** The properties at the sample requests *)

(** The S256 transform on the example of RFC 7636 (appendix B) and on the
    empty verifier; the first round constant and the first word of the
    initial hash value of SHA-256. *)
Example s256_rfc7636 :
  s256 sample_verifier = sample_challenge
  ∧ s256 "" = empty_verifier_challenge
  ∧ head Sha256.K256 = Some 0x428a2f98%N
  ∧ head Sha256.H0 = Some 0x6a09e667%N.
Proof. conjuncts computed. Qed.

Lemma sample_codes_lookup : sample_codes !! sample_code = Some sample_data.
Proof. computed. Qed.

Lemma Qle_by_computation (x y : Q) : Qle_bool x y = true → (x <= y)%Q.
Proof. apply Qle_bool_iff. Qed.

(** C1, as stated, fails at a verifier that matches: the client that
    registered the S256 transform of the empty verifier presents the empty
    verifier, and is refused while the code stays in the store; it fails
    too at the sample request sent with a client secret of 5 characters,
    which is refused. *)
Lemma matching_verifier_is_not_redeemed :
  let form := set_code_verifier sample_form (Some "") in
  let answer :=
    token_endpoint sample_secret_key empty_verifier_codes form sample_token_env in
  let short :=
    token_endpoint sample_secret_key sample_codes
      (set_client_secret sample_form (Some "short")) sample_token_env in
  presents form sample_code
  ∧ ad_redirect_uri <$> empty_verifier_codes !! sample_code = tf_redirect_uri form
  ∧ expired (te_time sample_token_env) <$> empty_verifier_codes !! sample_code = Some false
  ∧ verify_pkce_challenge ""
      (default "" (ad_code_challenge <$> empty_verifier_codes !! sample_code)) = true
  ∧ error_code answer.1 = Some "invalid_request"
  ∧ is_token_response answer.1 = false
  ∧ answer.2 !! sample_code = empty_verifier_codes !! sample_code
  ∧ is_Some (answer.2 !! sample_code)
  ∧ verify_pkce_challenge sample_verifier
      (default "" (ad_code_challenge <$> sample_codes !! sample_code)) = true
  ∧ error_code short.1 = Some "invalid_client"
  ∧ is_token_response short.1 = false.
Proof.
  cbv zeta. split; [repeat split|].
  assert (empty_verifier_codes !! sample_code
          = Some {| ad_client_id := "deapi-mcp";
                    ad_redirect_uri := sample_redirect_uri;
                    ad_code_challenge := empty_verifier_challenge;
                    ad_expires_at := 1000 + 600;
                    ad_state := Some "xyz" |}) as Hstored by computed.
  rewrite sample_codes_lookup.
  assert ((token_endpoint sample_secret_key empty_verifier_codes
             (set_code_verifier sample_form (Some "")) sample_token_env).2 !! sample_code
          = empty_verifier_codes !! sample_code) as Hkept.
  { rewrite Hstored. computed. }
  rewrite Hkept, Hstored. cbn [fmap option_fmap option_map from_option id ad_redirect_uri
    ad_code_challenge sample_data].
  conjuncts ltac:(first [done | computed | by eexists]).
Qed.

(** C1, as amended, at the sample request: the code issued to the sample
    client is redeemed once, for tokens that seal the client secret. *)
Lemma one_time_authorization_code_witness :
  let first := token_endpoint sample_secret_key sample_codes sample_form sample_token_env in
  first.1 = JSONResponse
              (TokenBody
                 (create_jwt sample_secret_key (te_access sample_token_env)
                    "upstream-token-0123456789" DEFAULT_CLIENT_ID)
                 "Bearer" 3600
                 (create_refresh_token sample_secret_key (te_refresh sample_token_env)
                    "upstream-token-0123456789" DEFAULT_CLIENT_ID)) 200
  ∧ first.2 !! sample_code = None
  ∧ error_code (token_endpoint sample_secret_key first.2 sample_form sample_token_env).1
    = Some "invalid_grant".
Proof.
  destruct (one_time_authorization_code sample_secret_key sample_codes sample_form
              sample_token_env sample_code sample_data sample_verifier)
    as (Hfirst & _ & _ & Hgone & Hsecond).
  - repeat split.
  - discriminate.
  - exact sample_codes_lookup.
  - apply Qle_by_computation. computed.
  - reflexivity.
  - reflexivity.
  - discriminate.
  - computed.
  - computed.
  - split; [exact (Hfirst eq_refl)|]. split; [exact Hgone|].
    apply (Hsecond sample_form sample_token_env). repeat split.
Defined.

(** C10 at the sample request sent with a client secret of 5 characters. *)
Lemma code_consumed_before_client_secret_check_witness :
  let form := set_client_secret sample_form (Some "short") in
  let first := token_endpoint sample_secret_key sample_codes form sample_token_env in
  error_code first.1 = Some "invalid_client"
  ∧ first.2 !! sample_code = None
  ∧ error_code (token_endpoint sample_secret_key first.2 sample_form sample_token_env).1
    = Some "invalid_grant".
Proof.
  destruct (code_consumed_before_client_secret_check sample_secret_key sample_codes
              (set_client_secret sample_form (Some "short"))
              sample_token_env sample_code sample_data sample_verifier)
    as (Hfirst & _ & Hgone & Hretry).
  - repeat split.
  - discriminate.
  - exact sample_codes_lookup.
  - apply Qle_by_computation. computed.
  - reflexivity.
  - reflexivity.
  - discriminate.
  - computed.
  - computed.
  - split; [by rewrite Hfirst|]. split; [exact Hgone|].
    destruct (Hretry (tf_client_secret sample_form) sample_token_env) as [Heq _];
      [computed|].
    change (set_client_secret _ (tf_client_secret sample_form)) with sample_form in Heq.
    by rewrite Heq.
Defined.

(** C3, as stated, fails at the empty verifier: its S256 transform is the
    stored challenge, the code is live and presented with its
    redirect_uri, and still the request is refused and the code kept. *)
Lemma empty_verifier_refused :
  let form := set_code_verifier sample_form (Some "") in
  let answer :=
    token_endpoint sample_secret_key empty_verifier_codes form sample_token_env in
  ad_code_challenge <$> empty_verifier_codes !! sample_code = Some (s256 "")
  ∧ ad_redirect_uri <$> empty_verifier_codes !! sample_code = tf_redirect_uri form
  ∧ expired (te_time sample_token_env) <$> empty_verifier_codes !! sample_code = Some false
  ∧ verify_pkce_challenge "" (s256 "") = true
  ∧ answer.1 = json_error "invalid_request" "code_verifier is required" 400
  ∧ is_token_response answer.1 = false
  ∧ is_Some (answer.2 !! sample_code) .
Proof.
  cbv zeta. conjuncts ltac:(try computed).
  eexists. computed.
Qed.

(** C3, as amended, at the sample request, whose verifier matches. *)
Lemma pkce_binding_witness :
  let answer := token_endpoint sample_secret_key sample_codes sample_form sample_token_env in
  answer.2 !! sample_code = None ∧ is_token_response answer.1 = true.
Proof.
  destruct (pkce_binding sample_secret_key sample_codes sample_form sample_token_env
              sample_code sample_data)
    as (Hconsumed & Htokens & _).
  - repeat split.
  - discriminate.
  - exact sample_codes_lookup.
  - apply Qle_by_computation. computed.
  - reflexivity.
  - split.
    + apply Hconsumed. split; [discriminate|]. computed.
    + apply Htokens. split; [split; [discriminate | computed]|].
      split; [computed | reflexivity].
Defined.

(** C4, as stated, fails when the verifier is missing: the answer is
    [invalid_request]. *)
Lemma missing_verifier_is_invalid_request :
  let form := set_code_verifier sample_form None in
  let answer := token_endpoint sample_secret_key sample_codes form sample_token_env in
  tf_code_verifier form = None
  ∧ answer.1 = json_error "invalid_request" "code_verifier is required" 400
  ∧ error_code answer.1 = Some "invalid_request"
  ∧ error_code answer.1 ≠ Some "invalid_grant".
Proof.
  cbv zeta. conjuncts ltac:(try computed).
  vm_compute. discriminate.
Qed.

(** C4, as amended, at the sample request sent with another verifier and
    with none. *)
Lemma pkce_failure_error_codes_witness :
  let wrong := set_code_verifier sample_form (Some "not-the-verifier") in
  let missing := set_code_verifier sample_form None in
  error_code (token_endpoint sample_secret_key sample_codes wrong sample_token_env).1
    = Some "invalid_grant"
  ∧ error_code (token_endpoint sample_secret_key sample_codes missing sample_token_env).1
    = Some "invalid_request".
Proof.
  split.
  - destruct (pkce_failure_error_codes sample_secret_key sample_codes
                (set_code_verifier sample_form (Some "not-the-verifier"))
                sample_token_env sample_code sample_data)
      as (Hwrong & _).
    + repeat split.
    + discriminate.
    + exact sample_codes_lookup.
    + destruct Hwrong as [description Heq].
      * discriminate.
      * vm_compute. discriminate.
      * by rewrite Heq.
  - destruct (pkce_failure_error_codes sample_secret_key sample_codes
                (set_code_verifier sample_form None)
                sample_token_env sample_code sample_data)
      as (_ & Hmissing & _).
    + repeat split.
    + discriminate.
    + exact sample_codes_lookup.
    + rewrite Hmissing; [reflexivity..|].
      split; [apply Qle_by_computation|]; computed.
Defined.

(** C2, as stated, fails for a refused client_id that comes with a
    redirect_uri: the answer is a redirect, not a JSON error. *)
Lemma refused_client_is_redirected :
  let answer := authorize_endpoint urlparse_simple ∅ foreign_query sample_authorize_env in
  refused_client foreign_query = true
  ∧ answer.1 = RedirectResponse "https://client.example/callback"
                 [("error", "unauthorized_client");
                  ("error_description", "Invalid client_id");
                  ("state", "xyz")]
  ∧ is_redirect answer.1 = true.
Proof. cbv zeta. conjuncts computed. Qed.

(** The redirect for a refused client_id goes to a redirect_uri that was
    never validated. *)
Example refused_client_redirect_is_not_validated :
  let query :=
    {| aq_client_id := Some "another-client";
       aq_redirect_uri := Some "javascript:alert(1)";
       aq_state := None;
       aq_code_challenge := None;
       aq_code_challenge_method := None;
       aq_response_type := None |} in
  _validate_redirect_uri urlparse_simple "javascript:alert(1)" = false
  ∧ (authorize_endpoint urlparse_simple ∅ query sample_authorize_env).1
    = RedirectResponse "javascript:alert(1)"
        [("error", "unauthorized_client"); ("error_description", "Invalid client_id")].
Proof. cbv zeta. conjuncts computed. Qed.

(** C2, as amended, at the request of another client with a valid
    redirect_uri. *)
Lemma authorize_error_channels_witness :
  let answer := authorize_endpoint urlparse_simple ∅ foreign_query sample_authorize_env in
  answer = (error_redirect sample_redirect_uri "unauthorized_client" "Invalid client_id"
              (Some "xyz"), ∅).
Proof.
  destruct (authorize_error_channels urlparse_simple ∅ foreign_query sample_authorize_env)
    as (_ & Hredirect & _).
  apply Hredirect.
  - computed.
  - discriminate.
  - computed.
Defined.

(** C5 at a token of the refresh audience without the marker. *)
Lemma audience_isolation_witness :
  decode_refresh_token sample_secret_key 1200 unmarked_refresh_token = None.
Proof.
  destruct (audience_isolation sample_secret_key (te_access sample_token_env)
              "upstream-token-0123456789" "deapi-mcp" 1200)
    as (_ & _ & Hmarker).
  eapply Hmarker.
  - computed.
  - discriminate.
Defined.

(** Tokens verify under the audience they were created for. *)
Example tokens_verify_under_their_audience :
  let access := create_jwt sample_secret_key (te_access sample_token_env)
                  "upstream-token-0123456789" "deapi-mcp" in
  let refresh := create_refresh_token sample_secret_key (te_refresh sample_token_env)
                   "upstream-token-0123456789" "deapi-mcp" in
  decode_jwt sample_secret_key 1300 (Jwt access) = Some (jwt_payload access)
  ∧ decode_refresh_token sample_secret_key 1300 (Jwt refresh) = Some (jwt_payload refresh)
  ∧ decode_jwt sample_secret_key 4800 (Jwt access) = None
  ∧ decode_jwt "another-key" 1300 (Jwt access) = None.
Proof. cbv zeta. conjuncts computed. Qed.



(** The sample store of 1000 records is full, all of them live. *)
Example full_codes_size :
  size full_codes = 1000
  ∧ size (_prune_expired_authorization_codes 1000 full_codes) = 1000
  ∧ size (_prune_expired_authorization_codes 1601 full_codes) = 0.
Proof. conjuncts computed. Qed.

End OAuthProperties.

(** * Properties of the polling loop *)

Module PollingProperties.
Import Polling PollingSpec.
Local Open Scope Q_scope.

Lemma Qlt_bool_false x y : Qlt_bool x y = false ↔ y <= x.
Proof. unfold Qlt_bool. rewrite negb_false_iff. apply Qle_bool_iff. Qed.

Lemma Qlt_bool_true x y : Qlt_bool x y = true ↔ x < y.
Proof.
  unfold Qlt_bool. rewrite negb_true_iff. split.
  - intros H. apply Qnot_le_lt. intros Hle. apply Qle_bool_iff in Hle. congruence.
  - intros H. destruct (Qle_bool y x) eqn:E; [|reflexivity].
    apply Qle_bool_iff in E. exfalso. exact (Qlt_not_le _ _ H E).
Qed.

(** *** Projections of traces *)

Lemma sleeps_app l1 l2 : sleeps (l1 ++ l2) = sleeps l1 ++ sleeps l2.
Proof. apply flat_map_app. Qed.

Lemma checks_app l1 l2 : checks (l1 ++ l2) = checks l1 ++ checks l2.
Proof. apply flat_map_app. Qed.

Lemma sleeps_notify ctx n : sleeps (notify ctx n) = [].
Proof. by destruct ctx. Qed.

Lemma checks_notify ctx n : checks (notify ctx n) = [].
Proof. by destruct ctx. Qed.

Lemma sleeps_notifications l : forallb is_notification l = true → sleeps l = [].
Proof. induction l as [|[] l IH]; simpl; try done. Qed.

Lemma checks_notifications l : forallb is_notification l = true → checks l = [].
Proof. induction l as [|[] l IH]; simpl; try done. Qed.

Lemma notify_notifications ctx n : forallb is_notification (notify ctx n) = true.
Proof. by destruct ctx. Qed.

Lemma checks_terminal now k r notes :
  forallb is_notification notes = true →
  checks (EvClock now :: EvCheck k r :: notes) = [(k, r)].
Proof.
  intros H. change (checks (EvClock now :: EvCheck k r :: notes)) with ((k, r) :: checks notes).
  by rewrite checks_notifications.
Qed.

Lemma checks_continuing now k r notes d rest :
  forallb is_notification notes = true →
  checks (EvClock now :: EvCheck k r :: notes ++ EvSleep d :: rest) = (k, r) :: checks rest.
Proof.
  intros H.
  change (checks (EvClock now :: EvCheck k r :: notes ++ EvSleep d :: rest))
    with ((k, r) :: checks (notes ++ EvSleep d :: rest)).
  by rewrite checks_app, checks_notifications.
Qed.

Lemma sleeps_terminal now k r notes :
  forallb is_notification notes = true →
  sleeps (EvClock now :: EvCheck k r :: notes) = [].
Proof.
  intros H. change (sleeps (EvClock now :: EvCheck k r :: notes)) with (sleeps notes).
  by rewrite sleeps_notifications.
Qed.

Lemma sleeps_continuing now k r notes d rest :
  forallb is_notification notes = true →
  sleeps (EvClock now :: EvCheck k r :: notes ++ EvSleep d :: rest) = d :: sleeps rest.
Proof.
  intros H.
  change (sleeps (EvClock now :: EvCheck k r :: notes ++ EvSleep d :: rest))
    with (sleeps (notes ++ EvSleep d :: rest)).
  by rewrite sleeps_app, sleeps_notifications.
Qed.

(** *** Cutting a trace at an event *)

Lemma cut_after_prefix (l1 rest pre post : list event) x :
  (∀ y, In y l1 → y ≠ x) →
  l1 ++ rest = pre ++ x :: post →
  ∃ mid, pre = l1 ++ mid ∧ rest = mid ++ x :: post.
Proof.
  revert pre. induction l1 as [|y l1 IH]; intros pre Hnot Heq.
  - by exists pre.
  - destruct pre as [|p pre]; simpl in Heq; injection Heq as -> Heq.
    + exfalso. apply (Hnot x); [by left|done].
    + destruct (IH pre) as (mid & -> & ->); [|done|by exists mid].
      intros z Hz. apply Hnot. by right.
Qed.

Lemma notifications_no_check pre k r post :
  forallb is_notification (pre ++ EvCheck k r :: post) = true → False.
Proof. rewrite forallb_app. simpl. by rewrite andb_false_r. Qed.

Lemma notifications_no_clock pre t post :
  forallb is_notification (pre ++ EvClock t :: post) = true → False.
Proof. rewrite forallb_app. simpl. by rewrite andb_false_r. Qed.

Lemma notification_in notes y :
  forallb is_notification notes = true → In y notes → is_notification y = true.
Proof. intros H. by apply forallb_forall. Qed.

Section Session.
Variable config : PollingConfig.
Variable job_id : string.
Variable ctx : bool.
Variable env : environment.

Abbreviation poll_loop := (poll_loop config job_id ctx env).

(** *** One iteration *)

(** The clock is past the timeout: the session raises without a check. *)
Lemma iteration_timeout fuel start a d lp :
  timeout config < clock env (S a) - start →
  poll_loop (S fuel) start a d lp =
    let msg := TimedOutText job_id (clock env (S a) - start) (timeout config) in
    (Raised (PollingTimeoutError msg),
     EvClock (clock env (S a)) :: notify ctx (CtxError msg)).
Proof.
  intros H. apply Qlt_bool_true in H. simpl. rewrite H. reflexivity.
Qed.

(** The job is still running: the session sleeps and goes on with the
    next delay. *)
Lemma iteration_non_terminal fuel start a d lp :
  clock env (S a) - start <= timeout config →
  non_terminal (get_job_status env (S a)) →
  ∃ notes lp',
    forallb is_notification notes = true
    ∧ poll_loop (S fuel) start a d lp =
        ((poll_loop fuel start (S a) (_calculate_next_delay config d (S a)) lp').1,
         EvClock (clock env (S a)) :: EvCheck (S a) (get_job_status env (S a))
           :: notes ++ EvSleep d
           :: (poll_loop fuel start (S a) (_calculate_next_delay config d (S a)) lp').2).
Proof.
  intros Ht (data & Hr & Hs). apply Qlt_bool_false in Ht.
  cbn [Polling.poll_loop]. rewrite Ht, Hr.
  set (changed := match progress data with Some p => _ | None => false end).
  set (report := match progress data with Some p => _ | None => [] end).
  set (log := if (S a mod 5 =? 0)%nat then _ else _).
  exists (report ++ log), (if changed then progress data else lp).
  split.
  - rewrite forallb_app. apply andb_true_iff. split.
    + subst report. destruct (progress data); [destruct changed|]; reflexivity.
    + subst log. destruct (S a mod 5 =? 0)%nat; [apply notify_notifications|reflexivity].
  - destruct (Polling.poll_loop _ _ _ _ fuel start (S a) _ _) as [out rest] eqn:E.
    destruct Hs as [Hs|Hs]; rewrite Hs; simpl; by rewrite <- app_assoc.
Qed.

(** The job is done: the session returns its success. *)
Lemma iteration_done fuel start a d lp data :
  clock env (S a) - start <= timeout config →
  get_job_status env (S a) = Responded data → status data = DONE →
  ∃ notes,
    forallb is_notification notes = true
    ∧ poll_loop (S fuel) start a d lp =
        (Returned {| success := true;
                     tr_job_id := Some job_id;
                     tr_status := Some DONE;
                     tr_result := result data;
                     tr_result_url := result_url data;
                     error := None;
                     metadata := Some {| elapsed_time := clock env (S a) - start;
                                         attempts := S a |} |},
         EvClock (clock env (S a)) :: EvCheck (S a) (Responded data) :: notes).
Proof.
  intros Ht Hr Hs. apply Qlt_bool_false in Ht.
  cbn [Polling.poll_loop]. rewrite Ht, Hr, Hs.
  set (report := match progress data with Some p => _ | None => [] end).
  set (log := if (S a mod 5 =? 0)%nat then _ else _).
  exists ((report ++ log) ++ notify ctx (CtxInfoDone (clock env (S a) - start))).
  split; [|reflexivity].
  rewrite !forallb_app, !andb_true_iff. repeat split.
  - subst report. destruct (progress data) as [p|]; [|reflexivity].
    by destruct (ctx && _).
  - subst log. destruct (S a mod 5 =? 0)%nat; [apply notify_notifications|reflexivity].
  - apply notify_notifications.
Qed.

(** A retryable error before the third attempt: the session sleeps and
    goes on with the next delay. *)
Lemma iteration_retry fuel start a d lp status_code e :
  clock env (S a) - start <= timeout config →
  get_job_status env (S a) = RaisedDeapiAPIError status_code e →
  status_code ≠ Some 404%Z → (S a < 3)%nat →
  ∃ notes,
    forallb is_notification notes = true
    ∧ poll_loop (S fuel) start a d lp =
        ((poll_loop fuel start (S a) (_calculate_next_delay config d (S a)) lp).1,
         EvClock (clock env (S a)) :: EvCheck (S a) (get_job_status env (S a))
           :: notes ++ EvSleep d
           :: (poll_loop fuel start (S a) (_calculate_next_delay config d (S a)) lp).2).
Proof.
  intros Ht Hr Hc Ha. apply Qlt_bool_false in Ht.
  cbn [Polling.poll_loop]. rewrite Ht, Hr.
  rewrite bool_decide_eq_false_2 by done.
  apply Nat.ltb_lt in Ha. rewrite Ha.
  exists (notify ctx (CtxError (StatusErrorText job_id e))
          ++ notify ctx (CtxInfoRetry (S a + 1))).
  split.
  - rewrite forallb_app, !notify_notifications. reflexivity.
  - destruct (Polling.poll_loop _ _ _ _ fuel start (S a) _ _) as [out rest] eqn:E.
    simpl. by rewrite <- app_assoc.
Qed.

(** A retryable error from the third attempt on: the session gives up. *)
Lemma iteration_give_up fuel start a d lp status_code e :
  clock env (S a) - start <= timeout config →
  get_job_status env (S a) = RaisedDeapiAPIError status_code e →
  status_code ≠ Some 404%Z → (3 ≤ S a)%nat →
  poll_loop (S fuel) start a d lp =
    (Returned {| success := false;
                 tr_job_id := Some job_id;
                 tr_status := None;
                 tr_result := None;
                 tr_result_url := None;
                 error := Some (Literal e);
                 metadata := Some {| elapsed_time := clock env (S a) - start;
                                     attempts := S a |} |},
     EvClock (clock env (S a)) :: EvCheck (S a) (get_job_status env (S a))
       :: notify ctx (CtxError (StatusErrorText job_id e))).
Proof.
  intros Ht Hr Hc Ha. apply Qlt_bool_false in Ht.
  cbn [Polling.poll_loop]. rewrite Ht, Hr.
  rewrite bool_decide_eq_false_2 by done.
  apply Nat.ltb_ge in Ha. rewrite Ha. reflexivity.
Qed.

(** The job has failed: the session returns the failure. *)
Lemma iteration_failed fuel start a d lp data :
  clock env (S a) - start <= timeout config →
  get_job_status env (S a) = Responded data → status data = FAILED →
  ∃ r notes,
    forallb is_notification notes = true
    ∧ (tr_status r = Some FAILED ∧ is_Some (metadata r))
    ∧ poll_loop (S fuel) start a d lp =
        (Returned r, EvClock (clock env (S a)) :: EvCheck (S a) (Responded data) :: notes).
Proof.
  intros Ht Hr Hs. apply Qlt_bool_false in Ht.
  cbn [Polling.poll_loop]. rewrite Ht, Hr, Hs.
  set (report := match progress data with Some p => _ | None => [] end).
  set (log := if (S a mod 5 =? 0)%nat then _ else _).
  eexists _, ((report ++ log) ++ notify ctx (CtxError (JobFailedText job_id))).
  split; [|split; [|reflexivity]]; [|by split].
  rewrite !forallb_app, !andb_true_iff. repeat split.
  - subst report. destruct (progress data) as [p|]; [|reflexivity].
    by destruct (ctx && _).
  - subst log. destruct (S a mod 5 =? 0)%nat; [apply notify_notifications|reflexivity].
  - apply notify_notifications.
Qed.

(** A 404: the session returns that the job was not found. *)
Lemma iteration_not_found fuel start a d lp e :
  clock env (S a) - start <= timeout config →
  get_job_status env (S a) = RaisedDeapiAPIError (Some 404%Z) e →
  ∃ r,
    (error r = Some (Literal "Job not found") ∧ is_Some (metadata r))
    ∧ poll_loop (S fuel) start a d lp =
        (Returned r,
         EvClock (clock env (S a)) :: EvCheck (S a) (get_job_status env (S a))
           :: notify ctx (CtxError (StatusErrorText job_id e))).
Proof.
  intros Ht Hr. apply Qlt_bool_false in Ht.
  cbn [Polling.poll_loop]. rewrite Ht, Hr.
  rewrite bool_decide_eq_true_2 by done. eexists. split; [|reflexivity]. by split.
Qed.

(** Another exception: it leaves the loop as it is. *)
Lemma iteration_other fuel start a d lp e :
  clock env (S a) - start <= timeout config →
  get_job_status env (S a) = RaisedOther e →
  poll_loop (S fuel) start a d lp =
    (Raised (OtherException e),
     [EvClock (clock env (S a)); EvCheck (S a) (get_job_status env (S a))]).
Proof.
  intros Ht Hr. apply Qlt_bool_false in Ht.
  cbn [Polling.poll_loop]. rewrite Ht, Hr. reflexivity.
Qed.


(** Every iteration is of one of three kinds: it finds the clock past the
    timeout and raises; it checks the status and ends the session; it
    checks the status, sleeps for the current delay and goes on. *)
Lemma iteration_cases fuel start a d lp :
  let now := clock env (S a) in
  let r := get_job_status env (S a) in
  let msg := TimedOutText job_id (now - start) (timeout config) in
  (timeout config < now - start
   ∧ poll_loop (S fuel) start a d lp =
       (Raised (PollingTimeoutError msg), EvClock now :: notify ctx (CtxError msg)))
  ∨ (now - start <= timeout config
     ∧ ∃ out notes,
         poll_loop (S fuel) start a d lp = (out, EvClock now :: EvCheck (S a) r :: notes)
         ∧ forallb is_notification notes = true
         ∧ (∀ text, out ≠ Raised (PollingTimeoutError text))
         ∧ (∀ res, out = Returned res → is_Some (metadata res))
         ∧ (retryable r = true → (3 ≤ S a)%nat))
  ∨ (now - start <= timeout config
     ∧ ∃ notes d' lp',
         poll_loop (S fuel) start a d lp =
           ((poll_loop fuel start (S a) d' lp').1,
            EvClock now :: EvCheck (S a) r :: notes ++ EvSleep d
              :: (poll_loop fuel start (S a) d' lp').2)
         ∧ forallb is_notification notes = true
         ∧ (retryable r = true → (S a < 3)%nat)).
Proof.
  intros now r msg.
  destruct (Qlt_le_dec (timeout config) (now - start)) as [Hlate|Hin].
  { left. split; [done|]. by apply iteration_timeout. }
  right. subst now.
  destruct (get_job_status env (S a)) as [data|status_code e|e] eqn:Hr; subst r.
  - destruct (status data) eqn:Hs.
    + right. split; [done|].
      destruct (iteration_non_terminal fuel start a d lp) as (notes & lp' & Hn & Heq);
        [done | exists data; rewrite Hr; auto |].
      rewrite Hr in Heq. eexists notes, _, lp'. split; [exact Heq|]. by split.
    + right. split; [done|].
      destruct (iteration_non_terminal fuel start a d lp) as (notes & lp' & Hn & Heq);
        [done | exists data; rewrite Hr; auto |].
      rewrite Hr in Heq. eexists notes, _, lp'. split; [exact Heq|]. by split.
    + left. split; [done|].
      destruct (iteration_done fuel start a d lp data) as (notes & Hn & Heq); try done.
      eexists _, notes. split; [exact Heq|]. repeat split; try done.
      by intros res [= <-].
    + left. split; [done|].
      destruct (iteration_failed fuel start a d lp data)
        as (res & notes & Hn & [_ Hm] & Heq); try done.
      eexists _, notes. split; [exact Heq|]. repeat split; try done.
      by intros res' [= <-].
  - destruct (decide (status_code = Some 404%Z)) as [->|Hcode].
    + left. split; [done|].
      destruct (iteration_not_found fuel start a d lp e) as (res & [_ Hm] & Heq); try done.
      rewrite Hr in Heq. eexists _, _. split; [exact Heq|].
      split; [apply notify_notifications|]. repeat split; try done.
      by intros res' [= <-].
    + destruct (decide (S a < 3)%nat) as [Ha|Ha].
      * right. split; [done|].
        destruct (iteration_retry fuel start a d lp status_code e) as (notes & Hn & Heq);
          try done.
        rewrite Hr in Heq. eexists notes, _, lp. split; [exact Heq|]. by split.
      * left. split; [done|].
        eexists _, _. split.
        { rewrite <- Hr. apply (iteration_give_up fuel start a d lp status_code e);
            (done || lia). }
        split; [apply notify_notifications|]. split; [done|].
        split; [by intros res [= <-]|]. intros _. lia.
  - left. split; [done|].
    eexists _, []. split.
    { rewrite <- Hr. by apply (iteration_other fuel start a d lp e). }
    by repeat split.
Qed.

(** *** The success path *)

Lemma poll_loop_success n : ∀ fuel start a d lp data,
  (n < fuel)%nat →
  (∀ k, (a < k ≤ a + n)%nat → non_terminal (get_job_status env k)) →
  get_job_status env (S (a + n)) = Responded data → status data = DONE →
  (∀ k, (a < k ≤ S (a + n))%nat → clock env k - start <= timeout config) →
  (poll_loop fuel start a d lp).1 =
    Returned {| success := true;
                tr_job_id := Some job_id;
                tr_status := Some DONE;
                tr_result := result data;
                tr_result_url := result_url data;
                error := None;
                metadata := Some {| elapsed_time := clock env (S (a + n)) - start;
                                    attempts := S (a + n) |} |}
  ∧ checks (poll_loop fuel start a d lp).2
    = map (λ k, (k, get_job_status env k)) (seq (S a) (S n))
  ∧ sleeps (poll_loop fuel start a d lp).2 = delays config n d.
Proof.
  induction n as [|n IH]; intros fuel start a d lp data Hfuel Hrun Hlast Hdone Htime.
  - destruct fuel as [|fuel]; [lia|]. rewrite Nat.add_0_r in *.
    destruct (iteration_done fuel start a d lp data) as (notes & Hnotes & ->);
      [apply Htime; lia | exact Hlast | exact Hdone |].
    cbn [fst snd]. split; [reflexivity|].
    cbn [checks sleeps flat_map app]. fold (checks notes). fold (sleeps notes).
    rewrite checks_notifications, sleeps_notifications by done.
    cbn [map seq delays]. rewrite Hlast. done.
  - destruct fuel as [|fuel]; [lia|].
    destruct (iteration_non_terminal fuel start a d lp) as (notes & lp' & Hnotes & ->).
    { apply Htime. lia. }
    { apply Hrun. lia. }
    cbn [fst snd].
    destruct (IH fuel start (S a) (_calculate_next_delay config d (S a)) lp' data)
      as (Hout & Hchecks & Hsleeps).
    + lia.
    + intros k Hk. apply Hrun. lia.
    + by replace (S (S a + n)) with (S (a + S n)) by lia.
    + done.
    + intros k Hk. apply Htime. lia.
    + split; [|split].
      * rewrite Hout. by replace (S (S a + n)) with (S (a + S n)) by lia.
      * cbn [checks flat_map app]. fold (checks (notes ++ EvSleep d :: (poll_loop fuel start (S a) (_calculate_next_delay config d (S a)) lp').2)).
        rewrite checks_app, checks_notifications by done.
        cbn [checks flat_map app]. fold (checks (poll_loop fuel start (S a) (_calculate_next_delay config d (S a)) lp').2).
        rewrite Hchecks. reflexivity.
      * cbn [sleeps flat_map app]. fold (sleeps (notes ++ EvSleep d :: (poll_loop fuel start (S a) (_calculate_next_delay config d (S a)) lp').2)).
        rewrite sleeps_app, sleeps_notifications by done.
        cbn [sleeps flat_map app]. fold (sleeps (poll_loop fuel start (S a) (_calculate_next_delay config d (S a)) lp').2).
        rewrite Hsleeps. reflexivity.
Qed.

Lemma poll_until_complete_loop fuel :
  poll_until_complete config job_id ctx env fuel =
    ((poll_loop fuel (clock env 0) 0 (initial_delay config) None).1,
     EvStart (clock env 0) :: notify ctx CtxInfoStart
       ++ (poll_loop fuel (clock env 0) 0 (initial_delay config) None).2).
Proof.
  unfold poll_until_complete. by destruct (Polling.poll_loop _ _ _ _ _ _ _ _ _).
Qed.

Lemma checks_session fuel :
  checks (poll_until_complete config job_id ctx env fuel).2
  = checks (poll_loop fuel (clock env 0) 0 (initial_delay config) None).2.
Proof.
  rewrite poll_until_complete_loop. cbn [snd checks flat_map app].
  fold (checks (notify ctx CtxInfoStart
                ++ (poll_loop fuel (clock env 0) 0 (initial_delay config) None).2)).
  by rewrite checks_app, checks_notify.
Qed.

Lemma sleeps_session fuel :
  sleeps (poll_until_complete config job_id ctx env fuel).2
  = sleeps (poll_loop fuel (clock env 0) 0 (initial_delay config) None).2.
Proof.
  rewrite poll_until_complete_loop. cbn [snd sleeps flat_map app].
  fold (sleeps (notify ctx CtxInfoStart
                ++ (poll_loop fuel (clock env 0) 0 (initial_delay config) None).2)).
  by rewrite sleeps_app, sleeps_notify.
Qed.

(** The success path of a session, with the delays as the loop computes
    them. *)
Lemma session_success N fuel data :
  (1 ≤ N)%nat → (N ≤ fuel)%nat →
  (∀ k, (1 ≤ k < N)%nat → non_terminal (get_job_status env k)) →
  get_job_status env N = Responded data → status data = DONE →
  (∀ k, (1 ≤ k ≤ N)%nat → in_time config env k) →
  let run := poll_until_complete config job_id ctx env fuel in
  run.1 = Returned (succeeded job_id env N data)
  ∧ checks run.2 = map (λ k, (k, get_job_status env k)) (seq 1 N)
  ∧ sleeps run.2 = delays config (N - 1) (initial_delay config).
Proof.
  intros HN Hfuel Hrun Hlast Hdone Htime run. subst run.
  rewrite checks_session, sleeps_session, poll_until_complete_loop. cbn [fst].
  destruct N as [|n]; [lia|]. replace (S n - 1)%nat with n by lia.
  destruct (poll_loop_success n fuel (clock env 0) 0 (initial_delay config) None data)
    as (Hout & Hchecks & Hsleeps);
    [lia | intros k Hk; apply Hrun; lia | exact Hlast | exact Hdone
    | intros k Hk; apply Htime; lia |].
  done.
Qed.

(** *** Transient errors *)








(** *** The timeout *)

(** Every status check directly follows a reading of the clock that is
    within the timeout. *)
Lemma loop_checks_guarded fuel : ∀ start a d lp pre k r post,
  (poll_loop fuel start a d lp).2 = pre ++ EvCheck k r :: post →
  ∃ pre' t, pre = pre' ++ [EvClock t] ∧ t - start <= timeout config.
Proof.
  induction fuel as [|fuel IH]; intros start a d lp pre k r post Heq.
  { by destruct pre. }
  destruct (iteration_cases fuel start a d lp)
    as [[_ Hrun]|[(Hin & out & notes & Hrun & Hn & _)
                 |(Hin & notes & d' & lp' & Hrun & Hn & _)]];
    rewrite Hrun in Heq; cbn [snd] in Heq.
  - exfalso. destruct pre as [|p pre]; [done|]. injection Heq as _ Heq.
    eapply (notifications_no_check pre); rewrite <- Heq; apply notify_notifications.
  - destruct pre as [|p pre]; [done|]. injection Heq as <- Heq.
    destruct pre as [|p pre]; [exists [], (clock env (S a)); split; [reflexivity|exact Hin]|].
    exfalso. injection Heq as _ Heq.
    eapply (notifications_no_check pre). by rewrite <- Heq.
  - destruct pre as [|p pre]; [done|]. injection Heq as <- Heq.
    destruct pre as [|p pre]; [exists [], (clock env (S a)); split; [reflexivity|exact Hin]|].
    injection Heq as <- Heq.
    change (notes ++ EvSleep d :: ?l) with (notes ++ [EvSleep d] ++ l) in Heq.
    rewrite app_assoc in Heq.
    apply cut_after_prefix in Heq as (mid & -> & Hrest).
    + destruct (IH _ _ _ _ _ _ _ _ Hrest) as (pre' & t & -> & Ht).
      eexists (_ :: _ :: (notes ++ [EvSleep d]) ++ pre'), t.
      split; [|done]. rewrite (app_assoc (notes ++ [EvSleep d])). reflexivity.
    + intros y Hy ->. apply in_app_or in Hy as [Hy|[Hy|[]]]; [|done].
      by apply (notification_in _ _ Hn) in Hy.
Qed.

(** A reading of the clock past the timeout ends the session: what
    follows it is the notice to the context only, and the loop raises
    the timeout with the elapsed time and the limit. *)
Lemma loop_timeout_final fuel : ∀ start a d lp pre t post,
  (poll_loop fuel start a d lp).2 = pre ++ EvClock t :: post →
  timeout config < t - start →
  let msg := TimedOutText job_id (t - start) (timeout config) in
  (poll_loop fuel start a d lp).1 = Raised (PollingTimeoutError msg)
  ∧ post = notify ctx (CtxError msg).
Proof.
  induction fuel as [|fuel IH]; intros start a d lp pre t post Heq Hlate.
  { by destruct pre. }
  destruct (iteration_cases fuel start a d lp)
    as [[_ Hrun]|[(Hin & out & notes & Hrun & Hn & _)
                 |(Hin & notes & d' & lp' & Hrun & Hn & _)]];
    rewrite Hrun in *; cbn [fst snd] in *.
  - destruct pre as [|p pre]; injection Heq as Hp Heq.
    { subst t post. done. }
    exfalso. eapply (notifications_no_clock pre); rewrite <- Heq; apply notify_notifications.
  - exfalso. destruct pre as [|p pre]; injection Heq as Hp Heq.
    { subst t. by apply (Qlt_not_le _ _ Hlate). }
    destruct pre as [|p' pre]; [done|]. injection Heq as _ Heq.
    eapply (notifications_no_clock pre). by rewrite <- Heq.
  - destruct pre as [|p pre]; injection Heq as Hp Heq.
    { exfalso. subst t. by apply (Qlt_not_le _ _ Hlate). }
    destruct pre as [|p' pre]; [done|]. injection Heq as _ Heq.
    change (notes ++ EvSleep d :: ?l) with (notes ++ [EvSleep d] ++ l) in Heq.
    rewrite app_assoc in Heq.
    apply cut_after_prefix in Heq as (mid & -> & Hrest).
    + by apply (IH _ _ _ _ _ _ _ Hrest).
    + intros y Hy ->. apply in_app_or in Hy as [Hy|[Hy|[]]]; [|done].
      by apply (notification_in _ _ Hn) in Hy.
Qed.

(** Every result that the loop returns carries its metadata. *)
Lemma loop_result_metadata fuel : ∀ start a d lp r,
  (poll_loop fuel start a d lp).1 = Returned r → is_Some (metadata r).
Proof.
  induction fuel as [|fuel IH]; intros start a d lp r; [done|].
  destruct (iteration_cases fuel start a d lp)
    as [[_ ->]|[(_ & out & notes & -> & _ & _ & Hm & _)
               |(_ & notes & d' & lp' & -> & _)]]; cbn [fst].
  - done.
  - apply Hm.
  - apply IH.
Qed.

(** What [poll_with_context] makes of the outcome of the loop. *)
Lemma poll_with_context_outcome fuel :
  (poll_with_context config job_id ctx env fuel).1 =
    match (poll_until_complete config job_id ctx env fuel).1 with
    | Returned r => Returned r
    | Raised (PollingTimeoutError msg) => Returned (failure job_id msg)
    | Raised (OtherException msg) => Returned (failure job_id (Literal msg))
    | OutOfFuel => OutOfFuel
    end.
Proof.
  unfold poll_with_context.
  destruct (poll_until_complete config job_id ctx env fuel) as [[r|[msg|msg]|] trace];
    reflexivity.
Qed.

End Session.

(** *** The backoff schedule in closed form *)

Lemma Qmult_grows (x b : Q) : 0 <= x → 1 <= b → x <= x * b.
Proof. intros. nra. Qed.

Section Schedule.
Variable config : PollingConfig.
Hypothesis initial_below_max : initial_delay config <= max_delay config.
Hypothesis max_not_negative : 0 <= max_delay config.
Hypothesis backoff_grows : 1 <= backoff_factor config.

Lemma schedule_0 : initial_delay config == schedule config 0.
Proof.
  unfold schedule. simpl Z.of_nat. rewrite Qpower_0_r, Qmult_1_r.
  symmetry. by apply Q.min_l.
Qed.

Lemma schedule_S k d :
  d == schedule config k →
  Qmin (d * backoff_factor config) (max_delay config) == schedule config (S k).
Proof.
  intros Hd. unfold schedule in *.
  set (i := initial_delay config) in *. set (b := backoff_factor config) in *.
  set (m := max_delay config) in *.
  assert (Hpow : i * b ^ Z.of_nat (S k) == i * b ^ Z.of_nat k * b).
  { rewrite Nat2Z.inj_succ, <- Z.add_1_r, Qpower_plus' by lia.
    rewrite Qpower_1_r. ring. }
  rewrite Hpow, Hd.
  destruct (Q.min_spec (i * b ^ Z.of_nat k) m) as [[Hlt ->]|[Hle ->]]; [reflexivity|].
  rewrite Q.min_r by (by apply Qmult_grows).
  symmetry. apply Q.min_r.
  apply Qle_trans with (i * b ^ Z.of_nat k); [done|].
  apply Qmult_grows; [|done]. by apply Qle_trans with m.
Qed.

Lemma delays_schedule n : ∀ k d,
  d == schedule config k →
  Forall2 Qeq (delays config n d) (map (schedule config) (seq k n)).
Proof.
  induction n as [|n IH]; intros k d Hd; simpl; constructor; [done|].
  apply IH. by apply schedule_S.
Qed.

End Schedule.

(** The profiles of the source satisfy the three conditions. *)
Lemma default_profiles job_type :
  let config := get_polling_config settings job_type in
  initial_delay config <= max_delay config
  ∧ 0 <= max_delay config
  ∧ 1 <= backoff_factor config.
Proof.
  unfold get_polling_config.
  repeat case_match; cbv zeta; repeat split; apply Qle_bool_iff; reflexivity.
Qed.

Lemma Qle_computed (x y : Q) : Qle_bool x y = true → x <= y.
Proof. apply Qle_bool_iff. Qed.

(** The success path under any profile whose initial delay is at most its
    maximal delay, whose maximal delay is not negative and whose backoff
    factor is at least 1. *)
Lemma success_schedule_of_profile config job_id ctx env N fuel data :
  initial_delay config <= max_delay config →
  0 <= max_delay config →
  1 <= backoff_factor config →
  (1 ≤ N)%nat → (N ≤ fuel)%nat →
  (∀ k, (1 ≤ k < N)%nat → non_terminal (get_job_status env k)) →
  get_job_status env N = Responded data → status data = DONE →
  (∀ k, (1 ≤ k ≤ N)%nat → in_time config env k) →
  let run := poll_until_complete config job_id ctx env fuel in
  run.1 = Returned (succeeded job_id env N data)
  ∧ checks run.2 = map (λ k, (k, get_job_status env k)) (seq 1 N)
  ∧ Forall2 Qeq (sleeps run.2) (map (schedule config) (seq 0 (N - 1))).
Proof.
  intros Hinit Hmax Hgrow HN Hfuel Hrun Hlast Hdone Htime run.
  destruct (session_success config job_id ctx env N fuel data HN Hfuel Hrun Hlast Hdone Htime)
    as (Hout & Hchecks & Hsleeps).
  split; [exact Hout|]. split; [exact Hchecks|].
  subst run. rewrite Hsleeps. apply delays_schedule; try done. by apply schedule_0.
Qed.

(** ** C7 *)

(** C7. Polling success path and backoff schedule: for every N ≥ 1, when
    the status checks of attempts 1 to N-1 find the job pending or
    processing and the check of attempt N finds it done (every one of
    these attempts starting within the timeout), the session returns the
    success result with [attempts] = N after exactly the checks 1 to N, and
    the delay slept after check k is
    min(initial_delay * backoff_factor^(k-1), max_delay) of the profile of
    the job type. *)
Theorem polling_success_schedule job_type job_id ctx env N fuel data :
  let config := get_polling_config settings job_type in
  (1 ≤ N)%nat → (N ≤ fuel)%nat →
  (∀ k, (1 ≤ k < N)%nat → non_terminal (get_job_status env k)) →
  get_job_status env N = Responded data → status data = DONE →
  (∀ k, (1 ≤ k ≤ N)%nat → in_time config env k) →
  let run := poll_until_complete config job_id ctx env fuel in
  (∃ r, run.1 = Returned r
        ∧ success r = true
        ∧ metadata r = Some {| elapsed_time := clock env N - clock env 0;
                               attempts := N |}
        ∧ r = succeeded job_id env N data)
  ∧ checks run.2 = map (λ k, (k, get_job_status env k)) (seq 1 N)
  ∧ length (sleeps run.2) = (N - 1)%nat
  ∧ Forall2 Qeq (sleeps run.2) (map (schedule config) (seq 0 (N - 1))).
Proof.
  intros config HN Hfuel Hrun Hlast Hdone Htime run.
  destruct (default_profiles job_type) as (Hinit & Hmax & Hgrow).
  destruct (success_schedule_of_profile config job_id ctx env N fuel data)
    as (Hout & Hchecks & Hschedule); try done.
  split; [by exists (succeeded job_id env N data)|].
  split; [exact Hchecks|]. split; [|exact Hschedule].
  apply Forall2_length in Hschedule. subst run.
  by rewrite Hschedule, length_map, length_seq.
Qed.

(** ** C8 *)




(** ** C9 *)

(** C9, as amended. Timeout behaviour: every status check directly follows
    a reading of the clock for which the time elapsed since the start of
    the session is within the timeout; a reading for which it exceeds the
    timeout is followed by no status check and no sleep, the loop raises
    the timeout with the elapsed time and the limit, and
    [poll_with_context] turns it into a failure result with that error
    text, no status and no metadata, whereas every result that the loop
    itself returns, upstream job failure included, carries metadata. The
    attempt count is not part of the timeout result. *)
Theorem timeout_behaviour config job_id ctx env fuel :
  let run := poll_until_complete config job_id ctx env fuel in
  let start := clock env 0 in
  (∀ pre k r post,
     run.2 = pre ++ EvCheck k r :: post →
     ∃ pre' t, pre = pre' ++ [EvClock t] ∧ t - start <= timeout config)
  ∧ (∀ pre t post,
       run.2 = pre ++ EvClock t :: post →
       timeout config < t - start →
       let msg := TimedOutText job_id (t - start) (timeout config) in
       checks post = [] ∧ sleeps post = []
       ∧ run.1 = Raised (PollingTimeoutError msg)
       ∧ (poll_with_context config job_id ctx env fuel).1
         = Returned {| success := false;
                       tr_job_id := Some job_id;
                       tr_status := None;
                       tr_result := None;
                       tr_result_url := None;
                       error := Some msg;
                       metadata := None |})
  ∧ (∀ r, run.1 = Returned r → is_Some (metadata r)).
Proof.
  intros run start. subst run start.
  rewrite poll_until_complete_loop. cbn [fst snd].
  split; [|split].
  - intros pre k r post Heq.
    change (EvStart ?s :: ?n ++ ?l) with ((EvStart s :: n) ++ l) in Heq.
    apply cut_after_prefix in Heq as (mid & -> & Hrest).
    + destruct (loop_checks_guarded config job_id ctx env fuel _ _ _ _ _ _ _ _ Hrest) as (pre' & t & -> & Ht).
      exists ((EvStart (clock env 0) :: notify ctx CtxInfoStart) ++ pre'), t.
      split; [by rewrite <- app_assoc|done].
    + intros y [<-|Hy]; [done|]. by destruct ctx; [destruct Hy as [<-|[]]|].
  - intros pre t post Heq Hlate.
    change (EvStart ?s :: ?n ++ ?l) with ((EvStart s :: n) ++ l) in Heq.
    apply cut_after_prefix in Heq as (mid & -> & Hrest).
    + destruct (loop_timeout_final config job_id ctx env fuel _ _ _ _ _ _ _ Hrest Hlate)
        as [Hout ->].
      rewrite checks_notify, sleeps_notify. repeat split; [exact Hout|].
      rewrite poll_with_context_outcome, poll_until_complete_loop. cbn [fst].
      by rewrite Hout.
    + intros y [<-|Hy]; [done|]. by destruct ctx; [destruct Hy as [<-|[]]|].
  - apply loop_result_metadata.
Qed.

(** C9, as stated, fails on the attempt count: two sessions that time out
    after the same elapsed time, one before its first status check and one
    before its second, end in the same result, which has no metadata. *)
Lemma timeout_result_omits_attempts :
  let config := get_polling_config settings "audio" in
  let first :=
    poll_with_context config "job-1" false
      {| clock := jumping_at 1; get_job_status := never_done |} 5 in
  let second :=
    poll_with_context config "job-1" false
      {| clock := jumping_at 2; get_job_status := never_done |} 5 in
  first.1 = second.1
  ∧ first.1 = Returned (failure "job-1" (TimedOutText "job-1" (301 - 0) 300))
  ∧ metadata (failure "job-1" (TimedOutText "job-1" (301 - 0) 300)) = None
  ∧ map fst (checks first.2) = []
  ∧ map fst (checks second.2) = [1%nat].
Proof. cbv zeta. conjuncts computed. Qed.

(** C9, as amended, at a job that never ends: the fourth reading of the
    clock, at 400 seconds, is past the 300 seconds of the audio profile. *)
Lemma timeout_behaviour_witness :
  let env := {| clock := ticking 100; get_job_status := never_done |} in
  let run := poll_until_complete (get_polling_config settings "audio") "job-1" false env 9 in
  map fst (checks run.2) = [1; 2; 3]%nat
  ∧ (poll_with_context (get_polling_config settings "audio") "job-1" false env 9).1
    = Returned (failure "job-1" (TimedOutText "job-1" (ticking 100 4 - ticking 100 0) 300)).
Proof.
  cbv zeta. split; [computed|].
  destruct (timeout_behaviour (get_polling_config settings "audio") "job-1" false
              {| clock := ticking 100; get_job_status := never_done |} 9)
    as (_ & Hlate & _).
  set (run := poll_until_complete _ _ _ _ _) in *.
  destruct (Hlate (firstn 10 run.2) (ticking 100 4) (skipn 11 run.2))
    as (_ & _ & _ & Hresult).
  - computed.
  - computed.
  - exact Hresult.
Defined.



(** C7 at the session of scenario C: a video job done at the fourth check. *)
Lemma polling_success_schedule_witness :
  let run :=
    poll_until_complete (get_polling_config settings "video") "job-1" false
      {| clock := ticking 10; get_job_status := done_at 4 |} 10 in
  run.1 = Returned (succeeded "job-1" {| clock := ticking 10; get_job_status := done_at 4 |}
                      4 finished)
  ∧ Forall2 Qeq (sleeps run.2)
      (map (schedule (get_polling_config settings "video")) [0; 1; 2]%nat).
Proof.
  destruct (polling_success_schedule "video" "job-1" false
              {| clock := ticking 10; get_job_status := done_at 4 |} 4 10 finished)
    as ((r & Hout & _ & _ & ->) & _ & _ & Hsleeps).
  - lia.
  - lia.
  - intros k Hk. assert (k = 1 ∨ k = 2 ∨ k = 3)%nat as [->|[->| ->]] by lia;
      (exists running; split; [reflexivity|by right]).
  - reflexivity.
  - reflexivity.
  - intros k Hk. assert (k = 1 ∨ k = 2 ∨ k = 3 ∨ k = 4)%nat as [->|[->|[->| ->]]] by lia;
      apply Qle_computed; reflexivity.
  - split; [exact Hout|exact Hsleeps].
Defined.

(** The session of scenario C of the specification, evaluated. *)
Example scenario_C :
  let run :=
    poll_until_complete (get_polling_config settings "video") "job-1" false
      {| clock := ticking 10; get_job_status := done_at 4 |} 10 in
  success <$> (match run.1 with Returned r => Some r | _ => None end) = Some true
  ∧ sleeps run.2 = [5; 15 # 2; 45 # 4]
  ∧ map fst (checks run.2) = [1; 2; 3; 4]%nat.
Proof. cbv zeta. conjuncts computed. Qed.

End PollingProperties.

(** * Further properties of the OAuth issuer *)

Module IssuerProperties.
Import OAuth IssuerSpec OAuthProperties.
Local Open Scope string_scope.
Local Open Scope nat_scope.

(** *** Truncation of a time stamp *)

Lemma py_int_floor (x : Q) :
  (0 <= x)%Q → (inject_Z (py_int x) <= x)%Q ∧ (x < inject_Z (py_int x) + 1)%Q.
Proof.
  destruct x as [n d]. unfold py_int, Qle, Qlt. simpl. intros Hn.
  assert (0 ≤ n)%Z as Hn' by lia.
  rewrite Z.quot_div_nonneg by lia.
  pose proof (Z.mul_div_le n (Zpos d) ltac:(lia)).
  pose proof (Z.mul_succ_div_gt n (Zpos d) ltac:(lia)).
  split; lia.
Qed.

Lemma py_int_plus (x : Q) (n : Z) :
  (0 <= x)%Q → (0 ≤ n)%Z → py_int (x + inject_Z n) = (py_int x + n)%Z.
Proof.
  destruct x as [a d]. unfold py_int, Qle. simpl. intros Ha Hn.
  rewrite Pos.mul_1_r, Z.mul_1_r.
  apply Z.quot_add; nia.
Qed.


Lemma Qle_bool_false (x y : Q) : Qle_bool x y = false ↔ (y < x)%Q.
Proof.
  split.
  - intros H. apply Qnot_le_lt. intros Hle. apply Qle_bool_iff in Hle. congruence.
  - intros H. destruct (Qle_bool x y) eqn:E; [|done].
    apply Qle_bool_iff in E. exfalso. eapply Qlt_not_le; eauto.
Qed.

(** The validation of a token signed with [key] for [audience] whose
    time stamps are those of a creation at [t] with a lifetime of [life]
    seconds. *)
Lemma jwt_decode_window key payload audience now (t : Q) (life : Z) :
  (0 <= t)%Q → (0 ≤ life)%Z → (t <= now)%Q →
  aud payload = audience →
  exp payload = py_int (t + inject_Z life) →
  iat payload = py_int t →
  ((now <= t + inject_Z life - 1)%Q →
   jwt_decode (Jwt (jwt_encode payload key JWT_ALGORITHM)) key [JWT_ALGORITHM] audience now
   = Some payload)
  ∧ ((t + inject_Z life <= now)%Q →
     jwt_decode (Jwt (jwt_encode payload key JWT_ALGORITHM)) key [JWT_ALGORITHM] audience now
     = None).
Proof.
  intros Ht Hlife Hnow Haud Hexp Hiat.
  destruct (py_int_floor t Ht) as [Hlo Hhi].
  unfold jwt_decode, jwt_encode. cbn [jwt_alg jwt_payload jwt_key].
  rewrite bool_decide_eq_true_2 by set_solver.
  rewrite (bool_decide_eq_true_2 (key = key)) by done.
  rewrite Hexp, Hiat, py_int_plus by done. cbn [negb].
  assert (inject_Z (py_int t + life) == inject_Z (py_int t) + inject_Z life)%Q as Hsum
    by (rewrite inject_Z_plus; reflexivity).
  split; intros Hw.
  - assert (Qle_bool (inject_Z (py_int t + life)) now = false) as ->.
    { apply Qle_bool_false. rewrite Hsum. lra. }
    assert (Qle_bool (inject_Z (py_int t)) now = true) as ->.
    { apply Qle_bool_iff. lra. }
    cbn [negb]. by rewrite bool_decide_eq_true_2.
  - assert (Qle_bool (inject_Z (py_int t + life)) now = true) as ->; [|done].
    apply Qle_bool_iff. rewrite Hsum. lra.
Qed.

(** ** Lifetime of an access token *)

(** X1. An access token created at a time [t] of the epoch verifies under
    its key during the 3599 seconds that follow, and no longer from 3600
    seconds on. *)
Theorem access_token_lifetime key env deapi_token client_id now :
  (0 <= me_now env)%Q → (me_now env <= now)%Q →
  let token := create_jwt key env deapi_token client_id in
  ((now <= me_now env + 3599)%Q → decode_jwt key now (Jwt token) = Some (jwt_payload token))
  ∧ ((me_now env + 3600 <= now)%Q → decode_jwt key now (Jwt token) = None).
Proof.
  intros Ht Hnow token.
  destruct (jwt_decode_window key (jwt_payload token) "deapi-mcp-api" now (me_now env)
              JWT_EXPIRATION_SECONDS) as [Hin Hout]; try done.
  unfold JWT_EXPIRATION_SECONDS in *.
  split; intros Hw; [apply Hin | apply Hout]; unfold inject_Z; lra.
Qed.

(** ** Lifetime of a refresh token *)

(** X2. A refresh token verifies as such during the 30 days less one second
    that follow its creation, and no longer from 30 days on. *)
Theorem refresh_token_lifetime key env deapi_token client_id now :
  (0 <= me_now env)%Q → (me_now env <= now)%Q →
  let token := create_refresh_token key env deapi_token client_id in
  ((now <= me_now env + 2591999)%Q →
   decode_refresh_token key now (Jwt token) = Some (jwt_payload token))
  ∧ ((me_now env + 2592000 <= now)%Q → decode_refresh_token key now (Jwt token) = None).
Proof.
  intros Ht Hnow token.
  destruct (jwt_decode_window key (jwt_payload token) "deapi-mcp-refresh" now (me_now env)
              REFRESH_TOKEN_EXPIRATION_SECONDS) as [Hin Hout]; try done.
  unfold REFRESH_TOKEN_EXPIRATION_SECONDS in *. unfold decode_refresh_token.
  split; intros Hw.
  - change (Jwt token) with (Jwt (jwt_encode (jwt_payload token) key JWT_ALGORITHM)).
    rewrite Hin; [done | unfold inject_Z; lra].
  - change (Jwt token) with (Jwt (jwt_encode (jwt_payload token) key JWT_ALGORITHM)).
    rewrite Hout; [done | unfold inject_Z; lra].
Qed.


(** *** Unfolding the token endpoint by grant *)

Lemma token_endpoint_refresh key codes form env :
  tf_grant_type form = Some "refresh_token" →
  tf_client_id form = Some DEFAULT_CLIENT_ID →
  token_endpoint key codes form env =
    (refresh_token_grant key env form DEFAULT_CLIENT_ID, codes).
Proof. intros Hg Hc. unfold token_endpoint. rewrite Hg, Hc. reflexivity. Qed.

Lemma token_endpoint_client_credentials key codes form env :
  tf_grant_type form = Some "client_credentials" →
  tf_client_id form = Some DEFAULT_CLIENT_ID →
  token_endpoint key codes form env =
    match client_credentials_grant form with
    | inl early => (early, codes)
    | inr deapi_token => (token_response key env deapi_token DEFAULT_CLIENT_ID, codes)
    end.
Proof. intros Hg Hc. unfold token_endpoint. rewrite Hg, Hc. reflexivity. Qed.

Lemma token_endpoint_code key codes form env :
  tf_grant_type form = Some "authorization_code" →
  tf_client_id form = Some DEFAULT_CLIENT_ID →
  token_endpoint key codes form env =
    match authorization_code_grant codes env form with
    | inl early => early
    | inr (deapi_token, codes') =>
        (token_response key env deapi_token DEFAULT_CLIENT_ID, codes')
    end.
Proof. intros Hg Hc. unfold token_endpoint. rewrite Hg, Hc. reflexivity. Qed.

(** The requests that pass the two checks shared by all grants. *)
Lemma token_endpoint_gate key codes form env :
  (token_endpoint key codes form env).2 = codes
    ∧ is_token_response (token_endpoint key codes form env).1 = false
  ∨ tf_client_id form = Some DEFAULT_CLIENT_ID
    ∧ (tf_grant_type form = Some "authorization_code"
       ∨ tf_grant_type form = Some "client_credentials"
       ∨ tf_grant_type form = Some "refresh_token").
Proof.
  unfold token_endpoint.
  case_bool_decide as Hg; cbn [negb]; [|by left].
  destruct (tf_client_id form) as [[|c cid]|] eqn:Hc; cbn [falsy truthy negb orb default];
    [by left | | by left].
  case_bool_decide as Hcid; cbn [negb]; [|by left].
  right. split; [by f_equal|].
  rewrite !elem_of_cons in Hg. rewrite elem_of_nil in Hg. tauto.
Qed.

Lemma client_secret_accepted o :
  accepted_client_secret o = true →
  falsy o = false ∧ (py_len (default "" o) <? 10) = false ∧ 10 ≤ py_len (default "" o).
Proof.
  unfold accepted_client_secret, falsy. intros [-> H]%andb_true_iff.
  apply Nat.leb_le in H. split; [done|]. split; [|done]. by apply Nat.ltb_ge.
Qed.

(** What the [authorization_code] grant hands over is the accepted client
    secret; its early responses are errors. *)
Lemma authorization_code_grant_result codes env form :
  match authorization_code_grant codes env form with
  | inl (r, _) => is_token_response r = false
  | inr (s, _) =>
      tf_client_secret form = Some s ∧ accepted_client_secret (tf_client_secret form) = true
  end.
Proof.
  unfold authorization_code_grant.
  repeat (case_match; try done); simplify_eq; try done.
  match goal with H : _ || _ = false |- _ => apply orb_false_iff in H as [Hf Hl] end.
  destruct (tf_client_secret form) as [[|c s]|]; try done.
  split; [done|]. unfold accepted_client_secret. cbn [truthy andb from_option id] in *.
  apply Nat.ltb_ge in Hl. by apply Nat.leb_le.
Qed.

Lemma client_credentials_grant_result form :
  match client_credentials_grant form with
  | inl r => is_token_response r = false ∧ error_code r = Some "invalid_client"
             ∧ accepted_client_secret (tf_client_secret form) = false
  | inr s =>
      tf_client_secret form = Some s ∧ accepted_client_secret (tf_client_secret form) = true
  end.
Proof.
  unfold client_credentials_grant, accepted_client_secret, falsy.
  destruct (tf_client_secret form) as [[|c s]|]; cbn [truthy negb andb from_option id]; try done.
  destruct (py_len (String c s) <? 10) eqn:Hl.
  - repeat split; try done. apply Nat.ltb_lt in Hl. apply Nat.leb_gt. lia.
  - split; [done|]. apply Nat.ltb_ge in Hl. by apply Nat.leb_le.
Qed.

Lemma refresh_token_grant_result key env form client_id :
  tf_grant_type form = Some "refresh_token" →
  let r := refresh_token_grant key env form client_id in
  is_token_response r = false
    ∧ (error_code r = Some "invalid_request" ∨ error_code r = Some "invalid_grant")
  ∨ ∃ s, credential form = Some s ∧ r = token_response key env s client_id.
Proof.
  intros Hg r. subst r. unfold refresh_token_grant.
  destruct (token_falsy (tf_refresh_token form)) eqn:Hf; [left; split; [done | by left]|].
  destruct (decode_refresh_token _ _ _) as [payload|] eqn:Hd;
    [|left; split; [done | by right]].
  destruct (deapi_token_enc payload) as [ct|] eqn:Hct; [|left; split; [done | by right]].
  destruct (decrypt_token key ct) as [s|] eqn:Hs; [|left; split; [done | by right]].
  right. exists s. split; [|done].
  unfold credential. rewrite Hg, bool_decide_eq_true_2 by done.
  unfold decode_refresh_token, jwt_decode in Hd.
  destruct (tf_refresh_token form) as [[t|raw]|]; cbn [from_option id] in Hd; try done.
  repeat (case_match; try done). simplify_eq.
  unfold decrypt_token in Hs. case_match; [|done]. simplify_eq.
  by rewrite Hct.
Qed.

(** ** What a token response holds *)

Lemma token_response_tokens key env s client_id access type expires refresh status :
  token_response key env s client_id
  = JSONResponse (TokenBody access type expires refresh) status →
  te_failure env = None
  ∧ access = create_jwt key (te_access env) s client_id
  ∧ refresh = create_refresh_token key (te_refresh env) s client_id
  ∧ type = "Bearer" ∧ expires = 3600%Z ∧ status = 200%Z.
Proof.
  unfold token_response. destruct (te_failure env); [done|].
  intros Heq. by simplify_eq.
Qed.

Lemma token_response_created key env s client_id :
  te_failure env = None →
  token_response key env s client_id
  = JSONResponse
      (TokenBody (create_jwt key (te_access env) s client_id) "Bearer" 3600
         (create_refresh_token key (te_refresh env) s client_id)) 200.
Proof. unfold token_response. by intros ->. Qed.

Lemma token_response_failed key env s client_id e :
  te_failure env = Some e →
  token_response key env s client_id
  = json_error "server_error" ("Failed to create tokens: " ++ e) 500.
Proof. unfold token_response. by intros ->. Qed.

(** X3. Tokens are issued only under a supported grant and to the supported
    client; the access token and the refresh token of a response seal the
    credential that the request carries, and the response announces a bearer
    token of 3600 seconds. *)
Theorem issued_tokens key codes form env access type expires refresh status codes' :
  token_endpoint key codes form env
  = (JSONResponse (TokenBody access type expires refresh) status, codes') →
  tf_client_id form = Some DEFAULT_CLIENT_ID
  ∧ tf_grant_type form
    ∈ [Some "authorization_code"; Some "client_credentials"; Some "refresh_token"]
  ∧ (∃ s, credential form = Some s
       ∧ access = create_jwt key (te_access env) s DEFAULT_CLIENT_ID
       ∧ refresh = create_refresh_token key (te_refresh env) s DEFAULT_CLIENT_ID
       ∧ (tf_grant_type form ≠ Some "refresh_token" → 10 ≤ py_len s))
  ∧ type = "Bearer" ∧ expires = 3600%Z ∧ status = 200%Z.
Proof.
  intros Heq.
  destruct (token_endpoint_gate key codes form env) as [[_ Hno]|[Hc Hg]].
  { rewrite Heq in Hno. done. }
  split; [done|]. split.
  { rewrite !elem_of_cons. tauto. }
  destruct Hg as [Hg|[Hg|Hg]].
  - rewrite token_endpoint_code in Heq by done.
    pose proof (authorization_code_grant_result codes env form) as Hr.
    destruct (authorization_code_grant codes env form) as [[r c]|[s c]].
    + by simplify_eq.
    + destruct Hr as [Hs Hacc]. injection Heq as Hresp _.
      apply token_response_tokens in Hresp as (_ & -> & -> & Hrest).
      split; [|done]. exists s. unfold credential. rewrite Hg.
      rewrite bool_decide_eq_false_2 by done. repeat split; try done.
      intros _. apply client_secret_accepted in Hacc as (_ & _ & Hlen).
      by rewrite Hs in Hlen.
  - rewrite token_endpoint_client_credentials in Heq by done.
    pose proof (client_credentials_grant_result form) as Hr.
    destruct (client_credentials_grant form) as [r|s].
    + destruct Hr as [Hr _]. by simplify_eq.
    + destruct Hr as [Hs Hacc]. injection Heq as Hresp _.
      apply token_response_tokens in Hresp as (_ & -> & -> & Hrest).
      split; [|done]. exists s. unfold credential. rewrite Hg.
      rewrite bool_decide_eq_false_2 by done. repeat split; try done.
      intros _. apply client_secret_accepted in Hacc as (_ & _ & Hlen).
      by rewrite Hs in Hlen.
  - rewrite token_endpoint_refresh in Heq by done.
    destruct (refresh_token_grant_result key env form DEFAULT_CLIENT_ID Hg)
      as [[Hno _]|(s & Hs & Hr)].
    + injection Heq as Hresp _. cbv zeta in Hno. rewrite Hresp in Hno. done.
    + injection Heq as Hresp _. cbv zeta in Hr. rewrite Hr in Hresp.
      apply token_response_tokens in Hresp as (_ & -> & -> & Hrest).
      split; [|done]. by exists s.
Qed.


(** ** The refresh_token grant *)

(** X4. A refresh token of the server, presented within its lifetime, is
    exchanged for a new pair of tokens that seal the same credential,
    provided that the creation of the tokens does not fail; when it fails,
    the answer is [server_error] with status 500. The store of
    authorization codes is not touched. *)
Theorem refresh_grant_rotates key codes form env minted deapi_token client_id :
  tf_grant_type form = Some "refresh_token" →
  tf_client_id form = Some DEFAULT_CLIENT_ID →
  tf_refresh_token form = Some (Jwt (create_refresh_token key minted deapi_token client_id)) →
  (0 <= me_now minted)%Q →
  (me_now minted <= te_decode_now env)%Q →
  (te_decode_now env <= me_now minted + 2591999)%Q →
  let answer := token_endpoint key codes form env in
  answer.2 = codes
  ∧ (te_failure env = None →
     answer.1 = JSONResponse
                  (TokenBody (create_jwt key (te_access env) deapi_token DEFAULT_CLIENT_ID)
                     "Bearer" 3600
                     (create_refresh_token key (te_refresh env) deapi_token
                        DEFAULT_CLIENT_ID)) 200)
  ∧ (∀ e, te_failure env = Some e →
       answer.1 = json_error "server_error" ("Failed to create tokens: " ++ e) 500).
Proof.
  intros Hg Hc Ht H0 Hlo Hhi answer.
  assert (answer = (token_response key env deapi_token DEFAULT_CLIENT_ID, codes)) as ->.
  { subst answer. rewrite token_endpoint_refresh by done. f_equal.
    unfold refresh_token_grant. rewrite Ht. cbn [token_falsy from_option id].
    destruct (jwt_decode_window key
                (jwt_payload (create_refresh_token key minted deapi_token client_id))
                "deapi-mcp-refresh" (te_decode_now env) (me_now minted)
                REFRESH_TOKEN_EXPIRATION_SECONDS) as [Hin _]; try done.
    unfold decode_refresh_token.
    change (Jwt (create_refresh_token key minted deapi_token client_id))
      with (Jwt (jwt_encode
                   (jwt_payload (create_refresh_token key minted deapi_token client_id))
                   key JWT_ALGORITHM)).
    rewrite Hin by (unfold REFRESH_TOKEN_EXPIRATION_SECONDS, inject_Z; lra).
    cbn [create_refresh_token jwt_encode jwt_payload token_type deapi_token_enc negb].
    case_bool_decide; [cbn [negb deapi_token_enc]|done].
    unfold decrypt_token, encrypt_token. cbn [ct_key ct_plain].
    case_bool_decide; [reflexivity|done]. }
  cbn [fst snd]. split; [done|]. split.
  - apply token_response_created.
  - intros e. apply token_response_failed.
Qed.

(** X5. The [refresh_token] grant leaves the store as it is; a missing token
    is an invalid request, and an access token, a refresh token signed with
    another key and a refresh token of 30 days or more are refused as
    invalid grants. *)
Theorem refresh_grant_refusals key codes form env :
  tf_grant_type form = Some "refresh_token" →
  tf_client_id form = Some DEFAULT_CLIENT_ID →
  let answer := token_endpoint key codes form env in
  let refused := json_error "invalid_grant" "Invalid or expired refresh token" 400 in
  answer.2 = codes
  ∧ (token_falsy (tf_refresh_token form) = true →
     answer.1 = json_error "invalid_request" "refresh_token is required" 400)
  ∧ (∀ key' minted s c,
       tf_refresh_token form = Some (Jwt (create_jwt key' minted s c)) → answer.1 = refused)
  ∧ (∀ key' minted s c,
       key' ≠ key →
       tf_refresh_token form = Some (Jwt (create_refresh_token key' minted s c)) →
       answer.1 = refused)
  ∧ (∀ minted s c,
       (0 <= me_now minted)%Q → (me_now minted + 2592000 <= te_decode_now env)%Q →
       tf_refresh_token form = Some (Jwt (create_refresh_token key minted s c)) →
       answer.1 = refused).
Proof.
  intros Hg Hc answer refused. subst answer refused.
  rewrite token_endpoint_refresh by done. cbn [fst snd].
  split; [done|]. unfold refresh_token_grant.
  split; [by intros ->|].
  split; [|split].
  - intros key' minted s c ->. cbn [token_falsy from_option id].
    unfold decode_refresh_token, jwt_decode.
    cbn [create_jwt jwt_encode jwt_payload jwt_alg jwt_key aud exp iat].
    repeat (case_match; try done).
  - intros key' minted s c Hk ->. cbn [token_falsy from_option id].
    unfold decode_refresh_token, jwt_decode.
    cbn [create_refresh_token jwt_encode jwt_payload jwt_alg jwt_key aud exp iat].
    rewrite (bool_decide_eq_false_2 (key' = key)) by done.
    repeat (case_match; try done).
  - intros minted s c H0 Hold ->. cbn [token_falsy from_option id].
    destruct (jwt_decode_window key
                (jwt_payload (create_refresh_token key minted s c))
                "deapi-mcp-refresh" (te_decode_now env) (me_now minted)
                REFRESH_TOKEN_EXPIRATION_SECONDS) as [_ Hout]; try done.
    { unfold REFRESH_TOKEN_EXPIRATION_SECONDS in *. lra. }
    unfold decode_refresh_token.
    change (Jwt (create_refresh_token key minted s c))
      with (Jwt (jwt_encode (jwt_payload (create_refresh_token key minted s c))
                   key JWT_ALGORITHM)).
    rewrite Hout; [done|]. unfold REFRESH_TOKEN_EXPIRATION_SECONDS, inject_Z. lra.
Qed.

(** ** The client_credentials grant *)

(** X6. Under the [client_credentials] grant a client secret of 10
    characters or more is accepted: the creation of the tokens not failing,
    the answer is the pair of tokens that seal that secret, and
    [server_error] with status 500 when it fails; a shorter, empty or
    missing secret is answered [invalid_client] with status 401. The store
    of authorization codes is never touched. *)
Theorem client_credentials_grant_issues key codes form env :
  tf_grant_type form = Some "client_credentials" →
  tf_client_id form = Some DEFAULT_CLIENT_ID →
  let answer := token_endpoint key codes form env in
  let client_secret := default "" (tf_client_secret form) in
  answer.2 = codes
  ∧ (10 ≤ py_len client_secret → te_failure env = None →
     answer.1 = JSONResponse
                  (TokenBody (create_jwt key (te_access env) client_secret DEFAULT_CLIENT_ID)
                     "Bearer" 3600
                     (create_refresh_token key (te_refresh env) client_secret
                        DEFAULT_CLIENT_ID)) 200)
  ∧ (∀ e, 10 ≤ py_len client_secret → te_failure env = Some e →
       answer.1 = json_error "server_error" ("Failed to create tokens: " ++ e) 500)
  ∧ (py_len client_secret < 10 →
     ∃ description, answer.1 = json_error "invalid_client" description 401).
Proof.
  intros Hg Hc answer client_secret. subst answer client_secret.
  rewrite token_endpoint_client_credentials by done.
  unfold client_credentials_grant.
  destruct (tf_client_secret form) as [[|c s]|]; cbn [falsy truthy negb from_option id py_len].
  - split; [done|]. repeat split; [intros; lia | intros; lia | eauto].
  - destruct (_ <? 10) eqn:Hl.
    + apply Nat.ltb_lt in Hl. split; [done|].
      repeat split; [intros; lia | intros; lia | eauto].
    + apply Nat.ltb_ge in Hl. split; [done|]. cbn [fst]. repeat split.
      * intros _. apply token_response_created.
      * intros e _. apply token_response_failed.
      * intros. lia.
  - split; [done|]. repeat split; [intros; lia | intros; lia | eauto].
Qed.

(** ** The store under token requests *)

Lemma authorization_code_grant_store codes env form :
  let codes' :=
    match authorization_code_grant codes env form with
    | inl (_, c) => c
    | inr (_, c) => c
    end in
  codes' = codes ∨ ∃ code, tf_code form = Some code ∧ codes' = delete code codes.
Proof.
  unfold authorization_code_grant.
  destruct (tf_code form) as [code|] eqn:Hcode; cbn [falsy truthy negb from_option id];
    [|by left].
  repeat case_match; simplify_eq; first [by left | right; by exists code].
Qed.

Lemma token_endpoint_store_code key codes form env :
  (token_endpoint key codes form env).2 = codes
  ∨ ∃ code, tf_code form = Some code
      ∧ (token_endpoint key codes form env).2 = delete code codes.
Proof.
  destruct (token_endpoint_gate key codes form env) as [[Hs _]|[Hc [Hg|[Hg|Hg]]]].
  - by left.
  - rewrite token_endpoint_code by done.
    pose proof (authorization_code_grant_store codes env form) as H.
    destruct (authorization_code_grant codes env form) as [[r c]|[s c]]; exact H.
  - rewrite token_endpoint_client_credentials by done.
    destruct (client_credentials_grant form); by left.
  - rewrite token_endpoint_refresh by done. by left.
Qed.

(** X7. A token request never adds an authorization code, and neither
    removes nor alters a code other than the one it presents. *)
Theorem token_request_spares_other_codes key codes form env code :
  let codes' := (token_endpoint key codes form env).2 in
  codes' ⊆ codes ∧ (tf_code form ≠ Some code → codes' !! code = codes !! code).
Proof.
  intros codes'. subst codes'.
  destruct (token_endpoint_store_code key codes form env) as [->|(c & Hc & ->)].
  - done.
  - split; [apply delete_subseteq|].
    intros Hne. apply lookup_delete_ne. congruence.
Qed.

(** X8. An authorization code presented after its expiry is refused as an
    invalid grant and removed from the store, whatever the rest of the
    request. *)
Theorem expired_code_is_removed key codes form env code data :
  presents form code → code ≠ "" →
  codes !! code = Some data →
  (ad_expires_at data < te_time env)%Q →
  token_endpoint key codes form env
  = (json_error "invalid_grant" "Authorization code expired" 400, delete code codes).
Proof.
  intros (Hg & Hc & Hcode) Hne Hin Hexp.
  rewrite token_endpoint_code by done.
  rewrite (grant_found codes env form code data) by done.
  unfold after_lookup.
  assert (expired (te_time env) data = true) as ->; [|done].
  unfold expired. apply negb_true_iff, Qle_bool_false. done.
Qed.

(** X9. A live authorization code presented with another redirect URI than
    the one it was issued for, or with none, is refused as an invalid grant;
    the code stays in the store. *)
Theorem redirect_uri_mismatch_keeps_code key codes form env code data :
  presents form code → code ≠ "" →
  codes !! code = Some data →
  (te_time env <= ad_expires_at data)%Q →
  tf_redirect_uri form ≠ Some (ad_redirect_uri data) →
  token_endpoint key codes form env
  = (json_error "invalid_grant" "redirect_uri mismatch" 400, codes).
Proof.
  intros (Hg & Hc & Hcode) Hne Hin Hlive Huri.
  rewrite token_endpoint_code by done.
  rewrite (grant_found codes env form code data) by done.
  unfold after_lookup.
  apply expired_false in Hlive. rewrite Hlive.
  by rewrite bool_decide_eq_false_2.
Qed.


(** ** From the authorization request to the tokens *)

Lemma well_formed_redirect_uri urlparse query :
  well_formed urlparse query = true →
  ∃ uri, aq_redirect_uri query = Some uri ∧ uri ≠ "".
Proof.
  unfold well_formed. rewrite !andb_true_iff. intros (((((_ & H) & _) & _) & _) & _).
  destruct (aq_redirect_uri query) as [[|c uri]|]; try done. by eexists.
Qed.

(** X10. The code issued on a well-formed authorization request, while the
    store has room, is redeemed by the token request that presents it with
    the same redirect URI, the verifier of the challenge, which is not
    empty, and an accepted client secret, up to 600 seconds after its
    issuance included: the creation of the tokens not failing, the answer is
    the pair of tokens that seal the client secret, and the code is gone. *)
Theorem authorization_round_trip urlparse key codes query issue form env verifier :
  well_formed urlparse query = true →
  size (_prune_expired_authorization_codes (ae_prune_time issue) codes) < 1000 →
  ae_auth_code issue ≠ "" →
  aq_code_challenge query = Some (s256 verifier) → verifier ≠ "" →
  presents form (ae_auth_code issue) →
  tf_redirect_uri form = aq_redirect_uri query →
  tf_code_verifier form = Some verifier →
  accepted_client_secret (tf_client_secret form) = true →
  (te_time env <= ae_issue_time issue + 600)%Q →
  te_failure env = None →
  let issued := authorize_endpoint urlparse codes query issue in
  let redeemed := token_endpoint key issued.2 form env in
  let client_secret := default "" (tf_client_secret form) in
  issued.1 = RedirectResponse (default "" (aq_redirect_uri query))
               (with_state [("code", ae_auth_code issue)] (aq_state query))
  ∧ redeemed.1 = JSONResponse
                   (TokenBody
                      (create_jwt key (te_access env) client_secret DEFAULT_CLIENT_ID)
                      "Bearer" 3600
                      (create_refresh_token key (te_refresh env) client_secret
                         DEFAULT_CLIENT_ID)) 200
  ∧ redeemed.2 !! ae_auth_code issue = None.
Proof.
  intros Hwf Hroom Hcode Hch Hv Hp Huri Hver Hacc Htime Hcreated issued redeemed
    client_secret.
  subst issued redeemed client_secret.
  destruct (well_formed_redirect_uri urlparse query Hwf) as (uri & Hq & Hne).
  rewrite authorize_well_formed by done. cbv zeta.
  rewrite bool_decide_eq_false_2 by (unfold AUTHORIZATION_CODE_MAX_ENTRIES; lia).
  cbn [fst snd]. split; [done|].
  destruct Hp as (Hg & Hc & Hpc).
  rewrite token_endpoint_code by done.
  erewrite grant_on_verifier;
    [ | exact Hpc | exact Hcode | apply lookup_insert_eq
      | cbn [ad_expires_at]; exact Htime
      | cbn [ad_redirect_uri]; by rewrite Huri, Hq ].
  cbv zeta. cbn [ad_code_challenge]. rewrite Hver, Hch. cbn [from_option id].
  rewrite bool_decide_eq_false_2 by done.
  rewrite (bool_decide_eq_true_2 (s256 verifier = s256 verifier)) by done.
  rewrite Hacc. cbn [negb fst snd].
  split; [by apply token_response_created|]. apply lookup_delete_eq.
Qed.

(** ** The store under authorization requests *)

(** X11. An authorization request neither removes nor alters a code of the
    store that has not expired, and adds no code but the one it draws. *)
Theorem authorize_keeps_live_codes urlparse codes query env code data :
  code ≠ ae_auth_code env →
  let codes' := (authorize_endpoint urlparse codes query env).2 in
  (codes !! code = Some data → (ae_prune_time env <= ad_expires_at data)%Q →
   codes' !! code = Some data)
  ∧ (codes' !! code = Some data → codes !! code = Some data).
Proof.
  intros Hne codes'. subst codes'.
  destruct (well_formed urlparse query) eqn:Hwf.
  - rewrite authorize_well_formed by done. cbv zeta.
    case_bool_decide; cbn [snd].
    + split; [intros; by apply prune_lookup|]. by intros [? _]%prune_lookup.
    + rewrite lookup_insert_ne by done.
      split; [intros; by apply prune_lookup|]. by intros [? _]%prune_lookup.
  - destruct (authorize_ill_formed urlparse codes query env Hwf) as [-> _]. done.
Qed.



(** *** The URL of a redirect, read back *)
















(** X13. Pruning at two successive times amounts to pruning at the later
    one; in particular pruning twice at the same time changes nothing more. *)
Theorem prune_composes (codes : store) t1 t2 :
  (t1 <= t2)%Q →
  _prune_expired_authorization_codes t2 (_prune_expired_authorization_codes t1 codes)
  = _prune_expired_authorization_codes t2 codes.
Proof.
  intros Hle. apply map_eq. intros code. apply option_eq. intros data.
  rewrite !prune_lookup. split; [tauto|]. intros [? ?].
  repeat split; try done. by apply Qle_trans with t2.
Qed.


(** ** The properties at the sample requests *)

Lemma Qlt_by_computation (x y : Q) : Qle_bool y x = false → (x < y)%Q.
Proof. apply Qle_bool_false. Qed.

Ltac rational :=
  first [apply Qle_by_computation; reflexivity | apply Qlt_by_computation; reflexivity].

(** X1 at a sample: the sample access token, created at 1200 seconds,
    verifies at 1300 and no longer at 4800. *)
Lemma access_token_lifetime_witness :
  decode_jwt sample_secret_key 1300 (Jwt sample_access_token)
  = Some (jwt_payload sample_access_token)
  ∧ decode_jwt sample_secret_key 4800 (Jwt sample_access_token) = None.
Proof.
  split.
  - apply (access_token_lifetime sample_secret_key (te_access sample_token_env)
             sample_credential "deapi-mcp" 1300); rational.
  - apply (access_token_lifetime sample_secret_key (te_access sample_token_env)
             sample_credential "deapi-mcp" 4800); rational.
Defined.

(** X2 at a sample: the sample refresh token verifies one hour and a half
    after its creation, and no longer 30 days after it. *)
Lemma refresh_token_lifetime_witness :
  decode_refresh_token sample_secret_key 6600 (Jwt sample_refresh_token)
  = Some (jwt_payload sample_refresh_token)
  ∧ decode_refresh_token sample_secret_key 2593200 (Jwt sample_refresh_token) = None.
Proof.
  split.
  - apply (refresh_token_lifetime sample_secret_key (te_refresh sample_token_env)
             sample_credential "deapi-mcp" 6600); rational.
  - apply (refresh_token_lifetime sample_secret_key (te_refresh sample_token_env)
             sample_credential "deapi-mcp" 2593200); rational.
Defined.

(** X3 at a sample: the tokens issued under the [client_credentials] grant
    seal the client secret. *)
Lemma issued_tokens_witness :
  credential (sample_credentials_form (Some sample_credential)) = Some sample_credential
  ∧ 10 ≤ py_len sample_credential.
Proof.
  destruct (issued_tokens sample_secret_key ∅
              (sample_credentials_form (Some sample_credential)) sample_token_env
              sample_access_token "Bearer" 3600 sample_refresh_token 200 ∅ eq_refl)
    as (_ & _ & (s & Hs & _ & _ & Hlen) & _).
  injection Hs as <-. split; [reflexivity|]. by apply Hlen.
Defined.

(** X4 at a sample: the sample refresh token is exchanged one hour and a
    half later. *)
Lemma refresh_grant_rotates_witness :
  (token_endpoint sample_secret_key ∅ (sample_refresh_form (Some (Jwt sample_refresh_token)))
     later_token_env).1
  = JSONResponse
      (TokenBody
         (create_jwt sample_secret_key (te_access later_token_env) sample_credential
            DEFAULT_CLIENT_ID)
         "Bearer" 3600
         (create_refresh_token sample_secret_key (te_refresh later_token_env)
            sample_credential DEFAULT_CLIENT_ID)) 200.
Proof.
  destruct (refresh_grant_rotates sample_secret_key ∅
              (sample_refresh_form (Some (Jwt sample_refresh_token))) later_token_env
              (te_refresh sample_token_env) sample_credential "deapi-mcp")
    as (_ & Hcreated & _);
    [reflexivity | reflexivity | reflexivity | rational.. |].
  exact (Hcreated eq_refl).
Defined.

(** X5 at a sample: the sample access token is refused as a refresh token. *)
Lemma refresh_grant_refusals_witness :
  error_code
    (token_endpoint sample_secret_key ∅
       (sample_refresh_form (Some (Jwt sample_access_token))) later_token_env).1
  = Some "invalid_grant".
Proof.
  destruct (refresh_grant_refusals sample_secret_key ∅
              (sample_refresh_form (Some (Jwt sample_access_token))) later_token_env)
    as (_ & _ & Haccess & _); [reflexivity | reflexivity |].
  by rewrite (Haccess sample_secret_key (te_access sample_token_env) sample_credential
                "deapi-mcp").
Defined.

(** X6 at a sample: a secret of five characters is refused, the sample
    credential accepted. *)
Lemma client_credentials_grant_issues_witness :
  error_code
    (token_endpoint sample_secret_key ∅ (sample_credentials_form (Some "short"))
       sample_token_env).1 = Some "invalid_client"
  ∧ (token_endpoint sample_secret_key ∅ (sample_credentials_form (Some sample_credential))
       sample_token_env).1
    = JSONResponse (TokenBody sample_access_token "Bearer" 3600 sample_refresh_token) 200.
Proof.
  split.
  - destruct (client_credentials_grant_issues sample_secret_key ∅
                (sample_credentials_form (Some "short")) sample_token_env)
      as (_ & _ & _ & Hshort); [reflexivity | reflexivity |].
    destruct Hshort as [description ->]; [cbn; lia | reflexivity].
  - destruct (client_credentials_grant_issues sample_secret_key ∅
                (sample_credentials_form (Some sample_credential)) sample_token_env)
      as (_ & Hlong & _); [reflexivity | reflexivity |].
    apply Hlong; [cbn; lia | reflexivity].
Defined.

(** X7 at a sample: a refresh request leaves the sample code where it is. *)
Lemma token_request_spares_other_codes_witness :
  (token_endpoint sample_secret_key sample_codes
     (sample_refresh_form (Some (Jwt sample_refresh_token))) later_token_env).2 !! sample_code
  = Some sample_data.
Proof.
  destruct (token_request_spares_other_codes sample_secret_key sample_codes
              (sample_refresh_form (Some (Jwt sample_refresh_token))) later_token_env
              sample_code) as [_ Hother].
  rewrite Hother; [exact sample_codes_lookup | discriminate].
Defined.

(** X8 at a sample: the sample code, which expires at 1600 seconds, is
    presented at 6600. *)
Lemma expired_code_is_removed_witness :
  let answer := token_endpoint sample_secret_key sample_codes sample_form later_token_env in
  answer.1 = json_error "invalid_grant" "Authorization code expired" 400
  ∧ answer.2 !! sample_code = None.
Proof.
  cbv zeta.
  rewrite (expired_code_is_removed sample_secret_key sample_codes sample_form later_token_env
             sample_code sample_data);
    [ | repeat split | discriminate | exact sample_codes_lookup | rational ].
  split; [reflexivity | apply lookup_delete_eq].
Defined.


(** X9 at a sample: the sample code is presented with another redirect URI. *)
Lemma redirect_uri_mismatch_keeps_code_witness :
  let form := set_redirect_uri sample_form (Some "https://attacker.example/callback") in
  let answer := token_endpoint sample_secret_key sample_codes form sample_token_env in
  answer.1 = json_error "invalid_grant" "redirect_uri mismatch" 400
  ∧ answer.2 !! sample_code = Some sample_data.
Proof.
  cbv zeta.
  rewrite (redirect_uri_mismatch_keeps_code sample_secret_key sample_codes
             (set_redirect_uri sample_form (Some "https://attacker.example/callback"))
             sample_token_env sample_code sample_data);
    [ | repeat split | discriminate | exact sample_codes_lookup | rational | discriminate ].
  split; [reflexivity | exact sample_codes_lookup].
Defined.

(** X10 at a sample: the sample authorization request, then the sample token
    request. *)
Lemma authorization_round_trip_witness :
  let issued := authorize_endpoint urlparse_simple ∅ sample_query sample_authorize_env in
  let redeemed := token_endpoint sample_secret_key issued.2 sample_form sample_token_env in
  param "code" issued.1 = Some sample_code
  ∧ redeemed.1 = JSONResponse (TokenBody sample_access_token "Bearer" 3600
                                 sample_refresh_token) 200
  ∧ redeemed.2 !! sample_code = None.
Proof.
  destruct (authorization_round_trip urlparse_simple sample_secret_key ∅ sample_query
              sample_authorize_env sample_form sample_token_env sample_verifier)
    as (Hissued & Hredeemed & Hgone).
  - computed.
  - unfold _prune_expired_authorization_codes. rewrite map_filter_empty, map_size_empty. lia.
  - discriminate.
  - apply (f_equal Some). symmetry. computed.
  - discriminate.
  - repeat split.
  - reflexivity.
  - reflexivity.
  - computed.
  - rational.
  - reflexivity.
  - cbv zeta. rewrite Hissued. split; [reflexivity|]. split; [exact Hredeemed | exact Hgone].
Defined.

(** X11 at a sample: a second authorization request, at 1100 seconds, leaves
    the sample code in the store. *)
Lemma authorize_keeps_live_codes_witness :
  (authorize_endpoint urlparse_simple sample_codes sample_query second_authorize_env).2
    !! sample_code
  = Some sample_data.
Proof.
  destruct (authorize_keeps_live_codes urlparse_simple sample_codes sample_query
              second_authorize_env sample_code sample_data) as [Hkept _].
  - discriminate.
  - apply Hkept; [exact sample_codes_lookup | rational].
Defined.


(** A redirect URI with a query of its own: the parameters of the answer
    follow a second question mark, and the receiver reads the state of the
    redirect URI first and no code. *)
Example redirect_uri_query_comes_first :
  let answer :=
    authorize_endpoint urlparse_simple ∅ query_in_redirect_uri sample_authorize_env in
  redirect_url answer.1
  = Some ("https://client.example/callback?state=forged"
          ++ "?code=Zm9vYmFyYmF6cXV4Zm9vYmFyYmF6cXV4Zm9vYmFyYmF&state=xyz")
  ∧ param "state" answer.1 = Some "xyz"
  ∧ find_parameter "state" (query_parameters (default "" (redirect_url answer.1)))
    = Some "forged?code=Zm9vYmFyYmF6cXV4Zm9vYmFyYmF6cXV4Zm9vYmFyYmF"
  ∧ find_parameter "code" (query_parameters (default "" (redirect_url answer.1))) = None.
Proof. cbv zeta. conjuncts computed. Qed.

(** X13 at a sample: pruning the sample store at 1700 seconds after pruning
    it at 1000. *)
Lemma prune_composes_witness :
  _prune_expired_authorization_codes 1700
    (_prune_expired_authorization_codes 1000 sample_codes)
  = _prune_expired_authorization_codes 1700 sample_codes.
Proof. apply prune_composes. rational. Defined.

End IssuerProperties.

(** * The shape of PKCE challenges *)

Module ChallengeProperties.
Import OAuth OAuthProperties.
Local Open Scope string_scope.
Local Open Scope nat_scope.

(** *** The digest has 32 bytes *)

Lemma round_length st kw : List.length (Sha256.round st kw) = List.length st.
Proof.
  unfold Sha256.round.
  destruct st as [|a [|b [|c [|d [|e [|f [|g [|h [|i st]]]]]]]]]; reflexivity.
Qed.

Lemma rounds_length kws : ∀ st,
  List.length (fold_left Sha256.round kws st) = List.length st.
Proof.
  induction kws as [|kw kws IH]; intros st; cbn [fold_left]; [done|].
  by rewrite IH, round_length.
Qed.

Lemma compress_length h block : List.length (Sha256.compress h block) = List.length h.
Proof.
  unfold Sha256.compress. rewrite length_map, length_combine, rounds_length. lia.
Qed.

Lemma hash_length bs : ∀ h,
  List.length (fold_left Sha256.compress bs h) = List.length h.
Proof.
  induction bs as [|b bs IH]; intros h; cbn [fold_left]; [done|].
  by rewrite IH, compress_length.
Qed.

Lemma be_bytes_flat_length ws :
  List.length (flat_map (Sha256.be_bytes 4) ws) = 4 * List.length ws.
Proof.
  induction ws as [|w ws IH]; [done|].
  cbn [flat_map]. rewrite length_app, IH. unfold Sha256.be_bytes.
  rewrite length_map, length_rev, length_seq. cbn [List.length]. lia.
Qed.

Lemma digest_length msg : List.length (Sha256.digest msg) = 32.
Proof.
  unfold Sha256.digest. rewrite be_bytes_flat_length, hash_length. reflexivity.
Qed.

(** *** The encoding of 32 bytes ends with one padding sign *)

Lemma digit_not_padding (b : N) :
  Base64.digit (N.shiftl (N.land b 15) 2) ≠ "="%char.
Proof.
  assert (N.land b 15 < 16)%N as Hlt.
  { change 15%N with (N.ones 4). rewrite N.land_ones. by apply N.mod_lt. }
  destruct (N.land b 15) as [|p]; [vm_compute; discriminate|].
  do 5 (try destruct p as [p|p|]); try lia; vm_compute; discriminate.
Qed.

Lemma urlsafe_b64encode_tail k : ∀ bs,
  List.length bs = 3 * k + 2 →
  ∃ pre c, Base64.urlsafe_b64encode bs = pre ++ String c "="
           ∧ String.length pre = 4 * k + 2 ∧ c ≠ "="%char.
Proof.
  induction k as [|k IH]; intros bs Hlen.
  - destruct bs as [|a [|b [|c bs]]]; try discriminate Hlen.
    cbn [Base64.urlsafe_b64encode].
    eexists (String _ (String _ "")), _. split; [reflexivity|].
    split; [done | apply digit_not_padding].
  - destruct bs as [|a [|b [|c bs]]]; cbn [List.length] in Hlen; try lia.
    destruct (IH bs ltac:(lia)) as (pre & x & Heq & Hpre & Hx).
    cbn [Base64.urlsafe_b64encode]. rewrite Heq.
    eexists (String _ (String _ (String _ (String _ pre)))), x.
    split; [reflexivity|]. split; [cbn [String.length]; lia | done].
Qed.

Lemma rstrip_eq_tail pre c :
  c ≠ "="%char → Base64.rstrip_eq (pre ++ String c "=") = pre ++ String c "".
Proof.
  intros Hc. induction pre as [|a pre IH].
  - change (Base64.rstrip_eq ("" ++ String c "="))
      with (if Ascii.eqb c "=" then "" else String c "").
    destruct (Ascii.eqb c "=") eqn:E; [by apply Ascii.eqb_eq in E | reflexivity].
  - change (Base64.rstrip_eq (String a pre ++ String c "="))
      with (match Base64.rstrip_eq (pre ++ String c "=") with
            | EmptyString => if Ascii.eqb a "=" then "" else String a ""
            | r => String a r
            end).
    rewrite IH. destruct pre; reflexivity.
Qed.

Lemma string_length_append (a b : string) :
  String.length (a ++ b) = String.length a + String.length b.
Proof.
  induction a as [|c a IH]; [reflexivity|].
  change (String.length (String c a ++ b)) with (S (String.length (a ++ b))).
  rewrite IH. reflexivity.
Qed.

Lemma s256_shape code_verifier :
  ∃ pre c, s256 code_verifier = pre ++ String c "" ∧ String.length pre = 42
           ∧ c ≠ "="%char.
Proof.
  unfold s256.
  destruct (urlsafe_b64encode_tail 10 (Sha256.digest (encode code_verifier)))
    as (pre & c & Heq & Hlen & Hc).
  { by rewrite digest_length. }
  exists pre, c. by rewrite Heq, rstrip_eq_tail.
Qed.

Lemma last_character (a b : string) x y :
  a ++ String x "" = b ++ String y "" → x = y.
Proof.
  revert b. induction a as [|a1 a IH]; intros [|b1 b] Hab; simpl in Hab.
  - by injection Hab.
  - injection Hab as _ Hab. destruct b; discriminate Hab.
  - injection Hab as _ Hab. destruct a; discriminate Hab.
  - injection Hab as _ Hab. by eapply IH.
Qed.

(** ** The shape of a challenge that can be redeemed *)

(** X14. A code challenge that some verifier satisfies has 43 characters and
    does not end with a padding sign. *)
Theorem pkce_challenge_shape code_verifier code_challenge :
  verify_pkce_challenge code_verifier code_challenge = true →
  String.length code_challenge = 43
  ∧ ∀ unpadded, code_challenge ≠ unpadded ++ "=".
Proof.
  intros <-%verify_pkce_challenge_spec.
  destruct (s256_shape code_verifier) as (pre & c & -> & Hlen & Hc).
  split.
  - rewrite string_length_append, Hlen. reflexivity.
  - intros unpadded Heq.
    apply last_character in Heq. done.
Qed.


(** X14 at a sample: the challenge of RFC 7636, appendix B. *)
Lemma pkce_challenge_shape_witness :
  String.length sample_challenge = 43 ∧ sample_challenge ≠ sample_challenge ++ "=".
Proof.
  destruct (pkce_challenge_shape sample_verifier sample_challenge) as [Hlen Hpad].
  - computed.
  - split; [exact Hlen | exact (Hpad sample_challenge)].
Defined.

End ChallengeProperties.

(** * Properties of the bearer-token provider *)

Module AuthProperties.
Import OAuth Auth IssuerSpec IssuerProperties.
Local Open Scope string_scope.

(** ** From an access token to the request context *)

(** X15. An access token of the server, presented as bearer during the 3599
    seconds that follow its creation, is accepted: the credential that it
    seals becomes the token of the request, which [get_current_token] then
    returns. *)
Theorem bearer_round_trip key env deapi_token client_id now current :
  (0 <= me_now env)%Q → (me_now env <= now)%Q → (now <= me_now env + 3599)%Q →
  let r := verify_token key now current
             (Some (Jwt (create_jwt key env deapi_token client_id))) in
  r.1 = Some {| at_client_id := "deapi-mcp"; at_token := deapi_token; at_scopes := [] |}
  ∧ r.2 = Some deapi_token
  ∧ (deapi_token ≠ "" → get_current_token r.2 = Some deapi_token).
Proof.
  intros H0 Hlo Hhi r. subst r. unfold verify_token, decode_jwt.
  destruct (jwt_decode_window key (jwt_payload (create_jwt key env deapi_token client_id))
              "deapi-mcp-api" now (me_now env) JWT_EXPIRATION_SECONDS) as [Hin _]; try done.
  change (Jwt (create_jwt key env deapi_token client_id))
    with (Jwt (jwt_encode (jwt_payload (create_jwt key env deapi_token client_id))
                 key JWT_ALGORITHM)).
  rewrite Hin by (unfold JWT_EXPIRATION_SECONDS, inject_Z; lra).
  cbn [create_jwt jwt_encode jwt_payload deapi_token_enc].
  unfold decrypt_token, encrypt_token. cbn [ct_key ct_plain].
  case_bool_decide; [|done]. cbn [fst snd].
  split; [done|]. split; [done|].
  intros Hne. unfold get_current_token. by destruct deapi_token.
Qed.

(** X16. A bearer is refused, and the request context left as it was, when
    it is a refresh token, an access token signed with another key, or an
    access token of 3600 seconds or more. *)
Theorem bearer_refusals key now current :
  (∀ key' env s c,
     verify_token key now current (Some (Jwt (create_refresh_token key' env s c)))
     = (None, current))
  ∧ (∀ key' env s c,
       key' ≠ key →
       verify_token key now current (Some (Jwt (create_jwt key' env s c))) = (None, current))
  ∧ (∀ env s c,
       (0 <= me_now env)%Q → (me_now env + 3600 <= now)%Q →
       verify_token key now current (Some (Jwt (create_jwt key env s c))) = (None, current)).
Proof.
  split; [|split].
  - intros key' env s c. unfold verify_token, decode_jwt, jwt_decode.
    cbn [create_refresh_token jwt_encode jwt_payload jwt_alg jwt_key aud exp iat].
    repeat (case_match; try done).
  - intros key' env s c Hk. unfold verify_token, decode_jwt, jwt_decode.
    cbn [create_jwt jwt_encode jwt_payload jwt_alg jwt_key aud exp iat].
    rewrite (bool_decide_eq_false_2 (key' = key)) by done.
    repeat (case_match; try done).
  - intros env s c H0 Hold. unfold verify_token, decode_jwt.
    destruct (jwt_decode_window key (jwt_payload (create_jwt key env s c))
                "deapi-mcp-api" now (me_now env) JWT_EXPIRATION_SECONDS) as [_ Hout];
      try done.
    { unfold JWT_EXPIRATION_SECONDS in *. lra. }
    change (Jwt (create_jwt key env s c))
      with (Jwt (jwt_encode (jwt_payload (create_jwt key env s c)) key JWT_ALGORITHM)).
    rewrite Hout; [done|]. unfold JWT_EXPIRATION_SECONDS, inject_Z. lra.
Qed.

(** X17. Whatever is presented, a refusal leaves the request context as it
    was, and an acceptance sets it to the token that is returned, for the
    client [deapi-mcp] with no scope. *)
Theorem context_follows_verdict key now current token :
  let r := verify_token key now current token in
  match r.1 with
  | None => r.2 = current
  | Some access =>
      r.2 = Some (at_token access)
      ∧ at_client_id access = "deapi-mcp" ∧ at_scopes access = []
  end.
Proof.
  unfold verify_token. cbv zeta.
  destruct token as [[t|raw]|]; [| |done].
  - destruct (decode_jwt _ _ _) as [payload|]; [|done].
    destruct (deapi_token_enc payload) as [ct|]; [|done].
    by destruct (decrypt_token key ct).
  - destruct (is_jwt raw); [|done].
    destruct (decode_jwt _ _ _) as [payload|]; [|done].
    destruct (deapi_token_enc payload) as [ct|]; [|done].
    by destruct (decrypt_token key ct).
Qed.

(** X18. A bearer that is not a signed token is taken as the credential
    itself, unchanged, unless it has exactly two dots, in which case it is
    refused; an empty bearer is accepted, after which [get_current_token]
    finds no token. *)
Theorem plain_bearer_passthrough key now current raw :
  let r := verify_token key now current (Some (NotAJwt raw)) in
  (count "." raw ≠ 2 →
   r = (Some {| at_client_id := "deapi-mcp"; at_token := raw; at_scopes := [] |}, Some raw))
  ∧ (count "." raw = 2 → r = (None, current))
  ∧ (raw = "" → get_current_token r.2 = None)
  ∧ (raw ≠ "" → count "." raw ≠ 2 → get_current_token r.2 = Some raw).
Proof.
  intros r. subst r. unfold verify_token, is_jwt.
  destruct (Nat.eqb_spec (count "." raw) 2) as [Heq|Hne].
  - split; [done|]. split; [done|]. split; [by intros ->|]. done.
  - split; [done|]. split; [done|]. split; [by intros ->|].
    intros Hraw _. by destruct raw.
Qed.


(** ** The properties at the sample tokens *)

(** X15 at a sample: the sample access token, presented 100 seconds after
    its creation. *)
Lemma bearer_round_trip_witness :
  let r := verify_token sample_secret_key 1300 None (Some (Jwt sample_access_token)) in
  at_token <$> r.1 = Some sample_credential
  ∧ get_current_token r.2 = Some sample_credential.
Proof.
  destruct (bearer_round_trip sample_secret_key (te_access sample_token_env)
              sample_credential "deapi-mcp" 1300 None) as (Hresult & _ & Hcontext);
    [rational.. |].
  cbv zeta. split.
  - unfold sample_access_token. by rewrite Hresult.
  - apply Hcontext. discriminate.
Defined.

(** X16 at a sample: the sample refresh token, and the sample access token
    after two hours, are refused as bearers. *)
Lemma bearer_refusals_witness :
  verify_token sample_secret_key 1300 (Some "earlier")
    (Some (Jwt sample_refresh_token)) = (None, Some "earlier")
  ∧ verify_token sample_secret_key 8400 (Some "earlier")
      (Some (Jwt sample_access_token)) = (None, Some "earlier").
Proof.
  split.
  - apply (bearer_refusals sample_secret_key 1300 (Some "earlier")).
  - apply (bearer_refusals sample_secret_key 8400 (Some "earlier")); rational.
Defined.

(** X18 at a sample: a bearer with two dots that is no signed token, and one
    with a single dot. *)
Lemma plain_bearer_passthrough_witness :
  verify_token sample_secret_key 1300 None (Some (NotAJwt "key.part.two")) = (None, None)
  ∧ get_current_token
      (verify_token sample_secret_key 1300 None (Some (NotAJwt "key.part"))).2
    = Some "key.part".
Proof.
  split.
  - apply (plain_bearer_passthrough sample_secret_key 1300 None "key.part.two"). reflexivity.
  - apply (plain_bearer_passthrough sample_secret_key 1300 None "key.part");
      [discriminate | cbn; lia].
Defined.

End AuthProperties.

(** * Further properties of the polling loop *)

Module SessionProperties.
Import Polling PollingSpec SessionSpec PollingProperties.
Local Open Scope Q_scope.

Section Endings.
Variable config : PollingConfig.
Variable job_id : string.
Variable ctx : bool.
Variable env : environment.

Abbreviation poll_loop := (poll_loop config job_id ctx env).

(** *** Sessions that end at a check *)

(** The loop that meets [n] checks of a running job, in time, and then a
    check that ends it with [out]. *)
Lemma poll_loop_ends n : ∀ fuel start a d lp out,
  (n < fuel)%nat →
  (∀ k, (a < k ≤ a + n)%nat → non_terminal (get_job_status env k)) →
  (∀ k, (a < k ≤ a + n)%nat → clock env k - start <= timeout config) →
  (∀ fuel' d' lp', ∃ notes,
     forallb is_notification notes = true
     ∧ poll_loop (S fuel') start (a + n) d' lp'
       = (out, EvClock (clock env (S (a + n)))
                 :: EvCheck (S (a + n)) (get_job_status env (S (a + n))) :: notes)) →
  (poll_loop fuel start a d lp).1 = out
  ∧ checks (poll_loop fuel start a d lp).2
    = map (λ k, (k, get_job_status env k)) (seq (S a) (S n))
  ∧ sleeps (poll_loop fuel start a d lp).2 = delays config n d.
Proof.
  induction n as [|n IH]; intros fuel start a d lp out Hfuel Hrun Htime Hlast.
  - destruct fuel as [|fuel]; [lia|]. rewrite Nat.add_0_r in *.
    destruct (Hlast fuel d lp) as (notes & Hnotes & ->).
    cbn [fst snd]. split; [reflexivity|].
    rewrite checks_terminal, sleeps_terminal by done. done.
  - destruct fuel as [|fuel]; [lia|].
    destruct (iteration_non_terminal config job_id ctx env fuel start a d lp)
      as (notes & lp' & Hnotes & ->).
    { apply Htime. lia. }
    { apply Hrun. lia. }
    cbn [fst snd].
    destruct (IH fuel start (S a) (_calculate_next_delay config d (S a)) lp' out)
      as (Hout & Hchecks & Hsleeps).
    + lia.
    + intros k Hk. apply Hrun. lia.
    + intros k Hk. apply Htime. lia.
    + intros fuel' d' lp''. replace (S a + n)%nat with (a + S n)%nat by lia. apply Hlast.
    + rewrite checks_continuing, sleeps_continuing by done.
      rewrite Hout, Hchecks, Hsleeps. done.
Qed.

(** The same, for the outcome alone and any last iteration. *)
Lemma poll_loop_outcome n : ∀ fuel start a d lp out,
  (n < fuel)%nat →
  (∀ k, (a < k ≤ a + n)%nat → non_terminal (get_job_status env k)) →
  (∀ k, (a < k ≤ a + n)%nat → clock env k - start <= timeout config) →
  (∀ fuel' d' lp', (poll_loop (S fuel') start (a + n) d' lp').1 = out) →
  (poll_loop fuel start a d lp).1 = out.
Proof.
  induction n as [|n IH]; intros fuel start a d lp out Hfuel Hrun Htime Hlast.
  - destruct fuel as [|fuel]; [lia|]. rewrite Nat.add_0_r in *. apply Hlast.
  - destruct fuel as [|fuel]; [lia|].
    destruct (iteration_non_terminal config job_id ctx env fuel start a d lp)
      as (notes & lp' & Hnotes & ->).
    { apply Htime. lia. }
    { apply Hrun. lia. }
    cbn [fst]. apply IH.
    + lia.
    + intros k Hk. apply Hrun. lia.
    + intros k Hk. apply Htime. lia.
    + intros fuel' d' lp''. replace (S a + n)%nat with (a + S n)%nat by lia. apply Hlast.
Qed.

(** A session whose job is running until the clock is found past the
    timeout, at reading [N]. *)
Lemma session_times_out N fuel :
  (1 ≤ N)%nat → (N ≤ fuel)%nat →
  (∀ k, (1 ≤ k < N)%nat → non_terminal (get_job_status env k)) →
  (∀ k, (1 ≤ k < N)%nat → in_time config env k) →
  timeout config < clock env N - clock env 0 →
  (poll_until_complete config job_id ctx env fuel).1
  = Raised (PollingTimeoutError
              (TimedOutText job_id (clock env N - clock env 0) (timeout config))).
Proof.
  intros HN Hfuel Hrun Htime Hlate.
  rewrite poll_until_complete_loop. cbn [fst].
  destruct N as [|n]; [lia|].
  apply (poll_loop_outcome n).
  - lia.
  - intros k Hk. apply Hrun. lia.
  - intros k Hk. apply Htime. lia.
  - intros fuel' d' lp'. cbn [Nat.add]. by rewrite iteration_timeout.
Qed.

Lemma session_ends N fuel out :
  (1 ≤ N)%nat → (N ≤ fuel)%nat →
  (∀ k, (1 ≤ k < N)%nat → non_terminal (get_job_status env k)) →
  (∀ k, (1 ≤ k < N)%nat → in_time config env k) →
  (∀ fuel' d' lp', ∃ notes,
     forallb is_notification notes = true
     ∧ poll_loop (S fuel') (clock env 0) (N - 1) d' lp'
       = (out, EvClock (clock env N) :: EvCheck N (get_job_status env N) :: notes)) →
  let run := poll_until_complete config job_id ctx env fuel in
  run.1 = out
  ∧ checks run.2 = map (λ k, (k, get_job_status env k)) (seq 1 N)
  ∧ sleeps run.2 = delays config (N - 1) (initial_delay config).
Proof.
  intros HN Hfuel Hrun Htime Hlast run. subst run.
  rewrite checks_session, sleeps_session, poll_until_complete_loop. cbn [fst].
  destruct N as [|n]; [lia|]. replace (S n - 1)%nat with n in * by lia.
  apply (poll_loop_ends n fuel (clock env 0) 0 (initial_delay config) None out).
  - lia.
  - intros k Hk. apply Hrun. lia.
  - intros k Hk. apply Htime. lia.
  - exact Hlast.
Qed.

End Endings.

(** ** A failed job *)

(** X19. A session whose job is running at the first [N - 1] checks and has
    failed at check [N] returns the failure at once, with the count of
    attempts; it has slept [N - 1] times, by the delays of the loop. *)
Theorem failed_job_ends_session config job_id ctx env N fuel data :
  (1 ≤ N)%nat → (N ≤ fuel)%nat →
  (∀ k, (1 ≤ k < N)%nat → non_terminal (get_job_status env k)) →
  (∀ k, (1 ≤ k ≤ N)%nat → in_time config env k) →
  get_job_status env N = Responded data → status data = FAILED →
  let run := poll_until_complete config job_id ctx env fuel in
  run.1 = Returned (job_failed job_id env N)
  ∧ map fst (checks run.2) = seq 1 N
  ∧ sleeps run.2 = delays config (N - 1) (initial_delay config).
Proof.
  intros HN Hfuel Hrun Htime Hlast Hfailed run.
  destruct (session_ends config job_id ctx env N fuel (Returned (job_failed job_id env N)))
    as (Hout & Hchecks & Hsleeps); try done.
  { intros k Hk. apply Htime. lia. }
  { intros fuel' d' lp'.
    assert (clock env N - clock env 0 <= timeout config) as Ht%Qlt_bool_false
      by (apply Htime; lia).
    destruct N as [|n]; [lia|]. replace (S n - 1)%nat with n by lia.
    cbn [Polling.poll_loop]. rewrite Ht, Hlast, Hfailed.
    eexists. split; [|reflexivity].
    rewrite !forallb_app, !andb_true_iff. repeat split.
    - destruct (progress data) as [p|]; [|reflexivity]. by destruct (ctx && _).
    - destruct (S n mod 5 =? 0)%nat; [apply notify_notifications|reflexivity].
    - apply notify_notifications. }
  split; [done|]. split; [|done].
  subst run. rewrite Hchecks, map_map. cbn [fst]. apply map_id.
Qed.



Lemma checks_attempts env (l : list nat) :
  map fst (map (λ k, (k, get_job_status env k)) l) = l.
Proof. rewrite map_map. cbn [fst]. apply map_id. Qed.

(** ** A job that is not found *)

(** X20. A session whose check of attempt [N] is answered 404, the job
    running at the checks before, returns "Job not found" at once: a 404 is
    not retried, whatever the attempt. *)
Theorem missing_job_ends_session config job_id ctx env N fuel e :
  (1 ≤ N)%nat → (N ≤ fuel)%nat →
  (∀ k, (1 ≤ k < N)%nat → non_terminal (get_job_status env k)) →
  (∀ k, (1 ≤ k ≤ N)%nat → in_time config env k) →
  get_job_status env N = RaisedDeapiAPIError (Some 404%Z) e →
  let run := poll_until_complete config job_id ctx env fuel in
  run.1 = Returned (job_not_found job_id env N)
  ∧ map fst (checks run.2) = seq 1 N
  ∧ sleeps run.2 = delays config (N - 1) (initial_delay config).
Proof.
  intros HN Hfuel Hrun Htime Hlast run.
  destruct (session_ends config job_id ctx env N fuel (Returned (job_not_found job_id env N)))
    as (Hout & Hchecks & Hsleeps); try done.
  { intros k Hk. apply Htime. lia. }
  { intros fuel' d' lp'.
    assert (clock env N - clock env 0 <= timeout config) as Ht%Qlt_bool_false
      by (apply Htime; lia).
    destruct N as [|n]; [lia|]. replace (S n - 1)%nat with n by lia.
    cbn [Polling.poll_loop]. rewrite Ht, Hlast.
    rewrite bool_decide_eq_true_2 by done.
    eexists. split; [|reflexivity]. apply notify_notifications. }
  split; [done|]. split; [|done].
  subst run. by rewrite Hchecks, checks_attempts.
Qed.

(** ** An exception that is not an API error *)

(** X21. When the check of attempt [N] raises an exception other than
    [DeapiAPIError], [poll_until_complete] lets it through without a retry,
    also at the first attempts; [poll_with_context] turns it into a failure
    result that carries the text of the exception and no metadata. *)
Theorem unexpected_exception_escapes config job_id ctx env N fuel e :
  (1 ≤ N)%nat → (N ≤ fuel)%nat →
  (∀ k, (1 ≤ k < N)%nat → non_terminal (get_job_status env k)) →
  (∀ k, (1 ≤ k ≤ N)%nat → in_time config env k) →
  get_job_status env N = RaisedOther e →
  let run := poll_until_complete config job_id ctx env fuel in
  run.1 = Raised (OtherException e)
  ∧ map fst (checks run.2) = seq 1 N
  ∧ (poll_with_context config job_id ctx env fuel).1
    = Returned {| success := false;
                  tr_job_id := Some job_id;
                  tr_status := None;
                  tr_result := None;
                  tr_result_url := None;
                  error := Some (Literal e);
                  metadata := None |}.
Proof.
  intros HN Hfuel Hrun Htime Hlast run.
  destruct (session_ends config job_id ctx env N fuel (Raised (OtherException e)))
    as (Hout & Hchecks & Hsleeps); try done.
  { intros k Hk. apply Htime. lia. }
  { intros fuel' d' lp'.
    assert (clock env N - clock env 0 <= timeout config) as Ht%Qlt_bool_false
      by (apply Htime; lia).
    destruct N as [|n]; [lia|]. replace (S n - 1)%nat with n by lia.
    cbn [Polling.poll_loop]. rewrite Ht, Hlast.
    by exists []. }
  split; [done|]. split.
  - subst run. by rewrite Hchecks, checks_attempts.
  - rewrite poll_with_context_outcome. by rewrite Hout.
Qed.


(** ** The delays of any session *)

Section Steps.
Variable config : PollingConfig.
Variable job_id : string.
Variable ctx : bool.
Variable env : environment.

Abbreviation loop := (Polling.poll_loop config job_id ctx env).

(** An iteration raises the timeout, ends the session at its check, or
    sleeps for the current delay and goes on with the next one. *)
Lemma iteration_kinds fuel start a d lp :
  let now := clock env (S a) in
  let r := get_job_status env (S a) in
  (timeout config < now - start
   ∧ ∃ msg, loop (S fuel) start a d lp
            = (Raised (PollingTimeoutError msg), EvClock now :: notify ctx (CtxError msg)))
  ∨ (now - start <= timeout config
     ∧ ∃ out notes,
         loop (S fuel) start a d lp = (out, EvClock now :: EvCheck (S a) r :: notes)
         ∧ forallb is_notification notes = true
         ∧ out ≠ OutOfFuel)
  ∨ (now - start <= timeout config
     ∧ ∃ notes lp',
         loop (S fuel) start a d lp =
           ((loop fuel start (S a) (_calculate_next_delay config d (S a)) lp').1,
            EvClock now :: EvCheck (S a) r :: notes ++ EvSleep d
              :: (loop fuel start (S a) (_calculate_next_delay config d (S a)) lp').2)
         ∧ forallb is_notification notes = true).
Proof.
  intros now r.
  destruct (Qlt_le_dec (timeout config) (now - start)) as [Hlate|Hin].
  { left. split; [done|]. eexists. by apply iteration_timeout. }
  right. subst now.
  destruct (get_job_status env (S a)) as [data|status_code e|e] eqn:Hr; subst r.
  - destruct (status data) eqn:Hs.
    + right. split; [done|].
      destruct (iteration_non_terminal config job_id ctx env fuel start a d lp)
        as (notes & lp' & Hn & Heq); [done | exists data; rewrite Hr; auto |].
      rewrite Hr in Heq. by exists notes, lp'.
    + right. split; [done|].
      destruct (iteration_non_terminal config job_id ctx env fuel start a d lp)
        as (notes & lp' & Hn & Heq); [done | exists data; rewrite Hr; auto |].
      rewrite Hr in Heq. by exists notes, lp'.
    + left. split; [done|].
      destruct (iteration_done config job_id ctx env fuel start a d lp data)
        as (notes & Hn & Heq); try done.
      eexists _, notes. split; [exact Heq|]. by split.
    + left. split; [done|].
      destruct (iteration_failed config job_id ctx env fuel start a d lp data)
        as (res & notes & Hn & _ & Heq); try done.
      eexists _, notes. split; [exact Heq|]. by split.
  - destruct (decide (status_code = Some 404%Z)) as [->|Hcode].
    + left. split; [done|].
      destruct (iteration_not_found config job_id ctx env fuel start a d lp e)
        as (res & _ & Heq); try done.
      rewrite Hr in Heq. eexists _, _. split; [exact Heq|].
      split; [apply notify_notifications | done].
    + destruct (decide (S a < 3)%nat) as [Ha|Ha].
      * right. split; [done|].
        destruct (iteration_retry config job_id ctx env fuel start a d lp status_code e)
          as (notes & Hn & Heq); try done.
        rewrite Hr in Heq. by exists notes, lp.
      * left. split; [done|].
        eexists _, _. split.
        { rewrite <- Hr.
          apply (iteration_give_up config job_id ctx env fuel start a d lp status_code e);
            (done || lia). }
        split; [apply notify_notifications | done].
  - left. split; [done|].
    eexists _, []. split.
    { rewrite <- Hr. by apply (iteration_other config job_id ctx env fuel start a d lp e). }
    by split.
Qed.

Lemma sleeps_timeout now n : sleeps (EvClock now :: notify ctx n) = [].
Proof. change (sleeps (notify ctx n) = []). apply sleeps_notify. Qed.

Lemma checks_timeout now n : checks (EvClock now :: notify ctx n) = [].
Proof. change (checks (notify ctx n) = []). apply checks_notify. Qed.

(** The delays slept are those of the recurrence of the loop, from the
    current delay on, whatever the checks meet. *)
Lemma loop_sleeps fuel : ∀ start a d lp,
  ∃ n, sleeps (loop fuel start a d lp).2 = delays config n d.
Proof.
  induction fuel as [|fuel IH]; intros start a d lp.
  { by exists 0%nat. }
  destruct (iteration_kinds fuel start a d lp)
    as [[_ (msg & ->)]|[(_ & out & notes & -> & Hn & _)|(_ & notes & lp' & -> & Hn)]];
    cbn [snd].
  - exists 0%nat. apply sleeps_timeout.
  - exists 0%nat. by apply sleeps_terminal.
  - destruct (IH start (S a) (_calculate_next_delay config d (S a)) lp') as [n Hrest].
    exists (S n). rewrite sleeps_continuing by done. by rewrite Hrest.
Qed.

(** A reading of the clock past the timeout, within the budget of
    iterations, ends the loop. *)
Lemma loop_stops fuel : ∀ start a d lp j,
  (a < j ≤ a + fuel)%nat → timeout config < clock env j - start →
  (loop fuel start a d lp).1 ≠ OutOfFuel.
Proof.
  induction fuel as [|fuel IH]; intros start a d lp j Hj Hlate; [lia|].
  destruct (iteration_kinds fuel start a d lp)
    as [[_ (msg & ->)]|[(_ & out & notes & -> & _ & Hout)|(Hin & notes & lp' & -> & _)]];
    cbn [fst]; [done | done |].
  apply (IH _ _ _ _ j); [|done].
  destruct (decide (j = S a)) as [->|Hne]; [|lia].
  exfalso. by apply (Qlt_not_le _ _ Hlate).
Qed.

(** Before a reading past the timeout there are fewer checks than
    readings. *)
Lemma loop_stops_checks fuel : ∀ start a d lp j,
  (a < j ≤ a + fuel)%nat → timeout config < clock env j - start →
  (length (checks (loop fuel start a d lp).2) < j - a)%nat.
Proof.
  induction fuel as [|fuel IH]; intros start a d lp j Hj Hlate; [lia|].
  destruct (iteration_kinds fuel start a d lp)
    as [[_ (msg & ->)]|[(Hin & out & notes & -> & Hn & _)|(Hin & notes & lp' & -> & Hn)]];
    cbn [snd].
  - rewrite checks_timeout. cbn [length]. lia.
  - rewrite checks_terminal by done. cbn [length].
    destruct (decide (j = S a)) as [->|Hne]; [|lia].
    exfalso. by apply (Qlt_not_le _ _ Hlate).
  - rewrite checks_continuing by done. cbn [length].
    destruct (decide (j = S a)) as [->|Hne].
    { exfalso. by apply (Qlt_not_le _ _ Hlate). }
    specialize (IH start (S a) (_calculate_next_delay config d (S a)) lp' j
                  ltac:(lia) Hlate).
    lia.
Qed.

End Steps.

Lemma delays_length config n : ∀ d, length (delays config n d) = n.
Proof. induction n as [|n IH]; intros d; cbn [delays length]; [done | by rewrite IH]. Qed.

Lemma schedule_capped config k : schedule config k <= max_delay config.
Proof. unfold schedule. apply Q.le_min_r. Qed.

Lemma capped_up_to_equality (l l' : list Q) m :
  Forall2 Qeq l l' → Forall (λ y, y <= m) l' → Forall (λ x, x <= m) l.
Proof.
  induction 1 as [|x y l l' Hxy _ IH]; intros Hcap; [constructor|].
  inversion Hcap as [|? ? Hy Hl']; subst.
  constructor; [by rewrite Hxy | by apply IH].
Qed.

(** X22. Under the profile of any job type, in every session, whatever
    the checks meet (running job, retried errors), the delays slept are in
    order those of the backoff schedule,
    [min (initial_delay * backoff_factor ^ k) max_delay], and none exceeds
    [max_delay]. The delays of the five profiles of the source are dyadic
    numbers of a few digits, on which the floating-point products of the
    source are exact. *)
Theorem every_delay_follows_backoff job_type job_id ctx env fuel :
  let config := get_polling_config settings job_type in
  let slept := sleeps (poll_until_complete config job_id ctx env fuel).2 in
  Forall2 Qeq slept (map (schedule config) (seq 0 (length slept)))
  ∧ Forall (λ d, d <= max_delay config) slept.
Proof.
  intros config slept. subst slept.
  destruct (default_profiles job_type) as (Hinit & Hmax & Hgrow).
  fold config in Hinit, Hmax, Hgrow.
  rewrite sleeps_session.
  destruct (loop_sleeps config job_id ctx env fuel (clock env 0) 0 (initial_delay config) None)
    as [n ->].
  rewrite delays_length.
  assert (Forall2 Qeq (delays config n (initial_delay config))
            (map (schedule config) (seq 0 n))) as Hsched.
  { apply delays_schedule; try done. by apply schedule_0. }
  split; [done|].
  eapply capped_up_to_equality; [exact Hsched|].
  clear Hsched. generalize (seq 0 n). intros ks.
  induction ks as [|k ks IH]; cbn [map]; constructor; [apply schedule_capped | exact IH].
Qed.


(** ** Termination *)

(** X23. As soon as one of the first [fuel] readings of the clock is past
    the timeout, the session ends within that many iterations, with fewer
    checks than readings, and [poll_with_context] returns a result: it
    neither runs on nor raises. *)
Theorem late_reading_ends_session config job_id ctx env fuel j :
  (1 ≤ j ≤ fuel)%nat →
  timeout config < clock env j - clock env 0 →
  let run := poll_until_complete config job_id ctx env fuel in
  run.1 ≠ OutOfFuel
  ∧ (length (checks run.2) < j)%nat
  ∧ ∃ r, (poll_with_context config job_id ctx env fuel).1 = Returned r.
Proof.
  intros Hj Hlate run. subst run.
  assert ((poll_until_complete config job_id ctx env fuel).1 ≠ OutOfFuel) as Hout.
  { rewrite poll_until_complete_loop. cbn [fst]. apply (loop_stops _ _ _ _ _ _ _ _ _ j); [lia|done]. }
  split; [done|]. split.
  - rewrite checks_session.
    pose proof (loop_stops_checks config job_id ctx env fuel (clock env 0) 0
                  (initial_delay config) None j ltac:(lia) Hlate).
    lia.
  - rewrite poll_with_context_outcome.
    destruct (poll_until_complete config job_id ctx env fuel).1 as [r|[msg|msg]|];
      [by eexists.. | done].
Qed.


(** ** The context does not steer the session *)

Lemma silent_app l1 l2 : silent (l1 ++ l2) = silent l1 ++ silent l2.
Proof. apply List.filter_app. Qed.

Lemma silent_notifications l : forallb is_notification l = true → silent l = [].
Proof.
  induction l as [|e l IH]; [done|]. cbn [forallb silent List.filter].
  intros [-> Hl]%andb_true_iff. by apply IH.
Qed.

Lemma silent_notify ctx n : silent (notify ctx n) = [].
Proof. by destruct ctx. Qed.

(** Both loops go on: the induction hypothesis relates what follows. *)
Ltac both_go_on IH :=
  lazymatch goal with
  | |- context [Polling.poll_loop ?c ?j true ?e ?f ?s ?a ?d ?lp] =>
      lazymatch goal with
      | |- context [Polling.poll_loop c j false e f s a d ?lp'] =>
          destruct (IH s a d lp lp') as [Ho Ht];
          destruct (Polling.poll_loop c j true e f s a d lp) as [o1 t1];
          destruct (Polling.poll_loop c j false e f s a d lp') as [o2 t2];
          cbn [fst snd] in Ho, Ht |- *; split; [exact Ho|];
          rewrite <- Ht; reflexivity
      end
  end.

Lemma loop_silent config job_id env fuel : ∀ start a d lp lp',
  (poll_loop config job_id true env fuel start a d lp).1
  = (poll_loop config job_id false env fuel start a d lp').1
  ∧ silent (poll_loop config job_id true env fuel start a d lp).2
    = (poll_loop config job_id false env fuel start a d lp').2.
Proof.
  induction fuel as [|fuel IH]; intros start a d lp lp'; [done|].
  cbn [Polling.poll_loop].
  destruct (Qlt_bool (timeout config) (clock env (S a) - start)); [done|].
  destruct (get_job_status env (S a)) as [data|status_code e|e]; [| |done].
  - destruct (progress data) as [p|]; cbn [andb];
      [destruct (negb (option_Q_eqb lp (Some p)))|];
      destruct (S a mod 5 =? 0)%nat; cbn [notify app];
      (destruct (status data); [both_go_on IH | both_go_on IH | done | done]).
  - destruct (bool_decide (status_code = Some 404%Z)); [done|].
    destruct (S a <? 3)%nat; [|done].
    cbn [notify app]. both_go_on IH.
Qed.

(** X24. Whether a context is given or not, the session ends alike and makes
    the same readings of the clock, checks and sleeps in the same order: the
    trace with a context, its messages left out, is the trace without one. *)
Theorem context_does_not_steer config job_id env fuel :
  let with_ctx := poll_until_complete config job_id true env fuel in
  let without := poll_until_complete config job_id false env fuel in
  with_ctx.1 = without.1
  ∧ silent with_ctx.2 = without.2
  ∧ (poll_with_context config job_id true env fuel).1
    = (poll_with_context config job_id false env fuel).1.
Proof.
  intros with_ctx without. subst with_ctx without.
  destruct (loop_silent config job_id env fuel (clock env 0) 0 (initial_delay config)
              None None) as [Hout Htrace].
  assert ((poll_until_complete config job_id true env fuel).1
          = (poll_until_complete config job_id false env fuel).1) as Hsame.
  { rewrite !poll_until_complete_loop. exact Hout. }
  split; [exact Hsame|]. split.
  - rewrite !poll_until_complete_loop. cbn [snd notify app].
    cbn [silent List.filter is_notification negb].
    fold (silent (Polling.poll_loop config job_id true env fuel (clock env 0) 0
                    (initial_delay config) None).2).
    by rewrite Htrace.
  - rewrite !poll_with_context_outcome. by rewrite Hsame.
Qed.


(** ** Messages to the context *)

(** The loop goes on: the induction hypothesis covers what follows. *)
Ltac goes_on IH :=
  lazymatch goal with
  | |- context [Polling.poll_loop ?c ?j ?x ?e ?f ?s ?a ?d ?lp] =>
      pose proof (IH s a d lp) as Hrest;
      destruct (Polling.poll_loop c j x e f s a d lp) as [o t];
      cbn [snd] in Hrest |- *
  end.

Lemma loop_reports config job_id ctx env fuel : ∀ start a d lp,
  changing lp (reports (poll_loop config job_id ctx env fuel start a d lp).2) = true.
Proof.
  induction fuel as [|fuel IH]; intros start a d lp; [done|].
  cbn [Polling.poll_loop].
  destruct (Qlt_bool (timeout config) (clock env (S a) - start)); [by destruct ctx|].
  destruct (get_job_status env (S a)) as [data|status_code e|e]; [| |done].
  - destruct (progress data) as [p|]; destruct ctx; cbn [andb];
      try destruct (negb (option_Q_eqb lp (Some p))) eqn:Hch;
      destruct (S a mod 5 =? 0)%nat; cbn [notify app];
      (destruct (status data);
       [goes_on IH | goes_on IH | |]);
      cbn [snd reports flat_map app changing];
      repeat match goal with H : negb _ = _ |- _ => rewrite H; clear H end;
      first [done | exact Hrest].
  - destruct (bool_decide (status_code = Some 404%Z)); [by destruct ctx|].
    destruct (S a <? 3)%nat; [|by destruct ctx].
    goes_on IH. destruct ctx; exact Hrest.
Qed.

Lemma changing_neighbours values : ∀ previous i x y,
  changing previous values = true →
  values !! i = Some x → values !! S i = Some y → ¬ x == y.
Proof.
  induction values as [|v values IH]; intros previous i x y Hch Hx Hy; [done|].
  cbn [changing] in Hch. apply andb_true_iff in Hch as [_ Hch].
  destruct i as [|i].
  - cbn in Hx, Hy. injection Hx as ->.
    destruct values as [|w values]; [done|]. cbn in Hy. injection Hy as ->.
    cbn [changing option_Q_eqb] in Hch. apply andb_true_iff in Hch as [Hne _].
    intros Heq. apply Qeq_bool_iff in Heq. by rewrite Heq in Hne.
  - by apply (IH (Some v) i x y).
Qed.

(** X25. Progress is reported to the context only when it differs from the
    value reported last: no value is reported twice in a row. *)
Theorem progress_reported_on_change config job_id ctx env fuel :
  let sent := reports (poll_until_complete config job_id ctx env fuel).2 in
  changing None sent = true
  ∧ ∀ i x y, sent !! i = Some x → sent !! S i = Some y → ¬ x == y.
Proof.
  intros sent.
  assert (changing None sent = true) as Hch.
  { subst sent. rewrite poll_until_complete_loop. cbn [snd].
    destruct ctx;
      exact (loop_reports config job_id _ env fuel (clock env 0) 0 (initial_delay config)
               None). }
  split; [exact Hch|]. intros i x y. by apply (changing_neighbours sent None).
Qed.

Lemma loop_status_logs config job_id ctx env fuel : ∀ start a d lp,
  Forall (λ k, (k mod 5 = 0)%nat)
    (status_logs (poll_loop config job_id ctx env fuel start a d lp).2).
Proof.
  induction fuel as [|fuel IH]; intros start a d lp; [constructor|].
  cbn [Polling.poll_loop].
  destruct (Qlt_bool (timeout config) (clock env (S a) - start));
    [destruct ctx; constructor|].
  destruct (get_job_status env (S a)) as [data|status_code e|e]; [| |constructor].
  - destruct (progress data) as [p|]; destruct ctx; cbn [andb];
      try destruct (negb (option_Q_eqb lp (Some p)));
      destruct (S a mod 5 =? 0)%nat eqn:Hmod; cbn [notify app];
      (destruct (status data);
       [goes_on IH | goes_on IH | |]);
      cbn [snd status_logs flat_map app];
      repeat (constructor; [by apply Nat.eqb_eq|]);
      first [exact Hrest | constructor].
  - destruct (bool_decide (status_code = Some 404%Z)); [destruct ctx; constructor|].
    destruct (S a <? 3)%nat; [|destruct ctx; constructor].
    goes_on IH. destruct ctx; exact Hrest.
Qed.

Lemma loop_unlogged config job_id env fuel : ∀ start a d lp,
  status_logs (poll_loop config job_id false env fuel start a d lp).2 = [].
Proof.
  induction fuel as [|fuel IH]; intros start a d lp; [done|].
  cbn [Polling.poll_loop].
  destruct (Qlt_bool (timeout config) (clock env (S a) - start)); [done|].
  destruct (get_job_status env (S a)) as [data|status_code e|e]; [| |done].
  - destruct (progress data) as [p|]; cbn [andb];
      destruct (S a mod 5 =? 0)%nat; cbn [notify app];
      (destruct (status data);
       [goes_on IH | goes_on IH | |]);
      cbn [snd status_logs flat_map app]; first [done | exact Hrest].
  - destruct (bool_decide (status_code = Some 404%Z)); [done|].
    destruct (S a <? 3)%nat; [|done].
    goes_on IH. exact Hrest.
Qed.

(** X26. The status of the job is logged to the context at attempts that are
    multiples of five only, and not at all without a context. *)
Theorem status_logged_every_fifth config job_id ctx env fuel :
  let logged := status_logs (poll_until_complete config job_id ctx env fuel).2 in
  Forall (λ k, (k mod 5 = 0)%nat) logged ∧ (ctx = false → logged = []).
Proof.
  intros logged. subst logged. split.
  - rewrite poll_until_complete_loop. cbn [snd].
    destruct ctx;
      exact (loop_status_logs config job_id _ env fuel (clock env 0) 0
               (initial_delay config) None).
  - intros ->. rewrite poll_until_complete_loop. cbn [snd].
    exact (loop_unlogged config job_id env fuel (clock env 0) 0 (initial_delay config) None).
Qed.


(** ** The properties at sample sessions *)

Ltac attempts_up_to_three :=
  intros k Hk; assert (k = 1 ∨ k = 2 ∨ k = 3)%nat as [->|[->| ->]] by lia.

(** X19 at a sample: an audio job found failed at the third check. *)
Lemma failed_job_ends_session_witness :
  let env := {| clock := ticking 10; get_job_status := then_at 3 (Responded failed) |} in
  let run := poll_until_complete (get_polling_config settings "audio") "job-1" false env 9 in
  run.1 = Returned (job_failed "job-1" env 3)
  ∧ map fst (checks run.2) = [1; 2; 3]%nat.
Proof.
  destruct (failed_job_ends_session (get_polling_config settings "audio") "job-1" false
              {| clock := ticking 10; get_job_status := then_at 3 (Responded failed) |}
              3 9 failed) as (Hout & Hchecks & _).
  - lia.
  - lia.
  - attempts_up_to_three; try lia; (exists running; split; [reflexivity | by right]).
  - attempts_up_to_three; apply Qle_computed; reflexivity.
  - reflexivity.
  - reflexivity.
  - split; [exact Hout | exact Hchecks].
Defined.

(** X20 at a sample: a 404 at the first check ends the session without a
    sleep. *)
Lemma missing_job_ends_session_witness :
  let env := {| clock := ticking 10;
                get_job_status := then_at 1 (RaisedDeapiAPIError (Some 404%Z) "Not Found") |} in
  let run := poll_until_complete (get_polling_config settings "audio") "job-1" false env 9 in
  run.1 = Returned (job_not_found "job-1" env 1)
  ∧ sleeps run.2 = [].
Proof.
  destruct (missing_job_ends_session (get_polling_config settings "audio") "job-1" false
              {| clock := ticking 10;
                 get_job_status :=
                   then_at 1 (RaisedDeapiAPIError (Some 404%Z) "Not Found") |}
              1 9 "Not Found") as (Hout & _ & Hsleeps).
  - lia.
  - lia.
  - intros k Hk. lia.
  - intros k Hk. assert (k = 1)%nat as -> by lia. apply Qle_computed. reflexivity.
  - reflexivity.
  - split; [exact Hout | exact Hsleeps].
Defined.

(** X21 at a sample: a connection failure at the second check. *)
Lemma unexpected_exception_escapes_witness :
  let env := {| clock := ticking 10;
                get_job_status := then_at 2 (RaisedOther "connection reset") |} in
  (poll_until_complete (get_polling_config settings "audio") "job-1" false env 9).1
  = Raised (OtherException "connection reset")
  ∧ (poll_with_context (get_polling_config settings "audio") "job-1" false env 9).1
    = Returned (failure "job-1" (Literal "connection reset")).
Proof.
  destruct (unexpected_exception_escapes (get_polling_config settings "audio") "job-1" false
              {| clock := ticking 10;
                 get_job_status := then_at 2 (RaisedOther "connection reset") |}
              2 9 "connection reset") as (Hout & _ & Hresult).
  - lia.
  - lia.
  - intros k Hk. assert (k = 1)%nat as -> by lia.
    exists running. split; [reflexivity | by right].
  - intros k Hk. assert (k = 1 ∨ k = 2)%nat as [->| ->] by lia;
      apply Qle_computed; reflexivity.
  - reflexivity.
  - split; [exact Hout | exact Hresult].
Defined.

(** X22 at a sample: the sleeps of a video session cut by the timeout stay
    below 30 seconds. *)
Lemma every_delay_follows_backoff_witness :
  Forall (λ d, d <= 30)
    (sleeps (poll_until_complete (get_polling_config settings "video") "job-1" false
               {| clock := ticking 100; get_job_status := never_done |} 20).2).
Proof.
  apply (every_delay_follows_backoff "video" "job-1" false
           {| clock := ticking 100; get_job_status := never_done |} 20).
Defined.

(** X23 at a sample: a job that never ends: the fourth reading of a clock
    that advances by 100 seconds is past the 300 seconds of the audio
    profile. *)
Lemma late_reading_ends_session_witness :
  let env := {| clock := ticking 100; get_job_status := never_done |} in
  let run := poll_until_complete (get_polling_config settings "audio") "job-1" false env 9 in
  (length (checks run.2) < 4)%nat
  ∧ ∃ r, (poll_with_context (get_polling_config settings "audio") "job-1" false env 9).1
         = Returned r.
Proof.
  destruct (late_reading_ends_session (get_polling_config settings "audio") "job-1" false
              {| clock := ticking 100; get_job_status := never_done |} 9 4)
    as (_ & Hchecks & Hresult).
  - lia.
  - reflexivity.
  - split; [exact Hchecks | exact Hresult].
Defined.

End SessionProperties.

(** * Properties of the embedding tool *)

Module ToolProperties.
Import OAuth Auth IssuerSpec Polling PollingSpec SessionSpec Tools PollingProperties
  IssuerProperties SessionProperties.
Local Open Scope string_scope.

(** ** A call without a token *)

(** X27. When the request context holds no token, or an empty one, the tool
    answers with the failure "Unexpected error: No deAPI token available
    ..." and submits nothing. *)
Theorem tool_without_token env fuel :
  falsy (current_deapi_token env) = true →
  text_to_embedding env fuel
  = (Some {| d_success := false;
             d_result := None;
             d_job_id := None;
             d_metadata := None;
             d_error := Some (UnexpectedError (Literal no_token)) |}, []).
Proof.
  intros H. unfold text_to_embedding, get_client, get_current_token. by rewrite H.
Qed.


(** *** Unfolding a call that reaches the polling *)

Lemma text_to_embedding_polls env fuel token job_id :
  current_deapi_token env = Some token → token ≠ "" →
  submit_job env (headers {| api_token := token |}) = Submitted job_id →
  let run := poll_until_complete (get_polling_config settings "embedding") job_id false
               (session env) fuel in
  (text_to_embedding env fuel).1 =
    match run.1 with
    | Returned result =>
        if success result then
          Some {| d_success := true;
                  d_result := Some (tr_result result);
                  d_job_id := Some job_id;
                  d_metadata := Some (metadata result);
                  d_error := None |}
        else Some (failed_with (ResultError (error result)) (Some job_id))
    | Raised (PollingTimeoutError msg) => Some (failed_with (UnexpectedError msg) None)
    | Raised (OtherException message) =>
        Some (failed_with (UnexpectedError (Literal message)) None)
    | OutOfFuel => None
    end.
Proof.
  intros Hcur Hne Hsub run. subst run.
  unfold text_to_embedding, get_client, get_current_token. rewrite Hcur.
  destruct token as [|c token]; [done|]. cbn [falsy truthy negb]. rewrite Hsub.
  destruct (poll_until_complete _ _ _ _ _) as [[r|[msg|msg]|] trace]; cbn [fst];
    [by destruct (success r) | done..].
Qed.






(** ** The credential of the bearer is the one sent upstream *)


(** ** What the tool makes of the session *)

(** X29. When the job is done at check [N], within the 120 seconds of the
    embedding profile, the tool returns the result with the job id and the
    metadata of the session. *)
Theorem tool_returns_result env fuel token job_id N data :
  current_deapi_token env = Some token → token ≠ "" →
  submit_job env (headers {| api_token := token |}) = Submitted job_id →
  (1 ≤ N)%nat → (N ≤ fuel)%nat →
  (∀ k, (1 ≤ k < N)%nat → non_terminal (get_job_status (session env) k)) →
  get_job_status (session env) N = Responded data → status data = DONE →
  (∀ k, (1 ≤ k ≤ N)%nat → (clock (session env) k - clock (session env) 0 <= 120)%Q) →
  (text_to_embedding env fuel).1
  = Some {| d_success := true;
            d_result := Some (result data);
            d_job_id := Some job_id;
            d_metadata :=
              Some (Some {| elapsed_time :=
                              (clock (session env) N - clock (session env) 0)%Q;
                            attempts := N |});
            d_error := None |}.
Proof.
  intros Hcur Hne Hsub HN Hfuel Hrun Hlast Hdone Htime.
  rewrite (text_to_embedding_polls env fuel token job_id) by done. cbv zeta.
  destruct (session_success (get_polling_config settings "embedding") job_id false
              (session env) N fuel data) as (-> & _); done.
Qed.

(** X30. When the clock is found past the 120 seconds of the embedding
    profile at reading [N], the job running until then, the tool answers
    with the failure "Unexpected error: Job ... timed out ...", which has
    neither the job id nor metadata. *)
Theorem tool_reports_timeout env fuel token job_id N :
  current_deapi_token env = Some token → token ≠ "" →
  submit_job env (headers {| api_token := token |}) = Submitted job_id →
  (1 ≤ N)%nat → (N ≤ fuel)%nat →
  (∀ k, (1 ≤ k < N)%nat → non_terminal (get_job_status (session env) k)) →
  (∀ k, (1 ≤ k < N)%nat → (clock (session env) k - clock (session env) 0 <= 120)%Q) →
  (120 < clock (session env) N - clock (session env) 0)%Q →
  (text_to_embedding env fuel).1
  = Some {| d_success := false;
            d_result := None;
            d_job_id := None;
            d_metadata := None;
            d_error :=
              Some (UnexpectedError
                      (TimedOutText job_id
                         (clock (session env) N - clock (session env) 0) 120)) |}.
Proof.
  intros Hcur Hne Hsub HN Hfuel Hrun Htime Hlate.
  rewrite (text_to_embedding_polls env fuel token job_id) by done. cbv zeta.
  rewrite (session_times_out (get_polling_config settings "embedding") job_id false
             (session env) N fuel) by done.
  reflexivity.
Qed.


(** ** The properties at sample calls *)

(** X27 at a sample: a call on a request that carried no bearer. *)
Lemma tool_without_token_witness :
  (text_to_embedding
     (sample_call None (accepting "job-1")
        {| clock := ticking 10; get_job_status := done_at 2 |}) 9).2
  = [].
Proof.
  by rewrite (tool_without_token
                (sample_call None (accepting "job-1")
                   {| clock := ticking 10; get_job_status := done_at 2 |}) 9).
Defined.


(** The same call at an API that is reached at the third request only:
    the submission is sent three times. *)
Example network_failures_repeat_submission :
  let call :=
    sample_call (Some sample_credential) (reached_at 3 "job-1")
      {| clock := ticking 10; get_job_status := done_at 2 |} in
  length (submissions (text_to_embedding call 9).2) = 3%nat
  ∧ d_job_id <$> (text_to_embedding call 9).1 = Some (Some "job-1")
  ∧ d_error <$> (text_to_embedding
                   (sample_call (Some sample_credential) (reached_at 4 "job-1")
                      (session call)) 9).1
    = Some (Some (UnexpectedError (Literal (retry_error call)))).
Proof. cbv zeta. conjuncts computed. Qed.

(** X29 at a sample: an embedding done at the second check. *)
Lemma tool_returns_result_witness :
  d_job_id <$>
    (text_to_embedding
       (sample_call (Some sample_credential) (accepting "job-1")
          {| clock := ticking 10; get_job_status := done_at 2 |}) 9).1
  = Some (Some "job-1").
Proof.
  rewrite (tool_returns_result
             (sample_call (Some sample_credential) (accepting "job-1")
                {| clock := ticking 10; get_job_status := done_at 2 |})
             9 sample_credential "job-1" 2 finished).
  - reflexivity.
  - reflexivity.
  - discriminate.
  - reflexivity.
  - lia.
  - lia.
  - intros k Hk. assert (k = 1)%nat as -> by lia.
    exists running. split; [reflexivity | by right].
  - reflexivity.
  - reflexivity.
  - intros k Hk. assert (k = 1 ∨ k = 2)%nat as [->| ->] by lia;
      apply Qle_computed; reflexivity.
Defined.

(** X30 at a sample: an embedding that is still running when the clock reads
    200 seconds, at the second reading. *)
Lemma tool_reports_timeout_witness :
  d_job_id <$>
    (text_to_embedding
       (sample_call (Some sample_credential) (accepting "job-1")
          {| clock := ticking 100; get_job_status := never_done |}) 9).1
  = Some None.
Proof.
  rewrite (tool_reports_timeout
             (sample_call (Some sample_credential) (accepting "job-1")
                {| clock := ticking 100; get_job_status := never_done |})
             9 sample_credential "job-1" 2).
  - reflexivity.
  - reflexivity.
  - discriminate.
  - reflexivity.
  - lia.
  - lia.
  - intros k Hk. assert (k = 1)%nat as -> by lia.
    exists running. split; [reflexivity | by right].
  - intros k Hk. assert (k = 1)%nat as -> by lia. apply Qle_computed. reflexivity.
  - reflexivity.
Defined.

End ToolProperties.
